(** * Clinical multi-agent discussion engine: a shallow embedding

    This development models two parts of the repository:

    - [auth/session_handler.py]: the session store with its sliding
      expiration ([Module Session]);
    - [discussion/discussion_engine.py] together with the agent classes of
      [agents/base_agent.py], [agents/specialty_agents.py] and
      [agents/custom_agent.py]: the round scheduler, the digest of the
      discussion log, the handling of operator interventions and the final
      summary ([Module Engine]).

    Python text is a list of Unicode code points ([pystr]), so that [len] and
    slicing count characters as Python does.  Dictionaries whose iteration
    order matters are association lists; the session map is a [gmap].
    Wall-clock readings, the language model and the operator at the console
    are inputs of the model. *)

From Stdlib Require Import ZArith List String Ascii Bool Lia Decimal DecimalString.
From stdpp Require Import base gmap strings list.

Local Open Scope Z_scope.

(** ** Session handling ([auth/session_handler.py]) *)

Module Session.

(** A [datetime] is a count of microseconds: that is the resolution of
    Python's [datetime], and [(a - b).total_seconds()] of two such values is
    [(a - b) / 10^6]. *)
Definition datetime := Z.

(** [SessionData]; the three dictionaries are opaque payloads here. *)
Record SessionData := mkSessionData {
  session_id : string;
  user_id : string;
  created_at : datetime;
  last_activity : datetime;
  custom_agents : list (string * string);
  discussion_data : list (string * string);
  user_preferences : list (string * string)
}.

(** [SessionHandler]: the timeout (whole seconds) and the map of active
    sessions.  The lock and the cleanup thread are not modelled: every
    operation below is one critical section. *)
Record SessionHandler := mkSessionHandler {
  session_timeout : Z;
  active_sessions : gmap string SessionData
}.

Definition set_last_activity (now : datetime) (d : SessionData) : SessionData :=
  {| session_id := session_id d;
     user_id := user_id d;
     created_at := created_at d;
     last_activity := now;
     custom_agents := custom_agents d;
     discussion_data := discussion_data d;
     user_preferences := user_preferences d |}.

(** [time_since_activity > self.session_timeout], with
    [time_since_activity = (now - last_activity).total_seconds()].  The test
    is made here on the integers; Python makes it on the float of
    [total_seconds()], which agrees for every timeout below [2^33] seconds
    and not for every larger one: the statements that depend on the exact
    threshold are made for such timeouts only. *)
Definition timed_out (now : datetime) (d : SessionData) (h : SessionHandler) : bool :=
  session_timeout h * 1000000 <? now - last_activity d.

(** [create_session]: the identifier drawn by [secrets.token_urlsafe] and the
    clock reading are inputs. *)
Definition create_session (sid : string) (now : datetime) (uid : string)
    (prefs : list (string * string)) (h : SessionHandler) : string * SessionHandler :=
  let session_data :=
    {| session_id := sid; user_id := uid; created_at := now; last_activity := now;
       custom_agents := []; discussion_data := []; user_preferences := prefs |} in
  (sid, {| session_timeout := session_timeout h;
           active_sessions := <[sid := session_data]> (active_sessions h) |}).

(** [validate_session]: the result pair and the handler afterwards. *)
Definition validate_session (now : datetime) (sid : string) (h : SessionHandler)
    : (bool * option SessionData) * SessionHandler :=
  match active_sessions h !! sid with
  | None => ((false, None), h)
  | Some session_data =>
      if timed_out now session_data h then
        ((false, None),
         {| session_timeout := session_timeout h;
            active_sessions := delete sid (active_sessions h) |})
      else
        let session_data' := set_last_activity now session_data in
        ((true, Some session_data'),
         {| session_timeout := session_timeout h;
            active_sessions := <[sid := session_data']> (active_sessions h) |})
  end.

(** [update_session_activity]. *)
Definition update_session_activity (now : datetime) (sid : string) (h : SessionHandler)
    : bool * SessionHandler :=
  match active_sessions h !! sid with
  | Some d =>
      (true, {| session_timeout := session_timeout h;
                active_sessions := <[sid := set_last_activity now d]> (active_sessions h) |})
  | None => (false, h)
  end.

(** [get_session_data]. *)
Definition get_session_data (sid : string) (h : SessionHandler) : option SessionData :=
  active_sessions h !! sid.

(** [destroy_session]. *)
Definition destroy_session (sid : string) (h : SessionHandler) : bool * SessionHandler :=
  match active_sessions h !! sid with
  | Some _ =>
      (true, {| session_timeout := session_timeout h;
                active_sessions := delete sid (active_sessions h) |})
  | None => (false, h)
  end.

(** [_cleanup_expired_sessions]: one sweep of the background thread. *)
Definition _cleanup_expired_sessions (now : datetime) (h : SessionHandler) : SessionHandler :=
  {| session_timeout := session_timeout h;
     active_sessions :=
       filter (fun kv => timed_out now (snd kv) h = false) (active_sessions h) |}.

End Session.

(** ** Python text *)

Module Text.

(** A character is a Unicode code point and a [str] a list of them. *)
Definition char := N.
Definition pystr := list char.

(** Decoding of the UTF-8 bytes of a literal of this file into code points:
    [need] continuation bytes are still expected and [acc] holds the bits
    read so far. *)
Fixpoint utf8_go (need : nat) (acc : N) (bs : list N) : pystr :=
  match bs with
  | [] => []
  | b :: bs' =>
      match need with
      | O =>
          if (b <? 128)%N then b :: utf8_go 0 0%N bs'
          else if (b <? 224)%N then utf8_go 1 (b mod 32)%N bs'
          else if (b <? 240)%N then utf8_go 2 (b mod 16)%N bs'
          else utf8_go 3 (b mod 8)%N bs'
      | S O => (acc * 64 + b mod 64)%N :: utf8_go 0 0%N bs'
      | S n => utf8_go n (acc * 64 + b mod 64)%N bs'
      end
  end.

Definition py (s : string) : pystr :=
  utf8_go 0 0%N (List.map N_of_ascii (list_ascii_of_string s)).

Definition nl : pystr := [10%N].

(** [str(n)] for a non-negative [int]. *)
Definition str_of_nat (n : nat) : pystr :=
  py (NilEmpty.string_of_uint (Nat.to_uint n)).

(** [sep.join(parts)]. *)
Fixpoint join (sep : pystr) (parts : list pystr) : pystr :=
  match parts with
  | [] => []
  | [p] => p
  | p :: rest => p ++ sep ++ join sep rest
  end.

(** [a == b] on text. *)
Fixpoint str_eqb (a b : pystr) : bool :=
  match a, b with
  | [], [] => true
  | x :: a', y :: b' => (x =? y)%N && str_eqb a' b'
  | _, _ => false
  end.

(** [s.startswith(p)] and [p in s]. *)
Fixpoint starts_with (p s : pystr) : bool :=
  match p, s with
  | [], _ => true
  | x :: p', y :: s' => (x =? y)%N && starts_with p' s'
  | _ :: _, [] => false
  end.

Fixpoint occurs (p s : pystr) : bool :=
  starts_with p s ||
  match s with
  | [] => false
  | _ :: s' => occurs p s'
  end.

(** [l[-n:]] for [n > 0] and [l[:n]]. *)
Definition last_n {A} (n : nat) (l : list A) : list A :=
  skipn (length l - n) l.

Definition first_n {A} (n : nat) (l : list A) : list A := firstn n l.

(** [str.isspace] on one character, as [str.split()] uses it. *)
Definition is_space (c : char) : bool :=
  ((9 <=? c) && (c <=? 13) || (28 <=? c) && (c <=? 32) || (c =? 133) || (c =? 160)
   || (c =? 5760) || (8192 <=? c) && (c <=? 8202) || (c =? 8232) || (c =? 8233)
   || (c =? 8239) || (c =? 8287) || (c =? 12288))%N.

(** [s.split()]: the maximal runs of non-space characters; [cur] is the run
    being read. *)
Fixpoint split_go (cur : pystr) (s : pystr) : list pystr :=
  match s with
  | [] => match cur with [] => [] | _ => [cur] end
  | c :: s' =>
      if is_space c then
        match cur with
        | [] => split_go [] s'
        | _ => cur :: split_go [] s'
        end
      else split_go (cur ++ [c]) s'
  end.

Definition split (s : pystr) : list pystr := split_go [] s.

End Text.

(** ** The discussion engine ([discussion/discussion_engine.py]) and its agents *)

Module Engine.
Import Text.

(** *** Data *)

Inductive Role := System | User | Assistant.

(** A chat message [{"role": ..., "content": ...}]. *)
Record Message := mkMessage { role : Role; content : pystr }.

(** What a call can do: return a value or raise; the text is [str(e)]. *)
Inductive Outcome (A : Type) :=
  | Returned (a : A)
  | Raised (e : pystr).
Arguments Returned {A} a.
Arguments Raised {A} e.

(** The two participant classes of [agents/]: [SpecialtyAgent] defines
    [analyze_clinical_case] and [respond_to_user_question(..., concise)];
    [CustomAgent] defines neither ([analyze_case], and
    [respond_to_user_question] without [concise]).  Both inherit
    [set_shared_history], [update_context], [chat] and
    [chat_without_history] from [BaseAgent]. *)
Inductive AgentClass := SpecialtyAgent | CustomAgent.

(** An agent, with the fields that the methods below read.  [self.history],
    the archive that [chat] and [chat_without_history] extend with every
    exchange and that only [save_conversation] reads, is left out, as are
    [ans_list], [reason_list], [ans] and [reason]: nothing said about an
    agent here is about them. *)
Record Agent := mkAgent {
  agent_class : AgentClass;
  agent_name : pystr;
  specialty : pystr;
  system_instruction : pystr;
  messages : list Message
}.

Definition set_messages (ms : list Message) (a : Agent) : Agent :=
  {| agent_class := agent_class a;
     agent_name := agent_name a;
     specialty := specialty a;
     system_instruction := system_instruction a;
     messages := ms |}.

(** The result dictionary of [analyze_clinical_case]. *)
Inductive Analysis :=
  | AnalysisOk (a_specialty concise_analysis : pystr) (word_count : nat)
  | AnalysisFailed (a_error a_specialty : pystr).

(** [d.get("success")] and [d.get("concise_analysis")] on such a dictionary. *)
Definition success (d : Analysis) : bool :=
  match d with AnalysisOk _ _ _ => true | AnalysisFailed _ _ => false end.

Definition get_concise_analysis (d : Analysis) : option pystr :=
  match d with AnalysisOk _ t _ => Some t | AnalysisFailed _ _ => None end.

(** One entry of a round's ["contributions"]: the keys ["agent"],
    ["contribution"], ["error"] and ["response"], the last three optional
    (time stamps are left out throughout). *)
Record Entry := mkEntry {
  agent : pystr;
  contribution : option Analysis;
  error : option pystr;
  response : option pystr
}.

(** The ["round"] and ["type"] keys of a round of the log: a normal round
    carries its number and no ["type"]; a broadcast round the label
    [broadcast_<n>] and its question; an intervention round the label
    [intervention_<n>]. *)
Inductive RoundTag :=
  | NormalRound (round_num : nat)
  | BroadcastRound (label : nat) (question : pystr)
  | InterventionRound (label : nat).

Record Round := mkRound { tag : RoundTag; contributions : list Entry }.

(** The dictionaries built by [_get_intervention_details]. *)
Inductive Intervention :=
  | question_to_agent (target_agent question : pystr)
  | broadcast_question (question : pystr)
  | add_information (information : pystr)
  | skip_round
  | interrupt.

Inductive InterventionType :=
  | Tquestion_to_agent | Tbroadcast_question | Tadd_information | Tskip_round | Tinterrupt.

(** [intervention_data.get('type')]. *)
Definition get_type (d : Intervention) : InterventionType :=
  match d with
  | question_to_agent _ _ => Tquestion_to_agent
  | broadcast_question _ => Tbroadcast_question
  | add_information _ => Tadd_information
  | skip_round => Tskip_round
  | interrupt => Tinterrupt
  end.

(** An element of [self.user_interventions]. *)
Record InterventionRecord := mkInterventionRecord {
  itype : InterventionType;
  data : Intervention
}.

(** [self.medical_context], the keys the engine reads or writes. *)
Record MedicalContext := mkMedicalContext {
  medical_record : pystr;
  mc_question : pystr;
  additional_info : list pystr;
  status : option pystr
}.

(** *** The environment *)

(** Every request to the language model is identified by where it is issued:
    the analysis of a participant in a round, the answer of a participant to
    a question asked at the checkpoint after [after] in a round, or the final
    decision.  [AgentHelper.invoke] (with its retries) either returns the
    reply or raises. *)
Inductive CallId :=
  | AnalysisCall (round_num : nat) (name : pystr)
  | AnswerCall (round_num : nat) (after : pystr) (target : pystr)
  | DecisionCall.

Inductive LLMResult :=
  | Reply (text : pystr)
  | Failure (err : pystr).

(** [invoke]: what the model does at each request; [operator]: what
    [_get_blocking_user_intervention] returns at the checkpoint after a
    participant in a round ([None] when the operator presses return or the
    console fails); [current_date]: the date text of [strftime]. *)
Record World := mkWorld {
  invoke : CallId -> LLMResult;
  operator : nat -> pystr -> option Intervention;
  current_date : pystr
}.

(** What a request carried: the message list of [chat] and
    [chat_without_history], or, for an answer, the values its message is
    formatted from (the text embeds the [repr] of the digest). *)
Inductive Prompt :=
  | ChatPrompt (ms : list Message)
  | AnswerPrompt (sys q : pystr) (discussion_context : list Message) (record : pystr).

Record LLMRequest := mkLLMRequest { call : CallId; prompt : Prompt }.

(** Lines written to the engine's logger. *)
Inductive LogEvent :=
  | LogHandling (t : InterventionType)
  | LogHandlingFailed (e : pystr)
  | LogAgentFailed (name e : pystr)
  | LogSkipRemaining (name : pystr)
  | LogFinalSummary
  | LogBackupSummary
  | LogDiscussionError (e : pystr).

(** *** Dictionaries in insertion order *)

Fixpoint dict_get {V} (k : pystr) (d : list (pystr * V)) : option V :=
  match d with
  | [] => None
  | (k', v) :: d' => if str_eqb k k' then Some v else dict_get k d'
  end.

(** [d[k] = v]: in place when the key exists, at the end otherwise. *)
Fixpoint dict_set {V} (k : pystr) (v : V) (d : list (pystr * V)) : list (pystr * V) :=
  match d with
  | [] => [(k, v)]
  | (k', v') :: d' => if str_eqb k k' then (k', v) :: d' else (k', v') :: dict_set k v d'
  end.

Definition keys {V} (d : list (pystr * V)) : list pystr := List.map fst d.

(** A Python truth test on text and lists. *)
Definition truthy {A} (l : list A) : bool :=
  match l with [] => false | _ => true end.

(** *** [BaseAgent] ([agents/base_agent.py]) *)

(** [set_shared_history]: keep the leading system message, replace the rest. *)
Definition set_shared_history (shared_messages : list Message) (a : Agent) : Agent :=
  match messages a with
  | m :: _ =>
      match role m with
      | System => set_messages (m :: shared_messages) a
      | _ => set_messages shared_messages a
      end
  | [] => set_messages shared_messages a
  end.

(** [update_context] with the default [information_type]. *)
Definition update_message (new_information : pystr) : pystr :=
  py "用户提供了新的" ++ py "补充信息" ++ py "：" ++ new_information ++ nl ++ nl
  ++ py "请基于这个新信息重新评估您之前的分析。".

Definition update_context (new_information : pystr) (a : Agent) : Agent :=
  set_messages (messages a ++ [mkMessage User (update_message new_information)]) a.

(** [chat]: the message joins the history before the request; the reply
    joins it afterwards; a failure of [invoke] is re-raised. *)
Definition chat (w : World) (id : CallId) (message : pystr) (a : Agent)
    : Outcome pystr * Agent * LLMRequest :=
  let ms := messages a ++ [mkMessage User message] in
  let req := mkLLMRequest id (ChatPrompt ms) in
  match invoke w id with
  | Reply r => (Returned r, set_messages (ms ++ [mkMessage Assistant r]) a, req)
  | Failure e => (Raised e, set_messages ms a, req)
  end.

(** [chat_without_history] of an agent whose system instruction is
    [system_content]: a fresh two-message request; [self.messages] is not
    touched (the exchange goes to the archive [self.history], which is not
    modelled). *)
Definition chat_without_history (w : World) (id : CallId) (message : pystr)
    (system_content : pystr) : Outcome pystr * LLMRequest :=
  let ms := [mkMessage System system_content; mkMessage User message] in
  let req := mkLLMRequest id (ChatPrompt ms) in
  match invoke w id with
  | Reply r => (Returned r, req)
  | Failure e => (Raised e, req)
  end.

(** *** [SpecialtyAgent] ([agents/specialty_agents.py]) *)

(** [_format_discussion_history_for_prompt], on the list it receives from the
    engine: a list of messages, whose dictionaries have neither ["round"] nor
    ["contributions"], so that every one of the last six yields its header
    line and nothing else. *)
Definition _format_discussion_history_for_prompt (discussion_history : list Message) : pystr :=
  match discussion_history with
  | [] => py "暂无讨论历史"
  | _ =>
      let formatted_history :=
        List.map (fun i => py "第" ++ str_of_nat i ++ py "轮讨论:")
                 (seq 1 (length (last_n 6 discussion_history))) in
      match formatted_history with
      | [] => py "暂无相关讨论历史"
      | _ => join nl formatted_history
      end
  end.

(** [_make_response_concise] with [max_words = 400]. *)
Definition _make_response_concise (response : pystr) : pystr :=
  let words := split response in
  if (length words <=? 400)%nat then response
  else join (py " ") (first_n 50 words ++ last_n 50 words) ++ py "...[内容已精简]".

(** The message of [analyze_clinical_case]. *)
Definition analysis_message (specialty medical_text history_context prompt_section : pystr)
    : pystr :=
  join nl
    [ py "基于以下病例信息和讨论历史，请从" ++ specialty ++ py "角度提供专业分析：";
      [];
      py "    【病历信息】";
      py "    " ++ medical_text;
      [];
      py "    【讨论历史】";
      py "    " ++ history_context;
      [];
      py "    【要求】";
      py "    请用500字以内简洁回答，可以包含：";
      py "    1. 涉及机制判断及理由";
      py "    2. 诊断和鉴别诊断建议及理由  ";
      py "    3. 治疗建议及理由";
      py "    4. 检查建议及理由";
      py "    " ++ prompt_section;
      py "    请专注于" ++ specialty
        ++ py "专业领域，根据上述要点进行总结回答，不用分点，提供精炼的专业汇总意见。" ].

(** [str(e)] of the [AttributeError] raised when a method is looked up on a
    [CustomAgent] that does not define it. *)
Definition attribute_error (method : pystr) : pystr :=
  py "'CustomAgent' object has no attribute '" ++ method ++ py "'".

(** [str(e)] of the [TypeError] raised when [CustomAgent]'s
    [respond_to_user_question(user_question, context)] is called with the
    keyword [concise]. *)
Definition keyword_error : pystr :=
  py "CustomAgent.respond_to_user_question() got an unexpected keyword argument 'concise'".

(** [agent.analyze_clinical_case({"free_text": medical_text},
    discussion_history, specific_prompt)]: the outcome, the agent afterwards
    and the requests sent.  A failure of the model is caught and returned as
    a dictionary with [success = False]. *)
Definition analyze_clinical_case (w : World) (id : CallId) (medical_text : pystr)
    (discussion_history : list Message) (specific_prompt : pystr) (a : Agent)
    : Outcome Analysis * Agent * list LLMRequest :=
  match agent_class a with
  | CustomAgent => (Raised (attribute_error (py "analyze_clinical_case")), a, [])
  | SpecialtyAgent =>
      let a1 := if truthy discussion_history
                then set_shared_history discussion_history a else a in
      let prompt_section := if truthy specific_prompt then nl ++ specific_prompt else [] in
      let history_context := _format_discussion_history_for_prompt discussion_history in
      let message :=
        analysis_message (specialty a1) medical_text history_context prompt_section in
      match chat w id message a1 with
      | (Returned response, a2, req) =>
          let concise_response := _make_response_concise response in
          (Returned (AnalysisOk (specialty a2) concise_response (length concise_response)),
           a2, [req])
      | (Raised e, a2, req) =>
          (Returned (AnalysisFailed e (specialty a2)), a2, [req])
      end
  end.

(** The result dictionary of [respond_to_user_question]. *)
Inductive Answer :=
  | AnswerOk (text : pystr)
  | AnswerFailed (err : pystr).

(** [agent.respond_to_user_question(question, context, concise=True)], the
    second definition of the class (it replaces the first). *)
Definition respond_to_user_question (w : World) (id : CallId) (q : pystr)
    (discussion_context : list Message) (record : pystr) (a : Agent)
    : Outcome Answer * list LLMRequest :=
  match agent_class a with
  | CustomAgent => (Raised keyword_error, [])
  | SpecialtyAgent =>
      let req :=
        mkLLMRequest id (AnswerPrompt (system_instruction a) q discussion_context record) in
      match invoke w id with
      | Reply r =>
          let r' := if (200 <? length r)%nat
                    then first_n 200 r ++ py "...[回答已精简]" else r in
          (Returned (AnswerOk r'), [req])
      | Failure e => (Returned (AnswerFailed e), [req])
      end
  end.

(** *** [DecisionMakersAgent] *)

(** The decision agent; of its state only the system instruction is used. *)
Record DecisionMaker := mkDecisionMaker { decision_instruction : pystr }.

(** The result dictionary of [make_final_decision]. *)
Inductive Decision :=
  | DecisionOk (final_decision : pystr)
  | DecisionFailed (err : pystr).

(** The lines [agent: analysis] of the successful contributions, in log
    order. *)
Definition all_analyses (discussion_log : list Round) : list pystr :=
  flat_map (fun round_log =>
    flat_map (fun c =>
      match contribution c with
      | Some d =>
          if success d
          then [agent c ++ py ": " ++ default [] (get_concise_analysis d)]
          else []
      | None => []
      end) (contributions round_log)) discussion_log.

(** [_build_decision_message]. *)
Definition _build_decision_message (w : World) (mc : MedicalContext) (analyses : list pystr)
    : pystr :=
  join nl
    [ py "作为临床决策专家，请基于以下多专科讨论结果，形成最终临床决策：";
      [];
      py "【病历摘要】";
      medical_record mc;
      [];
      py "【讨论问题】  ";
      mc_question mc;
      [];
      py "【各专科意见汇总】";
      join nl analyses;
      [];
      py "【决策要求】";
      py "请提供结构化的最终建议：";
      py "1. 综合诊断意见（按可能性排序，附支持证据）";
      py "2. 推荐的多学科治疗方案（分阶段、分专科）";
      py "3. 必要的辅助检查建议和优先级";
      py "4. 后续治疗计划和预后评估";
      py "5. 关键风险提示和跨专科注意事项";
      [];
      py "决策日期：" ++ current_date w;
      py "请确保建议基于各专科专家的深度分析，并考虑患者的整体情况。不要包含个人签名。" ].

(** [make_final_decision]: a failure of the model is caught here and
    returned as a dictionary with [success = False]. *)
Definition make_final_decision (w : World) (discussion_log : list Round)
    (mc : MedicalContext) (a : DecisionMaker) : Decision * list LLMRequest :=
  let message := _build_decision_message w mc (all_analyses discussion_log) in
  match chat_without_history w DecisionCall message (decision_instruction a) with
  | (Returned response, req) => (DecisionOk response, [req])
  | (Raised e, req) => (DecisionFailed e, [req])
  end.

(** *** The engine state *)

(** [self.interface]: the [CLIInterface] of [src/cli_interface.py], or [None]
    ([_create_default_interface] defines a class and returns nothing). *)
Inductive Interface := NoInterface | CLIInterface.

(** The attributes of [ClinicalDiscussionEngine] that the scheduler uses, in
    an engine on which [initialize_discussion] has run to its end (so that
    [medical_context] and [shared_discussion_history] exist);
    [user_participation] is [discussion_config["user_participation"]];
    [logger] collects the lines logged; [llm_requests] collects, in order,
    the requests that reached the language model. *)
Record Engine := mkEngine {
  interface : Interface;
  is_running : bool;
  current_round : nat;
  max_rounds : nat;
  skip_remaining_agents : bool;
  user_participation : bool;
  discussion_log : list Round;
  user_interventions : list InterventionRecord;
  medical_context : MedicalContext;
  agents : list (pystr * Agent);
  decision_agent : option DecisionMaker;
  shared_discussion_history : list Message;
  logger : list LogEvent;
  llm_requests : list LLMRequest
}.

Definition set_is_running (x : bool) (st : Engine) : Engine :=
  {| interface := interface st;
     is_running := x;
     current_round := current_round st;
     max_rounds := max_rounds st;
     skip_remaining_agents := skip_remaining_agents st;
     user_participation := user_participation st;
     discussion_log := discussion_log st;
     user_interventions := user_interventions st;
     medical_context := medical_context st;
     agents := agents st;
     decision_agent := decision_agent st;
     shared_discussion_history := shared_discussion_history st;
     logger := logger st;
     llm_requests := llm_requests st |}.

Definition set_current_round (x : nat) (st : Engine) : Engine :=
  {| interface := interface st;
     is_running := is_running st;
     current_round := x;
     max_rounds := max_rounds st;
     skip_remaining_agents := skip_remaining_agents st;
     user_participation := user_participation st;
     discussion_log := discussion_log st;
     user_interventions := user_interventions st;
     medical_context := medical_context st;
     agents := agents st;
     decision_agent := decision_agent st;
     shared_discussion_history := shared_discussion_history st;
     logger := logger st;
     llm_requests := llm_requests st |}.

Definition set_skip_remaining_agents (x : bool) (st : Engine) : Engine :=
  {| interface := interface st;
     is_running := is_running st;
     current_round := current_round st;
     max_rounds := max_rounds st;
     skip_remaining_agents := x;
     user_participation := user_participation st;
     discussion_log := discussion_log st;
     user_interventions := user_interventions st;
     medical_context := medical_context st;
     agents := agents st;
     decision_agent := decision_agent st;
     shared_discussion_history := shared_discussion_history st;
     logger := logger st;
     llm_requests := llm_requests st |}.

Definition set_discussion_log (x : list Round) (st : Engine) : Engine :=
  {| interface := interface st;
     is_running := is_running st;
     current_round := current_round st;
     max_rounds := max_rounds st;
     skip_remaining_agents := skip_remaining_agents st;
     user_participation := user_participation st;
     discussion_log := x;
     user_interventions := user_interventions st;
     medical_context := medical_context st;
     agents := agents st;
     decision_agent := decision_agent st;
     shared_discussion_history := shared_discussion_history st;
     logger := logger st;
     llm_requests := llm_requests st |}.

Definition set_user_interventions (x : list InterventionRecord) (st : Engine) : Engine :=
  {| interface := interface st;
     is_running := is_running st;
     current_round := current_round st;
     max_rounds := max_rounds st;
     skip_remaining_agents := skip_remaining_agents st;
     user_participation := user_participation st;
     discussion_log := discussion_log st;
     user_interventions := x;
     medical_context := medical_context st;
     agents := agents st;
     decision_agent := decision_agent st;
     shared_discussion_history := shared_discussion_history st;
     logger := logger st;
     llm_requests := llm_requests st |}.

Definition set_medical_context (x : MedicalContext) (st : Engine) : Engine :=
  {| interface := interface st;
     is_running := is_running st;
     current_round := current_round st;
     max_rounds := max_rounds st;
     skip_remaining_agents := skip_remaining_agents st;
     user_participation := user_participation st;
     discussion_log := discussion_log st;
     user_interventions := user_interventions st;
     medical_context := x;
     agents := agents st;
     decision_agent := decision_agent st;
     shared_discussion_history := shared_discussion_history st;
     logger := logger st;
     llm_requests := llm_requests st |}.

Definition set_agents (x : list (pystr * Agent)) (st : Engine) : Engine :=
  {| interface := interface st;
     is_running := is_running st;
     current_round := current_round st;
     max_rounds := max_rounds st;
     skip_remaining_agents := skip_remaining_agents st;
     user_participation := user_participation st;
     discussion_log := discussion_log st;
     user_interventions := user_interventions st;
     medical_context := medical_context st;
     agents := x;
     decision_agent := decision_agent st;
     shared_discussion_history := shared_discussion_history st;
     logger := logger st;
     llm_requests := llm_requests st |}.

Definition set_shared_discussion_history (x : list Message) (st : Engine) : Engine :=
  {| interface := interface st;
     is_running := is_running st;
     current_round := current_round st;
     max_rounds := max_rounds st;
     skip_remaining_agents := skip_remaining_agents st;
     user_participation := user_participation st;
     discussion_log := discussion_log st;
     user_interventions := user_interventions st;
     medical_context := medical_context st;
     agents := agents st;
     decision_agent := decision_agent st;
     shared_discussion_history := x;
     logger := logger st;
     llm_requests := llm_requests st |}.

Definition set_logger (x : list LogEvent) (st : Engine) : Engine :=
  {| interface := interface st;
     is_running := is_running st;
     current_round := current_round st;
     max_rounds := max_rounds st;
     skip_remaining_agents := skip_remaining_agents st;
     user_participation := user_participation st;
     discussion_log := discussion_log st;
     user_interventions := user_interventions st;
     medical_context := medical_context st;
     agents := agents st;
     decision_agent := decision_agent st;
     shared_discussion_history := shared_discussion_history st;
     logger := x;
     llm_requests := llm_requests st |}.

Definition set_llm_requests (x : list LLMRequest) (st : Engine) : Engine :=
  {| interface := interface st;
     is_running := is_running st;
     current_round := current_round st;
     max_rounds := max_rounds st;
     skip_remaining_agents := skip_remaining_agents st;
     user_participation := user_participation st;
     discussion_log := discussion_log st;
     user_interventions := user_interventions st;
     medical_context := medical_context st;
     agents := agents st;
     decision_agent := decision_agent st;
     shared_discussion_history := shared_discussion_history st;
     logger := logger st;
     llm_requests := x |}.

Definition log_event (e : LogEvent) (st : Engine) : Engine :=
  set_logger (logger st ++ [e]) st.

Definition add_requests (reqs : list LLMRequest) (st : Engine) : Engine :=
  set_llm_requests (llm_requests st ++ reqs) st.

(** [self.agents[name] = a] and a loop [for agent in self.agents.values()]
    that applies one method to each agent. *)
Definition put_agent (name : pystr) (a : Agent) (st : Engine) : Engine :=
  set_agents (dict_set name a (agents st)) st.

Definition each_agent (f : Agent -> Agent) (st : Engine) : Engine :=
  set_agents (List.map (fun kv => (fst kv, f (snd kv))) (agents st)) st.

(** *** The digest: [_get_current_discussion_context] *)

(** [text[:150] + "..." if len(text) > 150 else text]. *)
Definition shorten (text : pystr) : pystr :=
  if (150 <? length text)%nat then first_n 150 text ++ py "..." else text.

Definition round_header (t : RoundTag) : pystr :=
  match t with
  | NormalRound round_num => py "第" ++ str_of_nat (round_num + 1) ++ py "轮讨论:"
  | BroadcastRound _ _ => py "广播提问轮次:"
  | InterventionRound _ => py "用户介入轮次:"
  end.

(** The text looked up in an entry: its ["response"] in a broadcast round,
    the ["concise_analysis"] of its ["contribution"] otherwise; the empty
    text when the key is missing. *)
Definition entry_text (t : RoundTag) (c : Entry) : pystr :=
  match t with
  | BroadcastRound _ _ => default [] (response c)
  | _ =>
      match contribution c with
      | Some d => default [] (get_concise_analysis d)
      | None => []
      end
  end.

Definition entry_lines (t : RoundTag) (c : Entry) : list pystr :=
  let text := entry_text t c in
  if truthy text then [py "  " ++ agent c ++ py ": " ++ shorten text] else [].

Definition round_lines (r : Round) : list pystr :=
  round_header (tag r) :: flat_map (entry_lines (tag r)) (contributions r).

Definition context_text (discussion_log : list Round) : list pystr :=
  flat_map round_lines (last_n 3 discussion_log).

Definition no_history : Message :=
  mkMessage System (py "这是第一轮讨论，暂无历史记录").

Definition _get_current_discussion_context (discussion_log : list Round) : list Message :=
  match context_text discussion_log with
  | [] => [no_history]
  | lines => [mkMessage System (py "之前的讨论摘要:" ++ nl ++ join nl lines)]
  end.

(** *** Interventions *)

(** [_add_to_shared_history]. *)
Definition _add_to_shared_history (name text : pystr) (st : Engine) : Engine :=
  set_shared_discussion_history
    (shared_discussion_history st
     ++ [ mkMessage User (py "请" ++ name ++ py "专家发言");
          mkMessage Assistant (name ++ py ": " ++ text) ]) st.

(** [_update_medical_context]: the information joins
    [medical_context["additional_info"]] and every agent is told. *)
Definition _update_medical_context (new_information : pystr) (st : Engine) : Engine :=
  let mc := medical_context st in
  let st1 :=
    set_medical_context
      {| medical_record := medical_record mc;
         mc_question := mc_question mc;
         additional_info := additional_info mc ++ [new_information];
         status := status mc |} st in
  each_agent (update_context new_information) st1.

(** [self.interface.has_user_input(timeout=0.1)]: [CLIInterface] answers
    [False]; on [None] the attribute lookup raises. *)
Definition has_user_input (i : Interface) : Outcome bool :=
  match i with
  | CLIInterface => Returned false
  | NoInterface => Raised (py "'NoneType' object has no attribute 'has_user_input'")
  end.

(** [_check_user_intervention], the poll between two rounds. *)
Definition _check_user_intervention (st : Engine) : bool * Engine :=
  if negb (user_participation st) then (false, st)
  else
    match has_user_input (interface st) with
    | Returned b => (b, st)
    | Raised e => (false, log_event (LogDiscussionError e) st)
    end.

(** [_get_blocking_user_intervention], at the checkpoint after [name] in
    round [round_num]. *)
Definition _get_blocking_user_intervention (w : World) (round_num : nat) (name : pystr)
    (st : Engine) : option Intervention :=
  if negb (user_participation st) then None else operator w round_num name.

(** The loop of the [broadcast_question] branch: every agent answers in turn;
    [acc] is [broadcast_round["contributions"]].  An exception leaves the
    loop. *)
Fixpoint broadcast_loop (w : World) (round_num : nat) (after q : pystr)
    (names : list pystr) (acc : list Entry) (st : Engine)
    : Outcome (list Entry) * Engine :=
  match names with
  | [] => (Returned acc, st)
  | name :: rest =>
      match dict_get name (agents st) with
      | None => broadcast_loop w round_num after q rest acc st
      | Some a =>
          match respond_to_user_question w (AnswerCall round_num after name) q
                  (_get_current_discussion_context (discussion_log st))
                  (medical_record (medical_context st)) a with
          | (Raised e, reqs) => (Raised e, add_requests reqs st)
          | (Returned (AnswerOk response_text), reqs) =>
              let st1 := add_requests reqs st in
              let st2 :=
                _add_to_shared_history name
                  (py "对广播问题的回应: " ++ first_n 200 response_text ++ py "...") st1 in
              broadcast_loop w round_num after q rest
                (acc ++ [mkEntry name None None (Some response_text)]) st2
          | (Returned (AnswerFailed e), reqs) =>
              broadcast_loop w round_num after q rest
                (acc ++ [mkEntry name None (Some e) None]) (add_requests reqs st)
          end
      end
  end.

(** The last statements of [_handle_user_intervention]: the intervention is
    appended to [self.user_interventions] and [False] is returned. *)
Definition record_intervention (d : Intervention) (st : Engine) : bool * Engine :=
  (false,
   set_user_interventions
     (user_interventions st ++ [mkInterventionRecord (get_type d) d]) st).

(** [_handle_user_intervention(intervention_data)], called at the checkpoint
    after [after] in round [round_num].  The result is [True] when the
    current flow must be left.  An exception in a branch is caught and
    logged, and [False] is returned without recording the intervention; the
    branches [skip_round] and [interrupt] return before the recording. *)
Definition _handle_user_intervention (w : World) (round_num : nat) (after : pystr)
    (d : Intervention) (st : Engine) : bool * Engine :=
  let st := log_event (LogHandling (get_type d)) st in
  match d with
  | question_to_agent target q =>
      match (if truthy target && truthy q then dict_get target (agents st) else None) with
      | Some a =>
          match respond_to_user_question w (AnswerCall round_num after target) q
                  (_get_current_discussion_context (discussion_log st))
                  (medical_record (medical_context st)) a with
          | (Raised e, reqs) => (false, log_event (LogHandlingFailed e) (add_requests reqs st))
          | (Returned _, reqs) => record_intervention d (add_requests reqs st)
          end
      | None => record_intervention d st
      end
  | broadcast_question q =>
      if truthy q then
        let label := (length (discussion_log st) + 1)%nat in
        match broadcast_loop w round_num after q (keys (agents st)) [] st with
        | (Raised e, st1) => (false, log_event (LogHandlingFailed e) st1)
        | (Returned contribs, st1) =>
            let broadcast_round := mkRound (BroadcastRound label q) contribs in
            record_intervention d
              (set_discussion_log (discussion_log st1 ++ [broadcast_round]) st1)
        end
      else record_intervention d st
  | add_information information =>
      if truthy information then
        let st1 := _update_medical_context information st in
        let st2 := each_agent (update_context information) st1 in
        record_intervention d st2
      else record_intervention d st
  | skip_round => (true, set_skip_remaining_agents true st)
  | interrupt => (true, set_is_running false st)
  end.

(** [user_intervention.get('type') in ['interrupt', 'skip_round']]. *)
Definition leaves_round (d : Intervention) : bool :=
  match d with
  | skip_round | interrupt => true
  | _ => false
  end.

(** *** One round: [_execute_discussion_round] *)

Definition analysis_prompt (name : pystr) : pystr :=
  py "作为" ++ name ++ py "专家，请基于之前所有讨论内容进行深度分析...".

(** The body of the loop for one participant: the contributions and the
    engine afterwards, and whether the method returned from inside the loop. *)
Definition agent_turn (w : World) (round_num : nat) (current_history : list Message)
    (name : pystr) (a : Agent) (contribs : list Entry) (st : Engine)
    : list Entry * Engine * bool :=
  let a1 := set_shared_history current_history a in
  match analyze_clinical_case w (AnalysisCall round_num name)
          (medical_record (medical_context st)) current_history
          (analysis_prompt name) a1 with
  | (Raised e, a2, reqs) =>
      let st1 := add_requests reqs (put_agent name a2 st) in
      (contribs ++ [mkEntry name None (Some e) None],
       log_event (LogAgentFailed name e) st1, false)
  | (Returned result, a2, reqs) =>
      let st1 := add_requests reqs (put_agent name a2 st) in
      let contribs1 := contribs ++ [mkEntry name (Some result) None None] in
      let st2 :=
        _add_to_shared_history name
          (default (py "无分析结果") (get_concise_analysis result)) st1 in
      match _get_blocking_user_intervention w round_num name st2 with
      | Some user_intervention =>
          let '(leave, st3) :=
            _handle_user_intervention w round_num name user_intervention st2 in
          (contribs1, st3, leave && leaves_round user_intervention)
      | None => (contribs1, st2, false)
      end
  end.

(** [for agent_name, agent in self.agents.items()]: the keys are fixed during
    the loop and every agent is read from the engine when its turn comes. *)
Fixpoint agents_loop (w : World) (round_num : nat) (current_history : list Message)
    (names : list pystr) (contribs : list Entry) (st : Engine) : list Entry * Engine :=
  match names with
  | [] => (contribs, st)
  | name :: rest =>
      if skip_remaining_agents st then (contribs, log_event (LogSkipRemaining name) st)
      else
        match dict_get name (agents st) with
        | None => agents_loop w round_num current_history rest contribs st
        | Some a =>
            match agent_turn w round_num current_history name a contribs st with
            | (contribs1, st1, true) => (contribs1, st1)
            | (contribs1, st1, false) =>
                agents_loop w round_num current_history rest contribs1 st1
            end
        end
  end.

Definition _execute_discussion_round (w : World) (round_num : nat) (st : Engine)
    : Round * Engine :=
  let st1 := set_skip_remaining_agents false st in
  let current_history := _get_current_discussion_context (discussion_log st1) in
  let '(contribs, st2) :=
    agents_loop w round_num current_history (keys (agents st1)) [] st1 in
  (mkRound (NormalRound round_num) contribs, st2).

(** *** The final summary *)

(** [_generate_backup_summary]: every entry that has a ["contribution"], with
    its analysis (empty when missing), concatenated locally. *)
Definition backup_contributions (discussion_log : list Round) : list (pystr * pystr) :=
  flat_map (fun round_log =>
    flat_map (fun c =>
      match contribution c with
      | Some d => [(agent c, default [] (get_concise_analysis d))]
      | None => []
      end) (contributions round_log)) discussion_log.

Definition backup_text (all_contributions : list (pystr * pystr)) : pystr :=
  py "多专科讨论汇总：" ++ nl
  ++ flat_map (fun contrib => fst contrib ++ py ": " ++ snd contrib ++ nl) all_contributions.

(** The dictionary returned by [_generate_final_summary]: the full summary
    with the decision under ["discussion_summary"], or the backup summary
    with its text under ["summary"].  The quality scores and the duration are
    left out. *)
Inductive FinalSummary :=
  | FullSummary (discussion_summary : Decision)
  | BackupSummary (summary : pystr) (all_contributions : list (pystr * pystr))
                  (total_rounds total_contributions : nat).

Definition _generate_backup_summary (st : Engine) : FinalSummary * Engine :=
  let all_contributions := backup_contributions (discussion_log st) in
  (BackupSummary (backup_text all_contributions) all_contributions
     (current_round st) (length all_contributions),
   log_event LogBackupSummary st).

Definition _generate_final_summary (w : World) (st : Engine) : FinalSummary * Engine :=
  let st := log_event LogFinalSummary st in
  match decision_agent st with
  | None => _generate_backup_summary st
  | Some a =>
      let '(final_decision, reqs) :=
        make_final_decision w (discussion_log st) (medical_context st) a in
      (FullSummary final_decision, add_requests reqs st)
  end.

(** *** [start_discussion] *)

(** [final_summary.get("discussion_summary", final_summary.get("summary", {}))]. *)
Inductive ClinicalSummary :=
  | SummaryDecision (d : Decision)
  | SummaryText (t : pystr).

Definition get_clinical_summary (s : FinalSummary) : ClinicalSummary :=
  match s with
  | FullSummary d => SummaryDecision d
  | BackupSummary t _ _ _ => SummaryText t
  end.

(** The dictionary [complete_result] (identifiers, time stamps, lengths and
    scores left out).  ["user_additional_info"] is read from a key of
    [medical_context] that nothing writes, so it is the empty text. *)
Record CompleteResult := mkCompleteResult {
  rounds_completed : nat;
  result_medical_record : pystr;
  result_question : pystr;
  user_additional_info : pystr;
  result_discussion_log : list Round;
  result_user_interventions : list InterventionRecord;
  clinical_summary : ClinicalSummary
}.

(** What [start_discussion] returns: [complete_result], the result of
    [_create_interrupted_result] (status ["interrupted"] and
    [rounds_completed]) or that of [_create_error_result] (status ["error"]
    and the message). *)
Inductive Result :=
  | Completed (r : CompleteResult)
  | Interrupted (rounds_done : nat)
  | Errored (e : pystr).

(** [result["metadata"].get("status")]: [complete_result] has no such key. *)
Definition metadata_status (r : Result) : option pystr :=
  match r with
  | Completed _ => None
  | Interrupted _ => Some (py "interrupted")
  | Errored _ => Some (py "error")
  end.

(** [str(e)] of the [TypeError] raised by the call
    [self._handle_user_intervention()] of [start_discussion], which passes no
    argument. *)
Definition missing_argument : pystr :=
  py "ClinicalDiscussionEngine._handle_user_intervention() missing 1 required positional argument: 'intervention_data'".

(** The loop [for round_num in range(1, self.max_rounds + 1)]; [Raised] when
    an exception escapes from its body. *)
Fixpoint rounds_loop (w : World) (round_nums : list nat) (st : Engine)
    : Outcome unit * Engine :=
  match round_nums with
  | [] => (Returned tt, st)
  | round_num :: rest =>
      let st := set_current_round round_num st in
      if negb (is_running st) then (Returned tt, st)
      else
        let '(round_result, st1) := _execute_discussion_round w round_num st in
        let st2 := set_discussion_log (discussion_log st1 ++ [round_result]) st1 in
        match _check_user_intervention st2 with
        | (true, st3) => (Raised missing_argument, st3)
        | (false, st3) => rounds_loop w rest st3
        end
  end.

Definition set_status (s : pystr) (mc : MedicalContext) : MedicalContext :=
  {| medical_record := medical_record mc;
     mc_question := mc_question mc;
     additional_info := additional_info mc;
     status := Some s |}.

Definition start_discussion (w : World) (st : Engine) : Result * Engine :=
  let st := set_current_round 0 (set_is_running true st) in
  match rounds_loop w (seq 1 (max_rounds st)) st with
  | (Raised e, st1) =>
      (Errored e, set_is_running false (log_event (LogDiscussionError e) st1))
  | (Returned _, st1) =>
      if is_running st1 then
        let '(final_summary, st2) := _generate_final_summary w st1 in
        let st3 := set_medical_context (set_status (py "completed") (medical_context st2)) st2 in
        (Completed
           {| rounds_completed := current_round st3;
              result_medical_record := medical_record (medical_context st3);
              result_question := mc_question (medical_context st3);
              user_additional_info := [];
              result_discussion_log := discussion_log st3;
              result_user_interventions := user_interventions st3;
              clinical_summary := get_clinical_summary final_summary |},
         set_is_running false st3)
      else (Interrupted (current_round st1), set_is_running false st1)
  end.

(** How the callers read a result:
    [result.get("discussion_process", {}).get("discussion_log", [])] and
    likewise for ["user_interventions"]. *)
Definition get_discussion_log (r : Result) : list Round :=
  match r with
  | Completed c => result_discussion_log c
  | _ => []
  end.

Definition get_user_interventions (r : Result) : list InterventionRecord :=
  match r with
  | Completed c => result_user_interventions c
  | _ => []
  end.

End Engine.

(** ** The payloads of a session ([auth/session_handler.py], continued) *)

Module SessionStore.
Import Session.

(** The dictionaries [custom_agents] and [discussion_data] of a session, in
    insertion order: [d.get(k)], [d[k] = v], [del d[k]] and
    [d.update(other)]. *)
Fixpoint payload_get (k : string) (d : list (string * string)) : option string :=
  match d with
  | [] => None
  | (k', v) :: d' => if String.eqb k k' then Some v else payload_get k d'
  end.

Fixpoint payload_set (k v : string) (d : list (string * string)) : list (string * string) :=
  match d with
  | [] => [(k, v)]
  | (k', v') :: d' =>
      if String.eqb k k' then (k', v) :: d' else (k', v') :: payload_set k v d'
  end.

Fixpoint payload_del (k : string) (d : list (string * string)) : list (string * string) :=
  match d with
  | [] => []
  | (k', v') :: d' => if String.eqb k k' then d' else (k', v') :: payload_del k d'
  end.

Definition payload_update (d other : list (string * string)) : list (string * string) :=
  fold_left (fun acc kv => payload_set (fst kv) (snd kv) acc) other d.

Definition set_custom_agents (x : list (string * string)) (d : SessionData) : SessionData :=
  {| session_id := session_id d;
     user_id := user_id d;
     created_at := created_at d;
     last_activity := last_activity d;
     custom_agents := x;
     discussion_data := discussion_data d;
     user_preferences := user_preferences d |}.

Definition set_discussion_data (x : list (string * string)) (d : SessionData) : SessionData :=
  {| session_id := session_id d;
     user_id := user_id d;
     created_at := created_at d;
     last_activity := last_activity d;
     custom_agents := custom_agents d;
     discussion_data := x;
     user_preferences := user_preferences d |}.

(** The object that [validate_session] returns is the one held by the map:
    a change made to it afterwards is a change of the stored session. *)
Definition store (sid : string) (d : SessionData) (h : SessionHandler) : SessionHandler :=
  {| session_timeout := session_timeout h;
     active_sessions := <[sid := d]> (active_sessions h) |}.

(** The accessors below all start with
    [is_valid, session_data = self.validate_session(session_id)]: the
    session is looked up, dropped when it has expired and refreshed
    otherwise. *)
Definition validated (now : datetime) (sid : string) (h : SessionHandler)
    : option SessionData * SessionHandler :=
  match validate_session now sid h with
  | ((true, Some session_data), h1) => (Some session_data, h1)
  | (_, h1) => (None, h1)
  end.

(** [add_custom_agent]: [entry] is the dictionary stored under the name (the
    configuration, the creation time and a usage count of 0), an opaque
    payload like every value of these dictionaries. *)
Definition add_custom_agent (now : datetime) (sid agent_name entry : string)
    (h : SessionHandler) : bool * SessionHandler :=
  match validated now sid h with
  | (None, h1) => (false, h1)
  | (Some session_data, h1) =>
      (true,
       store sid
         (set_custom_agents (payload_set agent_name entry (custom_agents session_data))
            session_data) h1)
  end.

(** [get_custom_agents]. *)
Definition get_custom_agents (now : datetime) (sid : string) (h : SessionHandler)
    : list (string * string) * SessionHandler :=
  match validated now sid h with
  | (None, h1) => ([], h1)
  | (Some session_data, h1) => (custom_agents session_data, h1)
  end.

(** [remove_custom_agent]. *)
Definition remove_custom_agent (now : datetime) (sid agent_name : string)
    (h : SessionHandler) : bool * SessionHandler :=
  match validated now sid h with
  | (None, h1) => (false, h1)
  | (Some session_data, h1) =>
      match payload_get agent_name (custom_agents session_data) with
      | Some _ =>
          (true,
           store sid
             (set_custom_agents (payload_del agent_name (custom_agents session_data))
                session_data) h1)
      | None => (false, h1)
      end
  end.

(** [update_discussion_data]. *)
Definition update_discussion_data (now : datetime) (sid : string)
    (new_data : list (string * string)) (h : SessionHandler) : bool * SessionHandler :=
  match validated now sid h with
  | (None, h1) => (false, h1)
  | (Some session_data, h1) =>
      (true,
       store sid
         (set_discussion_data (payload_update (discussion_data session_data) new_data)
            session_data) h1)
  end.

(** [get_discussion_data]. *)
Definition get_discussion_data (now : datetime) (sid : string) (h : SessionHandler)
    : list (string * string) * SessionHandler :=
  match validated now sid h with
  | (None, h1) => ([], h1)
  | (Some session_data, h1) => (discussion_data session_data, h1)
  end.

(** [clear_discussion_data]. *)
Definition clear_discussion_data (now : datetime) (sid : string) (h : SessionHandler)
    : bool * SessionHandler :=
  match validated now sid h with
  | (None, h1) => (false, h1)
  | (Some session_data, h1) => (true, store sid (set_discussion_data [] session_data) h1)
  end.

(** [get_user_sessions]: the identifiers of the sessions of a user.  Python
    lists them in the order of their creation; the map here keeps no such
    order, so the list is meant up to its order. *)
Definition get_user_sessions (uid : string) (h : SessionHandler) : list string :=
  List.map fst
    (List.filter (fun kv => String.eqb (user_id (snd kv)) uid)
       (map_to_list (active_sessions h))).

End SessionStore.

(** ** Requests to the model: [AgentHelper.invoke] ([agents/base_agent.py]) *)

Module Helper.
Import Text Engine.

(** What one call of [self.client.chat.completions.create] followed by the
    reading of [response.choices[0].message.content] does: it yields the
    content of the message, which may be [None], or an exception is raised
    ([fault] is its [str]). *)
Inductive Attempt :=
  | Content (content : option pystr)
  | Fault (fault : pystr).

(** The body of the [try]: an empty or missing content raises
    [ValueError("Empty response from model")]. *)
Definition attempt_outcome (a : Attempt) : Outcome pystr :=
  match a with
  | Content (Some content) =>
      if truthy content then Returned content
      else Raised (py "Empty response from model")
  | Content None => Raised (py "Empty response from model")
  | Fault e => Raised e
  end.

Definition max_retries : nat := 3.
Definition retry_delay : nat := 10.

(** What [invoke] leaves behind: the warnings logged, each with the number
    of its attempt and the error, and the seconds slept. *)
Record Trace := mkTrace {
  warnings : list (nat * pystr);
  slept : nat
}.

(** The loop [for attempt in range(max_retries)]; [client attempt] is what
    the attempt of that number meets. *)
Fixpoint attempts_loop (client : nat -> Attempt) (attempts : list nat) (tr : Trace)
    : Outcome pystr * Trace :=
  match attempts with
  | [] => (Raised (py "无法获取模型响应"), tr)
  | attempt :: rest =>
      match attempt_outcome (client attempt) with
      | Returned content => (Returned content, tr)
      | Raised e =>
          let tr1 := mkTrace (warnings tr ++ [((attempt + 1)%nat, e)]) (slept tr) in
          if (attempt <? max_retries - 1)%nat
          then attempts_loop client rest
                 (mkTrace (warnings tr1) (slept tr1 + retry_delay)%nat)
          else (Raised (py "API调用失败: " ++ e), tr1)
      end
  end.

(** [invoke]. *)
Definition invoke (client : nat -> Attempt) : Outcome pystr * Trace :=
  attempts_loop client (seq 0 max_retries) (mkTrace [] 0).

(** What a caller of [invoke] meets, in the terms of the engine's model. *)
Definition llm_result (client : nat -> Attempt) : LLMResult :=
  match fst (invoke client) with
  | Returned content => Reply content
  | Raised e => Failure e
  end.

End Helper.

(** ** More of [BaseAgent] ([agents/base_agent.py]) *)

Module AgentMemory.
Import Text Engine.

(** [get_current_messages]: the messages without the leading system
    message. *)
Definition get_current_messages (a : Agent) : list Message :=
  match messages a with
  | m :: rest =>
      match role m with
      | System => rest
      | _ => messages a
      end
  | [] => messages a
  end.

(** [add_to_shared_history(role, content)], for the roles of a chat. *)
Definition add_to_shared_history (r : Role) (text : pystr) (a : Agent) : Agent :=
  set_messages (messages a ++ [mkMessage r text]) a.

(** [type_descriptions.get(information_type, "补充信息")]. *)
Definition type_description (information_type : pystr) : pystr :=
  if str_eqb information_type (py "general") then py "补充信息"
  else if str_eqb information_type (py "lab_result") then py "实验室检查结果"
  else if str_eqb information_type (py "imaging") then py "影像学检查结果"
  else if str_eqb information_type (py "vital_signs") then py "生命体征"
  else if str_eqb information_type (py "treatment_response") then py "治疗反应"
  else py "补充信息".

(** [update_context(new_information, information_type)]. *)
Definition update_context_as (new_information information_type : pystr) (a : Agent)
    : Agent :=
  let description := type_description information_type in
  let update_message :=
    py "用户提供了新的" ++ description ++ py "：" ++ new_information ++ nl ++ nl
    ++ py "请基于这个新信息重新评估您之前的分析。" in
  set_messages (messages a ++ [mkMessage User update_message]) a.

(** [update_focus]. *)
Definition update_focus (new_focus : pystr) (a : Agent) : Agent :=
  let focus_message :=
    py "讨论焦点已更新为：" ++ new_focus ++ nl ++ nl
    ++ py "请基于这个新的讨论焦点调整您的分析方向。" in
  set_messages (messages a ++ [mkMessage System focus_message]) a.

(** The methods of [BaseAgent] and [SpecialtyAgent] that write
    [self.messages], as calls that may follow one another on an agent. *)
Inductive Call :=
  | call_set_shared_history (shared_messages : list Message)
  | call_add_to_shared_history (r : Role) (text : pystr)
  | call_update_context (new_information information_type : pystr)
  | call_update_focus (new_focus : pystr)
  | call_chat (w : World) (id : CallId) (message : pystr)
  | call_analyze_clinical_case (w : World) (id : CallId) (medical_text : pystr)
      (discussion_history : list Message) (specific_prompt : pystr).

Definition perform_call (a : Agent) (c : Call) : Agent :=
  match c with
  | call_set_shared_history shared_messages => set_shared_history shared_messages a
  | call_add_to_shared_history r text => add_to_shared_history r text a
  | call_update_context new_information information_type =>
      update_context_as new_information information_type a
  | call_update_focus new_focus => update_focus new_focus a
  | call_chat w id message => snd (fst (chat w id message a))
  | call_analyze_clinical_case w id medical_text discussion_history specific_prompt =>
      snd (fst (analyze_clinical_case w id medical_text discussion_history
                  specific_prompt a))
  end.

(** The agent as [BaseAgent.__init__] leaves it. *)
Definition new_agent (cls : AgentClass) (name sp instruction : pystr) : Agent :=
  mkAgent cls name sp instruction [mkMessage System instruction].

(** *** The helpers at the end of the file *)

(** [check_answer_same]: [len(set(ans_list)) == 1]. *)
Definition check_answer_same (ans_list : list pystr) : bool :=
  (length (remove_dups ans_list) =? 1)%nat.

(** [find_answer(text, options)] and the default value of [options]. *)
Fixpoint find_answer (text : pystr) (options : list pystr) : pystr :=
  match options with
  | [] => []
  | opt :: rest => if occurs opt text then opt else find_answer text rest
  end.

Definition default_options : list pystr := [py "A"; py "B"; py "C"; py "D"; py "E"].

End AgentMemory.

(** ** The operator at the console ([discussion/discussion_engine.py]) *)

Module Console.
Import Text Engine.

(** [s.strip()]. *)
Fixpoint lstrip (s : pystr) : pystr :=
  match s with
  | c :: s' => if is_space c then lstrip s' else s
  | [] => []
  end.

Definition rstrip (s : pystr) : pystr := rev (lstrip (rev s)).

Definition strip (s : pystr) : pystr := rstrip (lstrip s).

(** [x in l] on a list of texts and [l[i]]. *)
Definition member (x : pystr) (l : list pystr) : bool := existsb (str_eqb x) l.

(** The console is the list of the lines still to come: [input()] takes the
    first one and raises [EOFError] when there is none; what is printed is
    not modelled. *)
Definition input (console : list pystr) : option pystr * list pystr :=
  match console with
  | line :: rest => (Some line, rest)
  | [] => (None, [])
  end.

Section Dialogue.

(** [str.isdigit] and [int] are kept as they are in Python: [isdigit] is the
    test, and [int s] the number that [int(s)] gives for a text that passes
    it, or [None] when it raises [ValueError]. *)
Variable isdigit : pystr -> bool.
Variable int : pystr -> option nat.

(** The choice of the target in the branch [question_to_agent]; [None] when
    [int] raises. *)
Definition choose_target (agents : list pystr) (current_agent : option pystr)
    (agent_choice : pystr) : option (option pystr) :=
  let by_name :=
    if member agent_choice agents then Some agent_choice
    else
      match agents with
      | [] => None
      | first :: _ =>
          match current_agent with
          | Some c => if truthy c then Some c else Some first
          | None => Some first
          end
      end in
  if isdigit agent_choice then
    match int agent_choice with
    | None => None
    | Some n =>
        if ((1 <=? n) && (n <=? length agents))%nat
        then Some (nth_error agents (n - 1))
        else Some by_name
    end
  else Some by_name.

(** [_get_intervention_details(choice, current_agent)]: the dictionary
    returned, [None] included, and the console afterwards.  An exception
    raised inside, the end of the input among them, is caught and [None] is
    returned. *)
Definition _get_intervention_details (agents : list pystr) (choice : pystr)
    (current_agent : option pystr) (console : list pystr)
    : option Intervention * list pystr :=
  if str_eqb choice (py "1") then
    match input console with
    | (None, console1) => (None, console1)
    | (Some line, console1) =>
        match choose_target agents current_agent (strip line) with
        | None => (None, console1)
        | Some None => (None, console1)
        | Some (Some target_agent) =>
            if negb (truthy target_agent) then (None, console1)
            else
              match input console1 with
              | (None, console2) => (None, console2)
              | (Some line2, console2) =>
                  let question := strip line2 in
                  if negb (truthy question) then (None, console2)
                  else (Some (question_to_agent target_agent question), console2)
              end
        end
    end
  else if str_eqb choice (py "2") then
    match input console with
    | (None, console1) => (None, console1)
    | (Some line, console1) =>
        let question := strip line in
        if negb (truthy question) then (None, console1)
        else (Some (broadcast_question question), console1)
    end
  else if str_eqb choice (py "3") then
    match input console with
    | (None, console1) => (None, console1)
    | (Some line, console1) =>
        let information := strip line in
        if negb (truthy information) then (None, console1)
        else (Some (add_information information), console1)
    end
  else if str_eqb choice (py "4") then (Some skip_round, console)
  else if str_eqb choice (py "5") then (Some interrupt, console)
  else (None, console).

(** The loop [while True] of [_get_blocking_user_intervention]: a line that
    is neither empty nor one of the five choices is asked again. *)
Fixpoint ask (agents : list pystr) (current_agent : option pystr) (console : list pystr)
    : option Intervention * list pystr :=
  match console with
  | [] => (None, [])
  | line :: rest =>
      let choice := strip line in
      if negb (truthy choice) then (None, rest)
      else if member choice [py "1"; py "2"; py "3"; py "4"; py "5"]
      then _get_intervention_details agents choice current_agent rest
      else ask agents current_agent rest
  end.

(** [_get_blocking_user_intervention(current_agent)]. *)
Definition _get_blocking_user_intervention (st : Engine) (current_agent : option pystr)
    (console : list pystr) : option Intervention * list pystr :=
  if negb (user_participation st) then (None, console)
  else ask (keys (agents st)) current_agent console.

End Dialogue.

End Console.

(** ** The assessment and the status of a discussion *)

From Stdlib Require QArith.

Module Assessment.
Import Text Engine.

(** The keys of the dictionaries returned by [analyze_clinical_case]. *)
Definition analysis_keys (d : Analysis) : list pystr :=
  match d with
  | AnalysisOk _ _ _ =>
      [py "success"; py "specialty"; py "concise_analysis"; py "word_count";
       py "timestamp"]
  | AnalysisFailed _ _ => [py "success"; py "error"; py "specialty"]
  end.

(** The text held under a key of such a dictionary, for its keys that hold
    text. *)
Definition analysis_text (k : pystr) (d : Analysis) : option pystr :=
  match d with
  | AnalysisOk sp text _ =>
      if str_eqb k (py "specialty") then Some sp
      else if str_eqb k (py "concise_analysis") then Some text
      else None
  | AnalysisFailed e sp =>
      if str_eqb k (py "error") then Some e
      else if str_eqb k (py "specialty") then Some sp
      else None
  end.

(** [len(set(l))]. *)
Definition count_distinct (l : list pystr) : nat := length (remove_dups l).

(** [_score_diagnosis_completeness]: the number, at most 10, of the distinct
    values found under ["diagnosis"] in the contributions. *)
Definition _score_diagnosis_completeness (discussion_log : list Round) : Z :=
  let diagnoses_mentioned :=
    flat_map (fun round_log =>
      flat_map (fun cont =>
        match contribution cont with
        | Some d =>
            if existsb (str_eqb (py "diagnosis")) (analysis_keys d)
            then [default [] (analysis_text (py "diagnosis") d)]
            else []
        | None => []
        end) (contributions round_log)) discussion_log in
  Z.min 10 (Z.of_nat (count_distinct diagnoses_mentioned)).

Definition _score_treatment_rationality : Z := 8.

Definition _score_integration_quality : Z := 7.

(** An element of a round's ["logic_reports"] and [round.get("logic_reports",
    [])]: a normal round is created with the empty list, which nothing
    extends, and the other rounds have no such key. *)
Record LogicReport := mkLogicReport { has_issues : bool }.

Definition logic_reports (round_log : Round) : list LogicReport := [].

(** The dictionary [quality_scores]; the overall score is the quotient of
    the sum by the number of scores (a float in Python, the exact quotient
    here). *)
Record QualityScores := mkQualityScores {
  diagnosis_completeness : Z;
  treatment_rationality : Z;
  integration_quality : Z;
  discussion_depth : Z;
  perspective_diversity : Z;
  logic_consistency : Z;
  overall_score : QArith_base.Q
}.

(** The exception that the body of the [try] can raise: the division by
    [len(self.agents)]. *)
Inductive AssessmentError := ZeroDivisionError.

(** What [_assess_discussion_quality] returns: the scores, or, when an
    exception was raised, the dictionary with an overall score of 0 and the
    error (the exception here, its [str] in Python). *)
Inductive QualityAssessment :=
  | Scores (quality_scores : QualityScores)
  | AssessmentFailed (e : AssessmentError).

(** [_assess_discussion_quality]. *)
Definition _assess_discussion_quality (st : Engine) : QualityAssessment :=
  let total_contributions :=
    list_sum (List.map (fun round_log => length (contributions round_log))
                (discussion_log st)) in
  let unique_perspectives :=
    count_distinct
      (flat_map (fun round_log => List.map agent (contributions round_log))
         (discussion_log st)) in
  let logic_issues :=
    length (List.filter has_issues (flat_map logic_reports (discussion_log st))) in
  let diagnosis := _score_diagnosis_completeness (discussion_log st) in
  match length (agents st) with
  | O => AssessmentFailed ZeroDivisionError
  | S _ =>
      let depth := Z.min 10 (Z.of_nat total_contributions / Z.of_nat (length (agents st))) in
      let diversity := Z.min 10 (Z.of_nat unique_perspectives * 2) in
      let logic := Z.max 0 (10 - Z.of_nat logic_issues) in
      let total :=
        diagnosis + _score_treatment_rationality + _score_integration_quality
        + depth + diversity + logic in
      Scores
        {| diagnosis_completeness := diagnosis;
           treatment_rationality := _score_treatment_rationality;
           integration_quality := _score_integration_quality;
           discussion_depth := depth;
           perspective_diversity := diversity;
           logic_consistency := logic;
           overall_score := QArith_base.Qmake total 6 |}
  end.

(** [get_discussion_status]. *)
Record DiscussionStatus := mkDiscussionStatus {
  status_is_running : bool;
  status_current_round : nat;
  status_max_rounds : nat;
  active_agents : list pystr;
  total_interventions : nat
}.

Definition get_discussion_status (st : Engine) : DiscussionStatus :=
  {| status_is_running := is_running st;
     status_current_round := current_round st;
     status_max_rounds := max_rounds st;
     active_agents := keys (agents st);
     total_interventions := length (user_interventions st) |}.

End Assessment.

(** * Vocabulary of the statements *)

(** ** Sessions *)

(** The inactivity of a session at time [now] and the timeout, both in
    microseconds. *)
Definition inactivity (now : Session.datetime) (d : Session.SessionData) : Z :=
  now - Session.last_activity d.

Definition timeout_us (h : Session.SessionHandler) : Z :=
  Session.session_timeout h * 1000000.

(** The timeouts for which the test on the integers is the test of the code.
    Python compares the float [total_seconds()] with the timeout; below
    [2^33] seconds a double tells an inactivity of the timeout and one
    microsecond from the timeout itself, so that the comparison of the floats
    and the comparison of the microseconds agree for every inactivity. *)
Definition float_exact (h : Session.SessionHandler) : Prop :=
  Z.abs (Session.session_timeout h) < 2 ^ 33.

(** Whether [validate_session] accepts, and the handler it leaves. *)
Definition accepts (now : Session.datetime) (sid : string) (h : Session.SessionHandler) : bool :=
  fst (fst (Session.validate_session now sid h)).

Definition after_validate (now : Session.datetime) (sid : string) (h : Session.SessionHandler)
    : Session.SessionHandler :=
  snd (Session.validate_session now sid h).

(** The operations of the handler, as a caller or the cleanup thread may
    issue them one after the other. *)
Inductive Operation :=
  | Create (sid : string) (now : Session.datetime) (uid : string)
           (prefs : list (string * string))
  | Validate (now : Session.datetime) (sid : string)
  | Update (now : Session.datetime) (sid : string)
  | Destroy (sid : string)
  | Cleanup (now : Session.datetime).

Definition perform (h : Session.SessionHandler) (o : Operation) : Session.SessionHandler :=
  match o with
  | Create sid now uid prefs => snd (Session.create_session sid now uid prefs h)
  | Validate now sid => snd (Session.validate_session now sid h)
  | Update now sid => snd (Session.update_session_activity now sid h)
  | Destroy sid => snd (Session.destroy_session sid h)
  | Cleanup now => Session._cleanup_expired_sessions now h
  end.

Definition creates (sid : string) (o : Operation) : Prop :=
  match o with
  | Create sid' _ _ _ => sid' = sid
  | _ => False
  end.

(** ** The engine *)

Import Text Engine.

(** What never changes in an agent: its class, name, specialty and system
    instruction; and the participants of an engine with these. *)
Definition static (a : Agent) : AgentClass * pystr * pystr * pystr :=
  (agent_class a, agent_name a, specialty a, system_instruction a).

Definition participants (d : list (pystr * Agent))
    : list (pystr * (AgentClass * pystr * pystr * pystr)) :=
  List.map (fun kv => (fst kv, static (snd kv))) d.

Definition roster (st : Engine) : list (pystr * (AgentClass * pystr * pystr * pystr)) :=
  participants (agents st).

(** The configuration of a discussion, which no step of it changes. *)
Definition setup (st : Engine) :=
  (interface st, max_rounds st, user_participation st, decision_agent st, roster st,
   medical_record (medical_context st), mc_question (medical_context st)).

(** The control flags that only [skip_round] and [interrupt] touch. *)
Definition control (st : Engine) := (is_running st, skip_remaining_agents st).

(** What [analyze_clinical_case] does for a participant of class [cls] and
    specialty [sp] at the request [id]. *)
Definition analysis_outcome (w : World) (id : CallId) (cls : AgentClass) (sp : pystr)
    : Outcome Analysis :=
  match cls with
  | CustomAgent => Raised (attribute_error (py "analyze_clinical_case"))
  | SpecialtyAgent =>
      match invoke w id with
      | Reply response =>
          Returned (AnalysisOk sp (_make_response_concise response)
                      (length (_make_response_concise response)))
      | Failure e => Returned (AnalysisFailed e sp)
      end
  end.

(** The entry that the turn of a participant leaves in the round. *)
Definition turn_entry (w : World) (round_num : nat)
    (p : pystr * (AgentClass * pystr * pystr * pystr)) : Entry :=
  let '(name, (cls, _, sp, _)) := p in
  match analysis_outcome w (AnalysisCall round_num name) cls sp with
  | Raised e => mkEntry name None (Some e) None
  | Returned d => mkEntry name (Some d) None None
  end.



(** The operator does not leave the round at any checkpoint of round
    [round_num] after a participant of [names].  A checkpoint follows only a
    participant that has returned a contribution, that is, a
    [SpecialtyAgent]. *)
Definition stays (w : World) (st : Engine) (round_num : nat) (names : list pystr) : Prop :=
  forall name d s,
    In name names ->
    dict_get name (roster st) = Some s ->
    fst (fst (fst s)) = SpecialtyAgent ->
    _get_blocking_user_intervention w round_num name st = Some d ->
    leaves_round d = false.

(** A request belongs to round [round_num] and, when it is an analysis, to a
    participant of [names]. *)
Definition request_of (round_num : nat) (names : list pystr) (q : LLMRequest) : Prop :=
  match call q with
  | AnalysisCall r name => r = round_num /\ In name names
  | AnswerCall r _ _ => r = round_num
  | DecisionCall => False
  end.

(** The types of the interventions whose handling was logged. *)
Definition handled (events : list LogEvent) : list InterventionType :=
  flat_map (fun e => match e with LogHandling t => [t] | _ => [] end) events.


(** ** The digest, as the statements read it *)







(** A round of the log is a broadcast round. *)
Definition is_broadcast (r : Round) : Prop :=
  match tag r with BroadcastRound _ _ => True | _ => False end.

(** A text occurs in a request. *)
Definition mentions (text : pystr) (q : LLMRequest) : bool :=
  match prompt q with
  | ChatPrompt ms => existsb (fun m => occurs text (content m)) ms
  | AnswerPrompt sys q' ctx record =>
      occurs text sys || occurs text q' || occurs text record
      || existsb (fun m => occurs text (content m)) ctx
  end.

(** Everything in the engine except the two fields that answering a question
    extends: the shared history and the requests. *)
Definition untouched_by_answers (st : Engine) :=
  (interface st, is_running st, current_round st, max_rounds st,
   skip_remaining_agents st, user_participation st, discussion_log st,
   user_interventions st, medical_context st, agents st, decision_agent st, logger st).

(** [st'] is reached from [st] inside round [round_num] by turns of
    participants of [names] and by interventions: the configuration, the
    round counter and the status are the same, the requests sent meanwhile
    belong to that round and to these participants, and the log has grown by
    broadcast rounds only. *)
Record evolves (round_num : nat) (names : list pystr) (st st' : Engine) : Prop := mkEvolves {
  ev_setup : setup st' = setup st;
  ev_round : current_round st' = current_round st;
  ev_status : status (medical_context st') = status (medical_context st);
  ev_requests : exists reqs, llm_requests st' = llm_requests st ++ reqs
                             /\ Forall (request_of round_num names) reqs;
  ev_log : exists bs, discussion_log st' = discussion_log st ++ bs /\ Forall is_broadcast bs
}.

(** The entries that the turns of [names] leave, for the participants
    [ros]. *)
Definition entries_for (w : World) (round_num : nat)
    (ros : list (pystr * (AgentClass * pystr * pystr * pystr))) (names : list pystr)
    : list Entry :=
  flat_map (fun name =>
              match dict_get name ros with
              | Some s => [turn_entry w round_num (name, s)]
              | None => []
              end) names.

Arguments turn_entry : simpl never.
Arguments entries_for : simpl never.
Arguments analysis_outcome : simpl never.

(** Everything in the engine except the logger. *)
Definition all_but_logger (st : Engine) :=
  (interface st, is_running st, current_round st, max_rounds st,
   skip_remaining_agents st, user_participation st, discussion_log st,
   user_interventions st, medical_context st, agents st, decision_agent st,
   shared_discussion_history st, llm_requests st).



(** *** The interventions of a discussion *)








(** ** A small discussion to run *)

(** Three specialists over one case, a decision agent, and a model that
    answers every request but those of [failing]. *)
Definition specialist (name : string) : pystr * Agent :=
  (py name,
   mkAgent SpecialtyAgent (py name) (py name) (py "You are a consultant.")
     [mkMessage System (py "You are a consultant.")]).


Definition decision_maker : DecisionMaker := mkDecisionMaker (py "You decide.").

Definition case_context : MedicalContext :=
  mkMedicalContext (py "Male, 58, chest pain for two hours.") (py "What is the plan?")
    [] None.

Definition board_of (participants : list (pystr * Agent)) (participation : bool)
    (rounds : nat) (decision : option DecisionMaker) : Engine :=
  mkEngine CLIInterface false 0 rounds false participation [] [] case_context
    participants decision [] [] [].

Definition board : bool -> nat -> option DecisionMaker -> Engine :=
  board_of [specialist "cardiology"; specialist "neurology"; specialist "radiology"].


Definition call_eqb (a b : CallId) : bool :=
  match a, b with
  | AnalysisCall r n, AnalysisCall r' n' => (r =? r')%nat && str_eqb n n'
  | AnswerCall r x n, AnswerCall r' x' n' => (r =? r')%nat && str_eqb x x' && str_eqb n n'
  | DecisionCall, DecisionCall => true
  | _, _ => false
  end.

Definition model (failing : list CallId) (id : CallId) : LLMResult :=
  if existsb (call_eqb id) failing then Failure (py "API调用失败: timeout")
  else
    match id with
    | AnalysisCall r n => Reply (py "Opinion of " ++ n ++ py " in round " ++ str_of_nat r)
    | AnswerCall _ _ n => Reply (py "Answer of " ++ n)
    | DecisionCall => Reply (py "Admit and monitor.")
    end.

(** The operator acts once, in round [r] at the checkpoint after [name]. *)
Definition acts_once (r : nat) (name : string) (d : Intervention)
    (round_num : nat) (after : pystr) : option Intervention :=
  if (round_num =? r)%nat && str_eqb after (py name) then Some d else None.

Definition silent_operator (round_num : nat) (after : pystr) : option Intervention := None.

Definition new_finding : pystr := py "Troponin is elevated.".

Definition today : pystr := py "2024年05月17日".

(** The operator terminates in round 1 after the second participant. *)
Definition terminating : World :=
  mkWorld (model []) (acts_once 1 "neurology" interrupt) today.

(** The operator skips the rest of round 1 after the first participant. *)
Definition skipping : World :=
  mkWorld (model []) (acts_once 1 "cardiology" skip_round) today.

(** The operator adds a finding at the last checkpoint of round 1. *)
Definition informing : World :=
  mkWorld (model []) (acts_once 1 "radiology" (add_information new_finding)) today.

(** Nobody intervenes; the requests of [failing] fail. *)
Definition unattended (failing : list CallId) : World :=
  mkWorld (model failing) silent_operator today.

(** Every agent of the engine has a message that contains the text. *)
Definition agents_know (text : pystr) (st : Engine) : bool :=
  forallb (fun kv => existsb (fun m => occurs text (content m)) (messages (snd kv)))
          (agents st).


(** A session store with one session, last active at time 0, and a timeout
    of one hour. *)
Definition one_session : Session.SessionHandler :=
  Session.mkSessionHandler 3600
    {[ "s1"%string :=
         Session.mkSessionData "s1" "alice" 0 0 [] [] [] ]}.



(** The numbers of the normal rounds of a log, in order. *)
Definition normal_rounds (l : list Round) : list nat :=
  flat_map (fun r => match tag r with NormalRound n => [n] | _ => [] end) l.

(** ** What the model can be asked *)

(** The system message at the head of an agent's messages, the only message
    that [set_shared_history] keeps. *)
Definition system_head (a : Agent) : option Message :=
  match messages a with
  | m :: _ => match role m with System => Some m | _ => None end
  | [] => None
  end.

(** What of an agent can reach a request. *)
Definition voice (a : Agent) := (static a, system_head a).

(** What of an engine the course of a discussion depends on: everything but
    the logger, the recorded interventions, the additional information of
    the medical context and the messages of the agents after their system
    message. *)
Definition view (st : Engine) :=
  (interface st, is_running st, current_round st, max_rounds st,
   skip_remaining_agents st, user_participation st, discussion_log st,
   decision_agent st, shared_discussion_history st, llm_requests st,
   (medical_record (medical_context st), mc_question (medical_context st),
    status (medical_context st)),
   List.map (fun kv => (fst kv, voice (snd kv))) (agents st)).

(** Two worlds with the same model and the same operator, except that where
    the operator of the first adds information the operator of the second
    may do nothing. *)
Definition same_but_information (w1 w2 : World) : Prop :=
  (forall id, invoke w1 id = invoke w2 id) /\
  current_date w1 = current_date w2 /\
  (forall r name,
     operator w1 r name = operator w2 r name \/
     exists info, operator w1 r name = Some (add_information info) /\
                  operator w2 r name = None).

(** What of a result does not depend on the recorded interventions. *)
Definition outcome_of (r : Result) :=
  match r with
  | Completed c =>
      (Some (result_medical_record c, result_question c, result_discussion_log c,
             clinical_summary c),
       rounds_completed c, None)
  | Interrupted n => (None, n, Some (py "interrupted"))
  | Errored e => (None, 0%nat, Some e)
  end.

(** ** More vocabulary *)

(** [st'] is [st] after some steps of a discussion: the configuration is the
    same, and the log, the recorded interventions, the requests sent, the
    shared history and the logger have only been added to. *)
Record extends (st st' : Engine) : Prop := mkExtends {
  ex_setup : setup st' = setup st;
  ex_log : exists new, discussion_log st' = discussion_log st ++ new;
  ex_interventions : exists recs, user_interventions st' = user_interventions st ++ recs;
  ex_requests : exists reqs, llm_requests st' = llm_requests st ++ reqs;
  ex_shared : exists ms,
      shared_discussion_history st' = shared_discussion_history st ++ ms;
  ex_logger : exists events, logger st' = logger st ++ events
}.

(** The part of [extends] that is about the recorded interventions, the shared
    history and the logger. *)
Definition appends (st st' : Engine) : Prop :=
  (exists recs, user_interventions st' = user_interventions st ++ recs) /\
  (exists ms, shared_discussion_history st' = shared_discussion_history st ++ ms) /\
  (exists events, logger st' = logger st ++ events).

(** The requests of the turn of a participant in a round: one analysis for a
    [SpecialtyAgent], none for a [CustomAgent]. *)
Definition turn_calls (round_num : nat)
    (p : pystr * (AgentClass * pystr * pystr * pystr)) : list CallId :=
  match fst (fst (fst (snd p))) with
  | SpecialtyAgent => [AnalysisCall round_num (fst p)]
  | CustomAgent => []
  end.

(** The requests of a discussion of [rounds] rounds in which nobody
    intervenes. *)
Definition scheduled_calls (rounds : nat) (st : Engine) : list CallId :=
  flat_map (fun r => flat_map (turn_calls r) (roster st)) (seq 1 rounds)
  ++ match decision_agent st with Some _ => [DecisionCall] | None => [] end.



(** ** The console *)

(** A text that does not start with a space character. *)
Definition head_is_no_space (s : pystr) : Prop :=
  match s with
  | [] => True
  | c :: _ => is_space c = false
  end.

(** A text that [strip] leaves as it is. *)
Definition stripped (s : pystr) : Prop := Console.strip s = s.

(** An intervention as the handler expects it: a question names a
    participant of the discussion and has a text, and the texts are stripped
    and not empty. *)
Definition well_formed (names : list pystr) (d : Intervention) : Prop :=
  match d with
  | question_to_agent target q =>
      In target names /\ target <> [] /\ q <> [] /\ stripped q
  | broadcast_question q => q <> [] /\ stripped q
  | add_information information => information <> [] /\ stripped information
  | skip_round | interrupt => True
  end.

(** A line that is neither empty nor one of the five choices. *)
Definition not_a_choice (line : pystr) : Prop :=
  Console.strip line <> [] /\
  Console.member (Console.strip line) [py "1"; py "2"; py "3"; py "4"; py "5"] = false.

(** ** Words *)

(** A word of [str.split()]: not empty and without a space character. *)
Definition is_word (word : pystr) : Prop :=
  word <> [] /\ forallb (fun c => negb (is_space c)) word = true.

(** A list of handled interventions that ends with the only [interrupt] it
    holds. *)
Definition interrupt_last (ts : list InterventionType) : Prop :=
  exists before, ts = before ++ [Tinterrupt] /\ ~ In Tinterrupt before.

(** Between [st] and [st'] the engine is still running and no [interrupt]
    was handled, or it has been stopped by the last intervention handled,
    an [interrupt]. *)
Definition halting (st st' : Engine) : Prop :=
  exists ts,
    handled (logger st') = handled (logger st) ++ ts /\
    if is_running st' then ~ In Tinterrupt ts else interrupt_last ts.

(** * Properties *)

(** ** The session store *)

Section SessionFacts.
Import Session.

Implicit Types (h : SessionHandler) (d : SessionData) (sid : string) (now : datetime).

Lemma timed_out_true now d h :
  timed_out now d h = true <-> timeout_us h < inactivity now d.
Proof. unfold timed_out, inactivity, timeout_us. apply Z.ltb_lt. Qed.

Lemma timed_out_false now d h :
  timed_out now d h = false <-> inactivity now d <= timeout_us h.
Proof. unfold timed_out, inactivity, timeout_us. apply Z.ltb_ge. Qed.

(** The three cases of [validate_session]. *)
Lemma validate_unknown now sid h :
  active_sessions h !! sid = None ->
  validate_session now sid h = ((false, None), h).
Proof. intros E. unfold validate_session. rewrite E. reflexivity. Qed.

Lemma validate_expired now sid h d :
  active_sessions h !! sid = Some d ->
  timeout_us h < inactivity now d ->
  validate_session now sid h =
    ((false, None),
     {| session_timeout := session_timeout h;
        active_sessions := delete sid (active_sessions h) |}).
Proof.
  intros E Hlt. unfold validate_session. rewrite E.
  apply timed_out_true in Hlt. rewrite Hlt. reflexivity.
Qed.

Lemma validate_live now sid h d :
  active_sessions h !! sid = Some d ->
  inactivity now d <= timeout_us h ->
  validate_session now sid h =
    ((true, Some (set_last_activity now d)),
     {| session_timeout := session_timeout h;
        active_sessions := <[sid := set_last_activity now d]> (active_sessions h) |}).
Proof.
  intros E Hle. unfold validate_session. rewrite E.
  apply timed_out_false in Hle. rewrite Hle. reflexivity.
Qed.

(** C5.  [validate_session] rejects exactly the unknown identifiers and the
    sessions whose inactivity strictly exceeds the timeout; an inactivity of
    the timeout less any [eps > 0] is accepted and one of the timeout plus
    [eps] is rejected; an accepted session is returned and stored with
    [last_activity = now], the other sessions are untouched, and from then on
    the lease is counted from [now].
    The timeout is one for which the comparison of the microseconds is
    that of the code ([float_exact]). *)
Theorem validate_session_sliding_expiration now sid h :
  float_exact h ->
  (accepts now sid h = false <->
     active_sessions h !! sid = None \/
     exists d, active_sessions h !! sid = Some d /\ timeout_us h < inactivity now d) /\
  (forall d eps, active_sessions h !! sid = Some d -> 0 < eps ->
     (inactivity now d = timeout_us h - eps -> accepts now sid h = true) /\
     (inactivity now d = timeout_us h + eps -> accepts now sid h = false)) /\
  (accepts now sid h = true ->
     exists d,
       active_sessions h !! sid = Some d /\
       snd (fst (validate_session now sid h)) = Some (set_last_activity now d) /\
       get_session_data sid (after_validate now sid h) = Some (set_last_activity now d) /\
       last_activity (set_last_activity now d) = now /\
       session_timeout (after_validate now sid h) = session_timeout h /\
       (forall sid', sid' <> sid ->
          get_session_data sid' (after_validate now sid h) = get_session_data sid' h) /\
       (forall now', accepts now' sid (after_validate now sid h) = true <->
                     now' - now <= timeout_us h)).
Proof.
  intros _. unfold accepts, after_validate.
  destruct (active_sessions h !! sid) as [d|] eqn:E.
  - destruct (Z_lt_le_dec (timeout_us h) (inactivity now d)) as [Hlt|Hle].
    + rewrite (validate_expired _ _ _ _ E Hlt). simpl.
      split; [split; [intros _; right; eauto | reflexivity] |].
      split; [| discriminate].
      intros d' eps [= <-] Heps. split; intros Heq; [lia | reflexivity].
    + rewrite (validate_live _ _ _ _ E Hle). simpl.
      split.
      { split; [discriminate |]. intros [[=] | (d' & [= <-] & Hlt)]. lia. }
      split.
      { intros d' eps [= <-] Heps. split; intros Heq; [reflexivity | lia]. }
      intros _. exists d. unfold get_session_data. simpl.
      rewrite lookup_insert_eq.
      repeat split; try reflexivity.
      * intros sid' Hne. apply lookup_insert_ne. congruence.
      * intros Hacc.
        destruct (Z_lt_le_dec (timeout_us h) (now' - now)) as [Hlt'|Hle']; [| exact Hle'].
        rewrite (validate_expired now' sid _ (set_last_activity now d)) in Hacc;
          [discriminate | apply lookup_insert_eq | exact Hlt'].
      * intros Hle'.
        rewrite (validate_live now' sid _ (set_last_activity now d));
          [reflexivity | apply lookup_insert_eq | exact Hle'].
  - rewrite (validate_unknown _ _ _ E). simpl.
    split; [split; [intros _; left; reflexivity | reflexivity] |].
    split; [intros d eps [=] | discriminate].
Qed.

(** No operation but a creation under the same identifier brings a
    session into the store. *)
Lemma perform_keeps_absent h o sid :
  active_sessions h !! sid = None -> ~ creates sid o ->
  active_sessions (perform h o) !! sid = None.
Proof.
  intros E Hc. destruct o as [sid' now uid prefs | now sid' | now sid' | sid' | now]; simpl.
  - simpl in Hc. rewrite lookup_insert_ne by exact Hc. exact E.
  - unfold validate_session.
    destruct (active_sessions h !! sid') as [d|] eqn:E'; [| exact E].
    assert (Hne : sid' <> sid) by congruence.
    destruct (timed_out now d h); simpl.
    + rewrite lookup_delete_ne by exact Hne. exact E.
    + rewrite lookup_insert_ne by exact Hne. exact E.
  - unfold update_session_activity.
    destruct (active_sessions h !! sid') as [d|] eqn:E'; [| exact E].
    simpl. rewrite lookup_insert_ne by congruence. exact E.
  - unfold destroy_session.
    destruct (active_sessions h !! sid') as [d|] eqn:E'; [| exact E].
    simpl. rewrite lookup_delete_ne by congruence. exact E.
  - apply map_lookup_filter_None. left. exact E.
Qed.

Lemma perform_all_keeps_absent ops :
  forall h sid,
    active_sessions h !! sid = None -> Forall (fun o => ~ creates sid o) ops ->
    active_sessions (fold_left perform ops h) !! sid = None.
Proof.
  induction ops as [|o ops IH]; intros h sid E F; simpl; [exact E |].
  apply List.Forall_cons_iff in F as [Ho F].
  apply IH; [apply perform_keeps_absent; assumption | exact F].
Qed.

(** C10.  Validating a session whose inactivity exceeds the timeout deletes
    it on the spot: afterwards [get_session_data] finds nothing and the other
    sessions are as they were; and after any further operations of the
    handler that do not create a session under this identifier (no sweep is
    needed, though sweeps may happen), [get_session_data] still finds nothing
    and [validate_session] rejects the identifier whatever the clock says.
    The timeout is one for which the comparison of the microseconds is
    that of the code ([float_exact]). *)
Theorem validate_session_expired_removes now sid h d :
  float_exact h ->
  active_sessions h !! sid = Some d ->
  timeout_us h < inactivity now d ->
  validate_session now sid h = ((false, None), after_validate now sid h) /\
  get_session_data sid (after_validate now sid h) = None /\
  (forall sid', sid' <> sid ->
     get_session_data sid' (after_validate now sid h) = get_session_data sid' h) /\
  (forall ops now',
     Forall (fun o => ~ creates sid o) ops ->
     let later := fold_left perform ops (after_validate now sid h) in
     get_session_data sid later = None /\
     validate_session now' sid later = ((false, None), later)).
Proof.
  intros _ E Hlt. unfold after_validate.
  rewrite (validate_expired _ _ _ _ E Hlt). simpl.
  assert (Hgone : delete sid (active_sessions h) !! sid = None) by apply lookup_delete_eq.
  split; [reflexivity |]. split; [exact Hgone |]. split.
  - intros sid' Hne. unfold get_session_data. simpl.
    apply lookup_delete_ne. congruence.
  - intros ops now' F.
    pose proof (perform_all_keeps_absent ops
                  {| session_timeout := session_timeout h;
                     active_sessions := delete sid (active_sessions h) |}
                  sid Hgone F) as Habs.
    split; [exact Habs | apply validate_unknown, Habs].
Qed.

End SessionFacts.

(** ** The digest *)

Section DigestFacts.
Import Text Engine.














End DigestFacts.

(** ** The engine: dictionaries and agents *)

Section EngineBasics.

Lemma str_eqb_refl (a : pystr) : str_eqb a a = true.
Proof. induction a as [|x a IH]; simpl; [reflexivity |]. rewrite N.eqb_refl. exact IH. Qed.

Lemma str_eqb_eq (a b : pystr) : str_eqb a b = true <-> a = b.
Proof.
  split; [| intros ->; apply str_eqb_refl].
  revert b. induction a as [|x a IH]; intros [|y b]; simpl; try discriminate; [reflexivity |].
  intros H. apply andb_true_iff in H as [Hx Hab].
  apply N.eqb_eq in Hx. f_equal; [exact Hx | apply IH, Hab].
Qed.

Lemma str_eqb_neq (a b : pystr) : a <> b -> str_eqb a b = false.
Proof.
  intros H. destruct (str_eqb a b) eqn:E; [| reflexivity].
  apply str_eqb_eq in E. contradiction.
Qed.

Lemma dict_get_map {V W} (f : V -> W) (k : pystr) (d : list (pystr * V)) :
  dict_get k (List.map (fun kv => (fst kv, f (snd kv))) d) = option_map f (dict_get k d).
Proof.
  induction d as [|[k' v] d IH]; simpl; [reflexivity |].
  destruct (str_eqb k k'); [reflexivity | exact IH].
Qed.

Lemma dict_get_in {V} (k : pystr) (d : list (pystr * V)) :
  In k (keys d) -> exists v, dict_get k d = Some v.
Proof.
  induction d as [|[k' v] d IH]; simpl; [contradiction |].
  intros [<- | Hin].
  - rewrite str_eqb_refl. eauto.
  - destruct (str_eqb k k'); eauto.
Qed.


(** Replacing the value of an existing key by one with the same image under
    [f] does not change the image of the dictionary. *)
Lemma dict_set_map {V W} (f : V -> W) (k : pystr) (v v' : V) (d : list (pystr * V)) :
  dict_get k d = Some v -> f v' = f v ->
  List.map (fun kv => (fst kv, f (snd kv))) (dict_set k v' d)
  = List.map (fun kv => (fst kv, f (snd kv))) d.
Proof.
  intros Hget Hf. induction d as [|[k' v0] d IH]; simpl in *; [discriminate |].
  destruct (str_eqb k k') eqn:E.
  - injection Hget as ->. simpl. rewrite Hf. reflexivity.
  - simpl. f_equal. apply IH, Hget.
Qed.

Lemma flat_map_agree {A B} (f g : A -> list B) (l : list A) :
  (forall x, In x l -> f x = g x) -> flat_map f l = flat_map g l.
Proof.
  induction l as [|x l IH]; simpl; intros H; [reflexivity |].
  rewrite (H x) by (left; reflexivity). f_equal. apply IH.
  intros y Hy. apply H. right. exact Hy.
Qed.

(** Over a dictionary without repeated keys, looking every key up again
    walks through the dictionary. *)
Lemma flat_map_keys {V W} (g : pystr * V -> W) (d : list (pystr * V)) :
  List.NoDup (keys d) ->
  flat_map (fun k => match dict_get k d with Some v => [g (k, v)] | None => [] end) (keys d)
  = List.map g d.
Proof.
  induction d as [|[k v] d IH]; simpl; [reflexivity |].
  intros Hnd. apply NoDup_cons_iff in Hnd as [Hk Hnd].
  rewrite str_eqb_refl. simpl. f_equal.
  rewrite <- (IH Hnd). apply flat_map_agree.
  intros k' Hin. rewrite str_eqb_neq; [reflexivity |].
  intros ->. contradiction.
Qed.

Lemma static_set_messages ms a : static (set_messages ms a) = static a.
Proof. reflexivity. Qed.

Lemma static_set_shared_history hist a : static (set_shared_history hist a) = static a.
Proof.
  unfold set_shared_history.
  destruct (messages a) as [|m ms]; [reflexivity |].
  destruct (role m); reflexivity.
Qed.

Lemma static_update_context info a : static (update_context info a) = static a.
Proof. reflexivity. Qed.

Lemma roster_keys st : List.map fst (roster st) = keys (agents st).
Proof. unfold roster, participants, keys. rewrite List.map_map. reflexivity. Qed.

Lemma roster_get st name :
  dict_get name (roster st) = option_map static (dict_get name (agents st)).
Proof. unfold roster, participants. apply dict_get_map. Qed.

Lemma roster_each_agent f st :
  (forall a, static (f a) = static a) -> roster (each_agent f st) = roster st.
Proof.
  intros Hf. unfold roster, participants, each_agent. simpl. rewrite List.map_map. simpl.
  apply List.map_ext. intros [k a]. simpl. rewrite Hf. reflexivity.
Qed.

Lemma roster_put_agent name a a' st :
  dict_get name (agents st) = Some a -> static a' = static a ->
  roster (put_agent name a' st) = roster st.
Proof.
  intros Hget Hs. unfold roster, participants, put_agent. simpl.
  apply (dict_set_map static _ a); assumption.
Qed.

Lemma participants_keys d : keys (participants d) = keys d.
Proof. unfold participants, keys. rewrite List.map_map. reflexivity. Qed.

Lemma participants_app d1 d2 : participants (d1 ++ d2) = participants d1 ++ participants d2.
Proof. apply List.map_app. Qed.

Lemma dict_get_app_l {V} (k : pystr) (d1 d2 : list (pystr * V)) :
  In k (keys d1) -> dict_get k (d1 ++ d2) = dict_get k d1.
Proof.
  induction d1 as [|[k' v] d1 IH]; simpl; [contradiction |].
  intros [<- | Hin]; [rewrite str_eqb_refl; reflexivity |].
  destruct (str_eqb k k'); [reflexivity | apply IH, Hin].
Qed.

Lemma dict_get_app_r {V} (k : pystr) (d1 d2 : list (pystr * V)) :
  ~ In k (keys d1) -> dict_get k (d1 ++ d2) = dict_get k d2.
Proof.
  induction d1 as [|[k' v] d1 IH]; simpl; [reflexivity |].
  intros Hn. rewrite str_eqb_neq by (intros ->; apply Hn; left; reflexivity).
  apply IH. intros Hin. apply Hn. right. exact Hin.
Qed.

(** [analyze_clinical_case] computes [analysis_outcome] and keeps the static
    part of the agent. *)
Lemma analyze_clinical_case_outcome w id text hist sp a :
  fst (fst (analyze_clinical_case w id text hist sp a))
  = analysis_outcome w id (agent_class a) (specialty a) /\
  static (snd (fst (analyze_clinical_case w id text hist sp a))) = static a.
Proof.
  unfold analyze_clinical_case, analysis_outcome.
  destruct (agent_class a) eqn:Ec; [| split; reflexivity].
  set (a1 := if truthy hist then set_shared_history hist a else a).
  assert (Hs : static a1 = static a).
  { unfold a1. destruct (truthy hist); [apply static_set_shared_history | reflexivity]. }
  assert (Hsp : specialty a1 = specialty a) by (injection Hs; auto).
  unfold chat. rewrite Hsp.
  destruct (invoke w id); simpl; rewrite ?Hsp; split; try reflexivity;
    rewrite static_set_messages; exact Hs.
Qed.

End EngineBasics.

(** ** The engine: what one step preserves *)

Section EngineSteps.

Variable w : World.
Variable round_num : nat.

Lemma request_of_weaken names names' q :
  incl names names' -> request_of round_num names q -> request_of round_num names' q.
Proof.
  unfold request_of. intros Hi. destruct (call q); auto.
  intros [-> Hn]. split; [reflexivity | apply Hi, Hn].
Qed.

Lemma evolves_refl names st : evolves round_num names st st.
Proof.
  split; try reflexivity.
  - exists []. rewrite app_nil_r. split; [reflexivity | constructor].
  - exists []. rewrite app_nil_r. split; [reflexivity | constructor].
Qed.

Lemma evolves_trans names st1 st2 st3 :
  evolves round_num names st1 st2 -> evolves round_num names st2 st3 ->
  evolves round_num names st1 st3.
Proof.
  intros [Hs1 Hr1 Ht1 (q1 & Hq1 & Fq1) (b1 & Hb1 & Fb1)]
         [Hs2 Hr2 Ht2 (q2 & Hq2 & Fq2) (b2 & Hb2 & Fb2)].
  split; try congruence.
  - exists (q1 ++ q2). rewrite Hq2, Hq1, <- app_assoc. split; [reflexivity |].
    apply Forall_app. split; assumption.
  - exists (b1 ++ b2). rewrite Hb2, Hb1, <- app_assoc. split; [reflexivity |].
    apply Forall_app. split; assumption.
Qed.

Lemma evolves_weaken names names' st st' :
  incl names names' -> evolves round_num names st st' -> evolves round_num names' st st'.
Proof.
  intros Hi [Hs Hr Ht (q & Hq & Fq) Hb]. split; try assumption.
  exists q. split; [exact Hq |].
  eapply List.Forall_impl; [| exact Fq]. intros a. apply request_of_weaken, Hi.
Qed.

(** A step that changes nothing but the shared history and the requests. *)
Lemma evolves_answers names st st' reqs :
  untouched_by_answers st' = untouched_by_answers st ->
  llm_requests st' = llm_requests st ++ reqs ->
  Forall (request_of round_num names) reqs ->
  evolves round_num names st st'.
Proof.
  unfold untouched_by_answers. intros [= Hi Hr Hc Hm Hk Hp Hl Hu Hmc Ha Hd Hg] Hq Fq.
  split.
  - unfold setup, roster, participants. congruence.
  - exact Hc.
  - congruence.
  - exists reqs. split; assumption.
  - exists []. rewrite app_nil_r. split; [exact Hl | constructor].
Qed.

(** The requests of [respond_to_user_question] are answers of the round. *)
Lemma respond_requests after target q ctx record a names :
  Forall (request_of round_num names)
    (snd (respond_to_user_question w (AnswerCall round_num after target) q ctx record a)).
Proof.
  unfold respond_to_user_question.
  destruct (agent_class a); [| constructor].
  destruct (invoke w _); simpl; repeat constructor.
Qed.

(** The loop of a broadcast question. *)
Lemma broadcast_loop_answers after q names acc st :
  untouched_by_answers (snd (broadcast_loop w round_num after q names acc st))
  = untouched_by_answers st /\
  exists reqs,
    llm_requests (snd (broadcast_loop w round_num after q names acc st))
    = llm_requests st ++ reqs /\
    Forall (request_of round_num []) reqs.
Proof.
  revert acc st. induction names as [|name rest IH]; intros acc st; simpl.
  { split; [reflexivity |]. exists []. rewrite app_nil_r. split; [reflexivity | constructor]. }
  destruct (dict_get name (agents st)) as [a|]; [| apply IH].
  unfold respond_to_user_question.
  destruct (agent_class a).
  - destruct (invoke w (AnswerCall round_num after name)) as [text | e].
    + match goal with |- context [broadcast_loop _ _ _ _ rest ?acc' ?st'] =>
        destruct (IH acc' st') as [Hu (reqs & Hq & Fq)] end.
      split; [rewrite Hu; reflexivity |].
      eexists (_ :: reqs). rewrite Hq. simpl. rewrite <- app_assoc. simpl.
      split; [reflexivity |]. constructor; [reflexivity | exact Fq].
    + match goal with |- context [broadcast_loop _ _ _ _ rest ?acc' ?st'] =>
        destruct (IH acc' st') as [Hu (reqs & Hq & Fq)] end.
      split; [rewrite Hu; reflexivity |].
      eexists (_ :: reqs). rewrite Hq. simpl. rewrite <- app_assoc. simpl.
      split; [reflexivity |]. constructor; [reflexivity | exact Fq].
  - simpl. split; [reflexivity |].
    exists []. rewrite !app_nil_r. split; [reflexivity | constructor].
Qed.

Lemma broadcast_loop_evolves after q names acc st :
  evolves round_num [] st (snd (broadcast_loop w round_num after q names acc st)).
Proof.
  destruct (broadcast_loop_answers after q names acc st) as [Hu (reqs & Hq & Fq)].
  eapply evolves_answers; eassumption.
Qed.

(** The elementary updates. *)
Lemma evolves_same names st st' :
  setup st' = setup st ->
  current_round st' = current_round st ->
  status (medical_context st') = status (medical_context st) ->
  llm_requests st' = llm_requests st ->
  discussion_log st' = discussion_log st ->
  evolves round_num names st st'.
Proof.
  intros Hs Hr Ht Hq Hl. split; try assumption.
  - exists []. rewrite app_nil_r. split; [exact Hq | constructor].
  - exists []. rewrite app_nil_r. split; [exact Hl | constructor].
Qed.

Lemma evolves_add_requests names reqs st :
  Forall (request_of round_num names) reqs ->
  evolves round_num names st (add_requests reqs st).
Proof.
  intros F. split; try reflexivity.
  - exists reqs. split; [reflexivity | exact F].
  - exists []. rewrite app_nil_r. split; [reflexivity | constructor].
Qed.

Lemma evolves_update_medical_context names info st :
  evolves round_num names st (_update_medical_context info st).
Proof.
  apply evolves_same; try reflexivity.
  unfold setup, _update_medical_context.
  rewrite roster_each_agent by apply static_update_context. reflexivity.
Qed.

Lemma evolves_each_update_context names info st :
  evolves round_num names st (each_agent (update_context info) st).
Proof.
  apply evolves_same; try reflexivity.
  unfold setup. rewrite roster_each_agent by apply static_update_context. reflexivity.
Qed.

Lemma evolves_put_agent names name a a' st :
  dict_get name (agents st) = Some a -> static a' = static a ->
  evolves round_num names st (put_agent name a' st).
Proof.
  intros Hget Hs. apply evolves_same; try reflexivity.
  unfold setup. rewrite (roster_put_agent _ _ _ _ Hget Hs). reflexivity.
Qed.

(** [_handle_user_intervention] stays within the round. *)
Lemma handle_evolves after d st :
  evolves round_num [] st (snd (_handle_user_intervention w round_num after d st)).
Proof.
  unfold _handle_user_intervention.
  set (st0 := log_event (LogHandling (get_type d)) st).
  assert (H0 : evolves round_num [] st st0) by (apply evolves_same; reflexivity).
  apply (evolves_trans _ _ _ _ H0). clearbody st0. clear H0.
  destruct d as [target q | q | info | |].
  - destruct (if truthy target && truthy q then dict_get target (agents st0) else None)
      as [a|]; [| apply evolves_same; reflexivity].
    pose proof (respond_requests after target q
                  (_get_current_discussion_context (discussion_log st0))
                  (medical_record (medical_context st0)) a []) as F.
    destruct (respond_to_user_question w _ q _ _ a) as [[ans | e] reqs]; simpl in F |- *.
    + eapply evolves_trans; [apply evolves_add_requests, F |].
      apply evolves_same; reflexivity.
    + eapply evolves_trans; [apply evolves_add_requests, F |].
      apply evolves_same; reflexivity.
  - destruct (truthy q); [| apply evolves_same; reflexivity].
    pose proof (broadcast_loop_evolves after q (keys (agents st0)) [] st0) as Hb.
    destruct (broadcast_loop w round_num after q (keys (agents st0)) [] st0)
      as [[contribs | e] st1]; simpl in Hb |- *.
    + apply (evolves_trans _ _ _ _ Hb).
      split; try reflexivity.
      * exists []. rewrite app_nil_r. split; [reflexivity | constructor].
      * eexists [_]. split; [reflexivity |]. repeat constructor.
    + apply (evolves_trans _ _ _ _ Hb). apply evolves_same; reflexivity.
  - destruct (truthy info); [| apply evolves_same; reflexivity].
    simpl.
    eapply evolves_trans; [apply evolves_update_medical_context |].
    eapply evolves_trans; [apply evolves_each_update_context |].
    apply evolves_same; reflexivity.
  - apply evolves_same; reflexivity.
  - apply evolves_same; reflexivity.
Qed.

(** An intervention that does not leave the round returns [False] and
    touches no control flag. *)
Lemma handle_stays after d st :
  leaves_round d = false ->
  fst (_handle_user_intervention w round_num after d st) = false /\
  control (snd (_handle_user_intervention w round_num after d st)) = control st.
Proof.
  intros Hd. unfold _handle_user_intervention.
  destruct d as [target q | q | info | |]; try discriminate.
  - destruct (if truthy target && truthy q then _ else None) as [a|];
      [| split; reflexivity].
    destruct (respond_to_user_question w _ q _ _ a) as [[ans | e] reqs];
      split; reflexivity.
  - destruct (truthy q); [| split; reflexivity].
    destruct (broadcast_loop_answers after q
                (keys (agents (log_event (LogHandling (get_type (broadcast_question q))) st)))
                [] (log_event (LogHandling (get_type (broadcast_question q))) st))
      as [Hu _].
    destruct (broadcast_loop w round_num after q _ [] _) as [[contribs | e] st1];
      simpl in Hu |- *; unfold untouched_by_answers in Hu;
      injection Hu as Hi Hr Hc Hm Hk Hp Hl Hv Hmc Ha Hd' Hg;
      (split; [reflexivity | unfold control; simpl; congruence]).
  - destruct (truthy info); split; reflexivity.
Qed.

Lemma handle_skip_round after st :
  _handle_user_intervention w round_num after skip_round st
  = (true, set_skip_remaining_agents true (log_event (LogHandling Tskip_round) st)).
Proof. reflexivity. Qed.

Lemma handle_interrupt after st :
  _handle_user_intervention w round_num after interrupt st
  = (true, set_is_running false (log_event (LogHandling Tinterrupt) st)).
Proof. reflexivity. Qed.

(** The checkpoint reads the engine only through its configuration. *)
Lemma blocking_setup name st st' :
  setup st' = setup st ->
  _get_blocking_user_intervention w round_num name st'
  = _get_blocking_user_intervention w round_num name st.
Proof.
  unfold setup, _get_blocking_user_intervention.
  intros [= _ _ -> _ _ _ _]. reflexivity.
Qed.

Lemma setup_roster st st' : setup st' = setup st -> roster st' = roster st.
Proof. unfold setup. intros [= _ _ _ _ H _ _]. exact H. Qed.

Lemma stays_setup names st st' :
  setup st' = setup st -> stays w st round_num names -> stays w st' round_num names.
Proof.
  intros Hs H name d s Hin Hg Hc Hb.
  rewrite (blocking_setup _ _ _ Hs) in Hb. rewrite (setup_roster _ _ Hs) in Hg. eauto.
Qed.

Lemma analyze_requests name text hist sp a :
  Forall (request_of round_num [name])
    (snd (analyze_clinical_case w (AnalysisCall round_num name) text hist sp a)).
Proof.
  unfold analyze_clinical_case.
  destruct (agent_class a); [| constructor].
  unfold chat. destruct (invoke w _); simpl; repeat constructor.
Qed.

(** *** One turn *)

(** The state of the engine when the checkpoint of a turn is reached, and
    the entry of the turn. *)
Lemma agent_turn_entry hist name a contribs st :
  fst (fst (agent_turn w round_num hist name a contribs st))
  = contribs ++ [turn_entry w round_num (name, static a)].
Proof.
  unfold agent_turn, turn_entry, static.
  destruct (analyze_clinical_case_outcome w (AnalysisCall round_num name)
              (medical_record (medical_context st)) hist (analysis_prompt name)
              (set_shared_history hist a)) as [Ho _].
  pose proof (static_set_shared_history hist a) as Hs.
  unfold static in Hs. injection Hs as Hc _ Hp _. rewrite Hc, Hp in Ho.
  destruct (analyze_clinical_case w _ _ hist _ _) as [[out a2] reqs]. simpl in Ho.
  rewrite <- Ho. destruct out as [result | e]; [| reflexivity].
  destruct (_get_blocking_user_intervention w round_num name _) as [d|]; [| reflexivity].
  destruct (_handle_user_intervention w round_num name d _). reflexivity.
Qed.

Lemma agent_turn_evolves hist name a contribs st :
  dict_get name (agents st) = Some a ->
  evolves round_num [name] st (snd (fst (agent_turn w round_num hist name a contribs st))).
Proof.
  intros Hget. unfold agent_turn.
  destruct (analyze_clinical_case_outcome w (AnalysisCall round_num name)
              (medical_record (medical_context st)) hist (analysis_prompt name)
              (set_shared_history hist a)) as [_ Hs].
  rewrite static_set_shared_history in Hs.
  pose proof (analyze_requests name (medical_record (medical_context st)) hist
                (analysis_prompt name) (set_shared_history hist a)) as F.
  destruct (analyze_clinical_case w _ _ hist _ _) as [[out a2] reqs]. simpl in Hs, F.
  assert (H1 : evolves round_num [name] st (add_requests reqs (put_agent name a2 st))).
  { eapply evolves_trans; [apply (evolves_put_agent _ _ a a2 _ Hget Hs) |].
    apply evolves_add_requests, F. }
  destruct out as [result | e]; simpl.
  - match goal with |- context [_add_to_shared_history name ?t ?s] =>
      set (st2 := _add_to_shared_history name t s) end.
    assert (H2 : evolves round_num [name] st st2).
    { apply (evolves_trans _ _ _ _ H1). apply evolves_same; reflexivity. }
    destruct (_get_blocking_user_intervention w round_num name st2) as [d|]; [| exact H2].
    pose proof (handle_evolves name d st2) as H3.
    destruct (_handle_user_intervention w round_num name d st2) as [leave st3].
    simpl in H3 |- *.
    apply (evolves_trans _ _ _ _ H2).
    eapply evolves_weaken; [| exact H3]. intros x [].
  - apply (evolves_trans _ _ _ _ H1). apply evolves_same; reflexivity.
Qed.

End EngineSteps.

(** ** The engine: turns, rounds and the discussion *)

Section EngineRounds.

Variable w : World.

Lemma agent_turn_stays round_num hist name a contribs st :
  dict_get name (agents st) = Some a ->
  stays w st round_num [name] ->
  snd (agent_turn w round_num hist name a contribs st) = false /\
  control (snd (fst (agent_turn w round_num hist name a contribs st))) = control st.
Proof.
  intros Hget Hst. unfold agent_turn.
  destruct (analyze_clinical_case_outcome w (AnalysisCall round_num name)
              (medical_record (medical_context st)) hist (analysis_prompt name)
              (set_shared_history hist a)) as [Ho _].
  pose proof (static_set_shared_history hist a) as Hs.
  unfold static in Hs. injection Hs as Hc' _ _ _. rewrite Hc' in Ho.
  destruct (analyze_clinical_case w _ _ hist _ _) as [[[result | e] a2] reqs];
    [| split; reflexivity].
  simpl in Ho.
  assert (Hc : agent_class a = SpecialtyAgent).
  { destruct (agent_class a); [reflexivity | discriminate Ho]. }
  match goal with |- context [_get_blocking_user_intervention w round_num name ?s] =>
    change (_get_blocking_user_intervention w round_num name s)
      with (_get_blocking_user_intervention w round_num name st) end.
  destruct (_get_blocking_user_intervention w round_num name st) as [d|] eqn:Hb;
    [| split; reflexivity].
  assert (Hd : leaves_round d = false).
  { apply (Hst name d (static a)); [left; reflexivity | | exact Hc | exact Hb].
    rewrite roster_get, Hget. reflexivity. }
  match goal with |- context [_handle_user_intervention w round_num name d ?s] =>
    destruct (handle_stays w round_num name d s Hd) as [Hf Hc2];
    destruct (_handle_user_intervention w round_num name d s) as [leave st3] end.
  simpl in Hf, Hc2 |- *. subst leave. split; [reflexivity | exact Hc2].
Qed.

Lemma agent_turn_leaves round_num hist name a contribs st d :
  agent_class a = SpecialtyAgent ->
  _get_blocking_user_intervention w round_num name st = Some d ->
  leaves_round d = true ->
  snd (agent_turn w round_num hist name a contribs st) = true /\
  (d = skip_round ->
   control (snd (fst (agent_turn w round_num hist name a contribs st)))
   = (is_running st, true)) /\
  (d = interrupt ->
   control (snd (fst (agent_turn w round_num hist name a contribs st)))
   = (false, skip_remaining_agents st)).
Proof.
  intros Hc Hb Hd. unfold agent_turn.
  destruct (analyze_clinical_case_outcome w (AnalysisCall round_num name)
              (medical_record (medical_context st)) hist (analysis_prompt name)
              (set_shared_history hist a)) as [Ho _].
  pose proof (static_set_shared_history hist a) as Hs.
  unfold static in Hs. injection Hs as Hc' _ _ _. rewrite Hc', Hc in Ho.
  destruct (analyze_clinical_case w _ _ hist _ _) as [[out a2] reqs]. simpl in Ho.
  assert (Hout : exists result, out = Returned result).
  { rewrite Ho. unfold analysis_outcome. destruct (invoke w _); eauto. }
  destruct Hout as [result ->].
  match goal with |- context [_get_blocking_user_intervention w round_num name ?s] =>
    change (_get_blocking_user_intervention w round_num name s)
      with (_get_blocking_user_intervention w round_num name st) end.
  rewrite Hb.
  destruct d; try discriminate; simpl; repeat split; intros; try discriminate; reflexivity.
Qed.

(** *** The loop over the participants *)

Lemma stays_cons round_num st name rest :
  stays w st round_num (name :: rest) ->
  stays w st round_num [name] /\ stays w st round_num rest.
Proof.
  intros H. split; intros n d s Hin; apply H; [destruct Hin as [<- | []]; left | right];
    auto.
Qed.

Lemma control_fields st st' :
  control st' = control st ->
  is_running st' = is_running st /\ skip_remaining_agents st' = skip_remaining_agents st.
Proof. unfold control. intros [= H1 H2]. split; assumption. Qed.

Lemma entries_for_cons round_num ros name rest :
  entries_for w round_num ros (name :: rest)
  = match dict_get name ros with
    | Some s => [turn_entry w round_num (name, s)]
    | None => []
    end ++ entries_for w round_num ros rest.
Proof. reflexivity. Qed.

(** While the operator stays in the round, every participant gets its turn. *)
Lemma agents_loop_stays round_num hist names :
  forall contribs st,
    skip_remaining_agents st = false ->
    stays w st round_num names ->
    fst (agents_loop w round_num hist names contribs st)
    = contribs ++ entries_for w round_num (roster st) names /\
    evolves round_num names st (snd (agents_loop w round_num hist names contribs st)) /\
    control (snd (agents_loop w round_num hist names contribs st)) = control st.
Proof.
  induction names as [|name rest IH]; intros contribs st Hk Hst; simpl.
  { unfold entries_for. simpl. rewrite app_nil_r.
    split; [reflexivity |]. split; [apply evolves_refl | reflexivity]. }
  rewrite Hk. apply stays_cons in Hst as [Hst1 Hst2].
  rewrite entries_for_cons, roster_get.
  destruct (dict_get name (agents st)) as [a|] eqn:G; simpl.
  - pose proof (agent_turn_entry w round_num hist name a contribs st) as He.
    pose proof (agent_turn_evolves w round_num hist name a contribs st G) as Hev.
    destruct (agent_turn_stays round_num hist name a contribs st G Hst1) as [Hl Hc].
    destruct (agent_turn w round_num hist name a contribs st) as [[c1 st1] leave].
    simpl in He, Hev, Hl, Hc. subst leave c1.
    destruct (control_fields _ _ Hc) as [_ Hk1]. rewrite Hk in Hk1.
    pose proof (ev_setup _ _ _ _ Hev) as Hs.
    destruct (IH (contribs ++ [turn_entry w round_num (name, static a)]) st1 Hk1
                (stays_setup w round_num rest st st1 Hs Hst2)) as (E1 & E2 & E3).
    rewrite E1, (setup_roster _ _ Hs), <- app_assoc. split; [reflexivity |].
    split; [| congruence].
    eapply evolves_trans.
    + eapply evolves_weaken; [| exact Hev]. intros x [<- | []]. left. reflexivity.
    + eapply evolves_weaken; [| exact E2]. intros x Hx. right. exact Hx.
  - destruct (IH contribs st Hk Hst2) as (E1 & E2 & E3).
    split; [exact E1 |]. split; [| exact E3].
    eapply evolves_weaken; [| exact E2]. intros x Hx. right. exact Hx.
Qed.

(** When the operator leaves the round at the checkpoint after [name], the
    loop ends there. *)
Lemma agents_loop_leaves round_num hist pre name post d s :
  forall contribs st,
    skip_remaining_agents st = false ->
    stays w st round_num pre ->
    dict_get name (roster st) = Some s ->
    fst (fst (fst s)) = SpecialtyAgent ->
    _get_blocking_user_intervention w round_num name st = Some d ->
    leaves_round d = true ->
    fst (agents_loop w round_num hist (pre ++ name :: post) contribs st)
    = contribs ++ entries_for w round_num (roster st) pre
      ++ [turn_entry w round_num (name, s)] /\
    evolves round_num (pre ++ [name]) st
      (snd (agents_loop w round_num hist (pre ++ name :: post) contribs st)) /\
    (d = skip_round ->
     control (snd (agents_loop w round_num hist (pre ++ name :: post) contribs st))
     = (is_running st, true)) /\
    (d = interrupt ->
     control (snd (agents_loop w round_num hist (pre ++ name :: post) contribs st))
     = (false, false)).
Proof.
  induction pre as [|p pre IH]; intros contribs st Hk Hst Hget Hcls Hb Hd; simpl.
  - rewrite Hk. rewrite roster_get in Hget.
    change (entries_for w round_num (roster st) []) with (@nil Entry).
    destruct (dict_get name (agents st)) as [a|] eqn:G; [| discriminate].
    simpl in Hget. injection Hget as <-.
    pose proof (agent_turn_entry w round_num hist name a contribs st) as He.
    pose proof (agent_turn_evolves w round_num hist name a contribs st G) as Hev.
    destruct (agent_turn_leaves round_num hist name a contribs st d Hcls Hb Hd)
      as (Hl & Hskip & Hint).
    destruct (agent_turn w round_num hist name a contribs st) as [[c1 st1] leave].
    simpl in He, Hev, Hl, Hskip, Hint. subst leave c1. simpl.
    split; [reflexivity |]. split; [exact Hev |].
    split; [exact Hskip |]. intros ->. rewrite (Hint eq_refl), Hk. reflexivity.
  - rewrite Hk. apply stays_cons in Hst as [Hst1 Hst2].
    rewrite entries_for_cons, (roster_get st p).
    destruct (dict_get p (agents st)) as [a|] eqn:G; simpl.
    + pose proof (agent_turn_entry w round_num hist p a contribs st) as He.
      pose proof (agent_turn_evolves w round_num hist p a contribs st G) as Hev.
      destruct (agent_turn_stays round_num hist p a contribs st G Hst1) as [Hl Hc].
      destruct (agent_turn w round_num hist p a contribs st) as [[c1 st1] leave].
      simpl in He, Hev, Hl, Hc. subst leave c1.
      destruct (control_fields _ _ Hc) as [Hrun Hk1]. rewrite Hk in Hk1.
      pose proof (ev_setup _ _ _ _ Hev) as Hs.
      rewrite <- (setup_roster _ _ Hs) in Hget.
      rewrite <- (blocking_setup w round_num name st st1 Hs) in Hb.
      destruct (IH (contribs ++ [turn_entry w round_num (p, static a)]) st1 Hk1
                  (stays_setup w round_num pre st st1 Hs Hst2) Hget Hcls Hb Hd)
        as (E1 & E2 & E3 & E4).
      rewrite E1, (setup_roster _ _ Hs), <- !app_assoc. split; [reflexivity |].
      split.
      { eapply evolves_trans.
        - eapply evolves_weaken; [| exact Hev]. intros x [<- | []]. left. reflexivity.
        - eapply evolves_weaken; [| exact E2]. intros x Hx. right. exact Hx. }
      split; [intros Hsk; rewrite (E3 Hsk); congruence | exact E4].
    + destruct (IH contribs st Hk Hst2 Hget Hcls Hb Hd) as (E1 & E2 & E3 & E4).
      split; [exact E1 |]. split; [| split; assumption].
      eapply evolves_weaken; [| exact E2]. intros x Hx. right. exact Hx.
Qed.

(** Whatever the operator does, the loop stays within the round. *)
Lemma agents_loop_evolves round_num hist names :
  forall contribs st,
    evolves round_num names st (snd (agents_loop w round_num hist names contribs st)).
Proof.
  induction names as [|name rest IH]; intros contribs st; simpl; [apply evolves_refl |].
  destruct (skip_remaining_agents st); [apply evolves_same; reflexivity |].
  destruct (dict_get name (agents st)) as [a|] eqn:G.
  - pose proof (agent_turn_evolves w round_num hist name a contribs st G) as Hev.
    destruct (agent_turn w round_num hist name a contribs st) as [[c1 st1] leave].
    simpl in Hev.
    assert (Hev' : evolves round_num (name :: rest) st st1).
    { eapply evolves_weaken; [| exact Hev]. intros x [<- | []]. left. reflexivity. }
    destruct leave; [exact Hev' |].
    eapply evolves_trans; [exact Hev' |].
    eapply evolves_weaken; [| apply IH]. intros x Hx. right. exact Hx.
  - eapply evolves_weaken; [| apply IH]. intros x Hx. right. exact Hx.
Qed.

Lemma round_evolves round_num st :
  evolves round_num (keys (agents st)) st (snd (_execute_discussion_round w round_num st)).
Proof.
  unfold _execute_discussion_round.
  set (st1 := set_skip_remaining_agents false st).
  pose proof (agents_loop_evolves round_num
                (_get_current_discussion_context (discussion_log st1))
                (keys (agents st1)) [] st1) as Hev.
  destruct (agents_loop w round_num _ (keys (agents st1)) [] st1) as [contribs st2].
  simpl in Hev |- *.
  eapply evolves_trans; [| exact Hev]. apply evolves_same; reflexivity.
Qed.

(** *** One round *)

Lemma entries_for_all round_num d :
  List.NoDup (keys d) ->
  entries_for w round_num (participants d) (keys d)
  = List.map (turn_entry w round_num) (participants d).
Proof.
  intros Hnd. rewrite <- (participants_keys d) in Hnd |- *.
  unfold entries_for. apply (flat_map_keys (turn_entry w round_num)). exact Hnd.
Qed.

Lemma entries_for_app_l round_num d1 d2 names :
  incl names (keys d1) ->
  entries_for w round_num (participants d1 ++ d2) names
  = entries_for w round_num (participants d1) names.
Proof.
  intros Hi. unfold entries_for. apply flat_map_agree. intros k Hk.
  rewrite dict_get_app_l; [reflexivity |].
  rewrite participants_keys. apply Hi, Hk.
Qed.

Lemma round_stays round_num st :
  List.NoDup (keys (agents st)) ->
  stays w st round_num (keys (agents st)) ->
  fst (_execute_discussion_round w round_num st)
  = mkRound (NormalRound round_num) (List.map (turn_entry w round_num) (roster st)) /\
  evolves round_num (keys (agents st)) st (snd (_execute_discussion_round w round_num st)) /\
  is_running (snd (_execute_discussion_round w round_num st)) = is_running st /\
  skip_remaining_agents (snd (_execute_discussion_round w round_num st)) = false.
Proof.
  intros Hnd Hst. unfold _execute_discussion_round.
  set (st1 := set_skip_remaining_agents false st).
  set (hist := _get_current_discussion_context (discussion_log st1)).
  assert (Hs : setup st1 = setup st) by reflexivity.
  destruct (agents_loop_stays round_num hist (keys (agents st)) [] st1 eq_refl
              (stays_setup w round_num _ st st1 Hs Hst)) as (E1 & E2 & E3).
  change (keys (agents st1)) with (keys (agents st)).
  destruct (agents_loop w round_num hist (keys (agents st)) [] st1) as [contribs st2].
  simpl in E1, E2, E3 |- *. subst contribs.
  change (roster st1) with (roster st). unfold roster at 1.
  rewrite (entries_for_all round_num (agents st) Hnd).
  destruct (control_fields _ _ E3) as [Hr Hk]. simpl in Hr, Hk.
  split; [reflexivity |]. split; [| split; assumption].
  eapply evolves_trans; [| exact E2]. apply evolves_same; reflexivity.
Qed.

Lemma round_leaves round_num st pre name a post d :
  agents st = pre ++ (name, a) :: post ->
  List.NoDup (keys (agents st)) ->
  agent_class a = SpecialtyAgent ->
  stays w st round_num (keys pre) ->
  _get_blocking_user_intervention w round_num name st = Some d ->
  leaves_round d = true ->
  fst (_execute_discussion_round w round_num st)
  = mkRound (NormalRound round_num)
      (List.map (turn_entry w round_num) (participants pre)
       ++ [turn_entry w round_num (name, static a)]) /\
  evolves round_num (keys pre ++ [name]) st
    (snd (_execute_discussion_round w round_num st)) /\
  (d = skip_round ->
   is_running (snd (_execute_discussion_round w round_num st)) = is_running st /\
   skip_remaining_agents (snd (_execute_discussion_round w round_num st)) = true) /\
  (d = interrupt ->
   is_running (snd (_execute_discussion_round w round_num st)) = false).
Proof.
  intros Hag Hnd Hcls Hst Hb Hd. unfold _execute_discussion_round.
  set (st1 := set_skip_remaining_agents false st).
  set (hist := _get_current_discussion_context (discussion_log st1)).
  assert (Hs : setup st1 = setup st) by reflexivity.
  change (keys (agents st1)) with (keys (agents st)).
  assert (Hkeys : keys (agents st) = keys pre ++ name :: keys post).
  { rewrite Hag. unfold keys. rewrite List.map_app. reflexivity. }
  rewrite Hkeys in Hnd |- *.
  assert (Hpre : List.NoDup (keys pre) /\ ~ In name (keys pre)).
  { split; [eapply NoDup_app_remove_r; exact Hnd |].
    apply NoDup_remove_2 in Hnd. intros Hin. apply Hnd, in_or_app. left. exact Hin. }
  destruct Hpre as [Hndpre Hnin].
  assert (Hros : roster st1 = participants pre ++ (name, static a) :: participants post).
  { change (roster st1) with (roster st). unfold roster. rewrite Hag, participants_app.
    reflexivity. }
  assert (Hget : dict_get name (roster st1) = Some (static a)).
  { rewrite Hros, dict_get_app_r by (rewrite participants_keys; exact Hnin).
    simpl. rewrite str_eqb_refl. reflexivity. }
  rewrite <- (blocking_setup w round_num name st st1 Hs) in Hb.
  destruct (agents_loop_leaves round_num hist (keys pre) name (keys post) d (static a)
              [] st1 eq_refl (stays_setup w round_num _ st st1 Hs Hst) Hget Hcls Hb Hd)
    as (E1 & E2 & E3 & E4).
  destruct (agents_loop w round_num hist (keys pre ++ name :: keys post) [] st1)
    as [contribs st2].
  simpl in E1, E2, E3, E4 |- *. subst contribs.
  rewrite Hros, (entries_for_app_l round_num pre _ (keys pre)) by (intros x Hx; exact Hx).
  rewrite (entries_for_all round_num pre Hndpre).
  split; [reflexivity |].
  split; [eapply evolves_trans; [| exact E2]; apply evolves_same; reflexivity |].
  split.
  - intros Hsk. specialize (E3 Hsk). unfold control in E3.
    injection E3 as Hr Hk. split; assumption.
  - intros Hi. specialize (E4 Hi). unfold control in E4.
    injection E4 as Hr _. exact Hr.
Qed.

(** *** Without intervention mode *)

Lemma agent_turn_silent round_num hist name a contribs st :
  user_participation st = false ->
  let st' := snd (fst (agent_turn w round_num hist name a contribs st)) in
  discussion_log st' = discussion_log st /\
  user_interventions st' = user_interventions st /\
  handled (logger st') = handled (logger st).
Proof.
  intros Hp. unfold agent_turn.
  destruct (analyze_clinical_case w _ _ hist _ _) as [[[result | e] a2] reqs]; simpl.
  - unfold _get_blocking_user_intervention. simpl. rewrite Hp. simpl.
    repeat split; reflexivity.
  - split; [reflexivity |]. split; [reflexivity |].
    unfold handled. rewrite flat_map_app, app_nil_r. reflexivity.
Qed.

Lemma agents_loop_silent round_num hist names :
  forall contribs st,
    user_participation st = false ->
    (forall name, In name names -> In name (keys (agents st))) ->
    let st' := snd (agents_loop w round_num hist names contribs st) in
    discussion_log st' = discussion_log st /\
    user_interventions st' = user_interventions st /\
    handled (logger st') = handled (logger st).
Proof.
  induction names as [|name rest IH]; intros contribs st Hp Hin; simpl.
  { repeat split; reflexivity. }
  destruct (skip_remaining_agents st); simpl.
  { split; [reflexivity |]. split; [reflexivity |].
    unfold handled. rewrite flat_map_app, app_nil_r. reflexivity. }
  destruct (dict_get name (agents st)) as [a|] eqn:G.
  - destruct (agent_turn_silent round_num hist name a contribs st Hp) as (H1 & H2 & H3).
    pose proof (agent_turn_evolves w round_num hist name a contribs st G) as Hev.
    destruct (agent_turn w round_num hist name a contribs st) as [[c1 st1] leave].
    simpl in H1, H2, H3, Hev.
    destruct leave; [repeat split; assumption |].
    pose proof (ev_setup _ _ _ _ Hev) as Hs.
    assert (Hp1 : user_participation st1 = false).
    { unfold setup in Hs. injection Hs as _ _ Hq _ _ _ _. congruence. }
    assert (Hk1 : forall n, In n rest -> In n (keys (agents st1))).
    { intros n Hn. rewrite <- roster_keys, (setup_roster _ _ Hs), roster_keys.
      apply Hin. right. exact Hn. }
    destruct (IH c1 st1 Hp1 Hk1) as (E1 & E2 & E3).
    repeat split; congruence.
  - apply IH; [exact Hp |]. intros n Hn. apply Hin. right. exact Hn.
Qed.

Lemma round_silent round_num st :
  user_participation st = false ->
  let st' := snd (_execute_discussion_round w round_num st) in
  discussion_log st' = discussion_log st /\
  user_interventions st' = user_interventions st /\
  handled (logger st') = handled (logger st).
Proof.
  intros Hp. unfold _execute_discussion_round.
  set (st1 := set_skip_remaining_agents false st).
  pose proof (agents_loop_silent round_num
                (_get_current_discussion_context (discussion_log st1))
                (keys (agents st1)) [] st1 Hp (fun n H => H)) as H.
  destruct (agents_loop w round_num _ (keys (agents st1)) [] st1) as [contribs st2].
  exact H.
Qed.

Lemma stays_silent round_num names st :
  user_participation st = false -> stays w st round_num names.
Proof.
  intros Hp name d s _ _ _. unfold _get_blocking_user_intervention. rewrite Hp. discriminate.
Qed.

(** *** The rounds of a discussion *)

Lemma handled_app l1 l2 : handled (l1 ++ l2) = handled l1 ++ handled l2.
Proof. unfold handled. apply flat_map_app. Qed.

Lemma check_intervention_false st :
  fst (_check_user_intervention st) = false /\
  all_but_logger (snd (_check_user_intervention st)) = all_but_logger st /\
  exists more, logger (snd (_check_user_intervention st)) = logger st ++ more /\
               handled more = [].
Proof.
  unfold _check_user_intervention.
  destruct (user_participation st); simpl.
  - destruct (interface st); simpl.
    + split; [reflexivity |]. split; [reflexivity |]. eexists [_]. split; reflexivity.
    + split; [reflexivity |]. split; [reflexivity |].
      exists []. rewrite app_nil_r. split; reflexivity.
  - split; [reflexivity |]. split; [reflexivity |].
    exists []. rewrite app_nil_r. split; reflexivity.
Qed.

Lemma all_but_logger_fields st st' :
  all_but_logger st' = all_but_logger st ->
  setup st' = setup st /\ control st' = control st /\
  current_round st' = current_round st /\ discussion_log st' = discussion_log st /\
  user_interventions st' = user_interventions st /\
  medical_context st' = medical_context st /\ llm_requests st' = llm_requests st /\
  agents st' = agents st.
Proof.
  unfold all_but_logger, setup, control, roster.
  intros [= Hi Hr Hc Hm Hk Hp Hl Hu Hmc Ha Hd Hs Hq].
  rewrite Hi, Hr, Hc, Hm, Hk, Hp, Hl, Hu, Hmc, Ha, Hd, Hq.
  repeat split; reflexivity.
Qed.

(** Once the discussion is stopped, the loop only moves the round counter
    once and breaks. *)
Lemma rounds_loop_stopped rs st :
  is_running st = false ->
  rounds_loop w rs st
  = (Returned tt, match rs with [] => st | r :: _ => set_current_round r st end).
Proof. intros H. destruct rs as [|r rs]; simpl; [reflexivity |]. rewrite H. reflexivity. Qed.

(** One iteration of the loop, given what the round returns. *)
Lemma rounds_loop_cons r rs st :
  is_running st = true ->
  exists st3,
    rounds_loop w (r :: rs) st = rounds_loop w rs st3 /\
    all_but_logger st3
    = all_but_logger
        (set_discussion_log
           (discussion_log (snd (_execute_discussion_round w r (set_current_round r st)))
            ++ [fst (_execute_discussion_round w r (set_current_round r st))])
           (snd (_execute_discussion_round w r (set_current_round r st)))) /\
    exists more,
      logger st3
      = logger (snd (_execute_discussion_round w r (set_current_round r st))) ++ more /\
      handled more = [].
Proof.
  intros Hrun. simpl. rewrite Hrun. simpl.
  destruct (_execute_discussion_round w r (set_current_round r st)) as [round_result st1].
  simpl.
  match goal with |- context [_check_user_intervention ?s] =>
    destruct (check_intervention_false s) as (Hf & Ha & Hh);
    destruct (_check_user_intervention s) as [b st3] end.
  simpl in Hf, Ha, Hh. subst b. exists st3. repeat split; assumption.
Qed.

Lemma last_cons {A} (rs : list A) :
  forall (r d : A), List.last (r :: rs) d = List.last rs r.
Proof.
  induction rs as [|x rs IH]; intros r d; [reflexivity |].
  change (List.last (r :: x :: rs) d) with (List.last (x :: rs) d).
  rewrite (IH x d), (IH x r). reflexivity.
Qed.

(** Without intervention mode every round of the list is run in full and
    appended to the log. *)
Lemma rounds_loop_silent rs :
  forall st,
    user_participation st = false ->
    is_running st = true ->
    List.NoDup (keys (agents st)) ->
    exists st',
      rounds_loop w rs st = (Returned tt, st') /\
      is_running st' = true /\
      setup st' = setup st /\
      discussion_log st'
      = discussion_log st
        ++ List.map (fun r => mkRound (NormalRound r)
                                (List.map (turn_entry w r) (roster st))) rs /\
      current_round st' = List.last rs (current_round st) /\
      user_interventions st' = user_interventions st /\
      handled (logger st') = handled (logger st).
Proof.
  induction rs as [|r rs IH]; intros st Hp Hrun Hnd.
  { exists st. simpl. rewrite app_nil_r. repeat split; try reflexivity. exact Hrun. }
  destruct (rounds_loop_cons r rs st Hrun) as (st3 & Hloop & Ha & more & Hmore & Hnone).
  assert (Hh : handled (logger st3)
               = handled (logger (snd (_execute_discussion_round w r
                                         (set_current_round r st))))).
  { rewrite Hmore, handled_app, Hnone, app_nil_r. reflexivity. }
  set (st0 := set_current_round r st) in *.
  assert (Hs0 : setup st0 = setup st) by reflexivity.
  destruct (round_stays r st0 Hnd (stays_silent r _ st0 Hp)) as (E1 & E2 & E3 & E4).
  destruct (round_silent r st0 Hp) as (S1 & S2 & S3).
  destruct (all_but_logger_fields _ _ Ha) as (Hs & Hc & Hcr & Hl & Hu & Hmc & _ & Hag).
  simpl in Hs, Hc, Hcr, Hl, Hu, Hmc, Hag.
  destruct E2 as [Hs2 Hr2 Ht2 _ _].
  assert (Hs3 : setup st3 = setup st) by (rewrite Hs; exact Hs2).
  assert (Hp3 : user_participation st3 = false).
  { unfold setup in Hs3. injection Hs3 as _ _ Hq _ _ _ _. congruence. }
  assert (Hrun3 : is_running st3 = true).
  { destruct (control_fields _ _ Hc) as [Hr _]. simpl in Hr. rewrite Hr, E3. exact Hrun. }
  assert (Hnd3 : List.NoDup (keys (agents st3))).
  { rewrite <- roster_keys, (setup_roster _ _ Hs3), roster_keys. exact Hnd. }
  destruct (IH st3 Hp3 Hrun3 Hnd3) as (st' & L1 & L2 & L3 & L4 & L5 & L7 & L8).
  exists st'. split; [rewrite Hloop; exact L1 |].
  split; [exact L2 |]. split; [congruence |].
  split.
  { rewrite L4, Hl, S1, E1, (setup_roster _ _ Hs3). simpl.
    rewrite <- app_assoc. reflexivity. }
  split; [rewrite L5, Hcr, Hr2, last_cons; reflexivity |].
  split; [rewrite L7, Hu, S2; reflexivity |].
  rewrite L8, Hh, S3. reflexivity.
Qed.

End EngineRounds.

(** ** The scheduler: rounds, failures, skipping and terminating *)

Section Scheduler.

Variable w : World.

Lemma turn_entry_agent round_num name s : agent (turn_entry w round_num (name, s)) = name.
Proof.
  unfold turn_entry. destruct s as [[[cls n] sp] si].
  destruct (analysis_outcome w _ cls sp); reflexivity.
Qed.







(** The final summary touches neither the log nor the interventions. *)
Lemma final_summary_frame st :
  let st' := snd (_generate_final_summary w st) in
  discussion_log st' = discussion_log st /\
  user_interventions st' = user_interventions st /\
  current_round st' = current_round st /\
  medical_context st' = medical_context st /\
  handled (logger st') = handled (logger st).
Proof.
  unfold _generate_final_summary, make_final_decision, chat_without_history.
  simpl.
  destruct (decision_agent st) as [a|]; [destruct (invoke w DecisionCall) |]; simpl;
    repeat split; try reflexivity; rewrite !handled_app, !app_nil_r; reflexivity.
Qed.


(** C2 on the code.  When [interrupt] is handled in round 1 at the checkpoint
    after the second of three participants, [start_discussion] returns the
    interrupted result with the status ["interrupted"]; round 1 is the last
    round of the log and holds the entries of the first two participants;
    every request sent belongs to round 1 and to one of these two, so the
    third participant is not invoked and no further round is issued.  But
    the number given as [rounds_completed] is the round counter, which the
    loop moves to the next round before it tests [is_running]: it is 2 when
    more than one round was configured, although round 1 was cut short and
    round 2 never began. *)
Theorem interrupt_after_second_of_three st n1 a1 n2 a2 n3 a3 :
  agents st = [(n1, a1); (n2, a2); (n3, a3)] ->
  List.NoDup [n1; n2; n3] ->
  agent_class a2 = SpecialtyAgent ->
  (1 <= max_rounds st)%nat ->
  stays w st 1 [n1] ->
  _get_blocking_user_intervention w 1 n2 st = Some interrupt ->
  exists st' bs round1 reqs,
    start_discussion w st = (Interrupted (Nat.min 2 (max_rounds st)), st') /\
    metadata_status (fst (start_discussion w st)) = Some (py "interrupted") /\
    is_running st' = false /\
    discussion_log st' = discussion_log st ++ bs ++ [round1] /\
    Forall is_broadcast bs /\
    tag round1 = NormalRound 1 /\
    List.map agent (contributions round1) = [n1; n2] /\
    length (contributions round1) = 2%nat /\
    llm_requests st' = llm_requests st ++ reqs /\
    Forall (request_of 1 [n1; n2]) reqs.
Proof.
  intros Hag Hnd Hcls Hmax Hst Hb.
  unfold start_discussion.
  set (st0 := set_current_round 0 (set_is_running true st)).
  change (max_rounds st0) with (max_rounds st).
  destruct (max_rounds st) as [|m] eqn:Em; [lia |].
  change (seq 1 (S m)) with (1%nat :: seq 2 m).
  destruct (rounds_loop_cons w 1 (seq 2 m) st0 eq_refl) as (st3 & Hloop & Ha & _).
  set (st1 := set_current_round 1 st0) in *.
  assert (Hs1 : setup st1 = setup st) by reflexivity.
  assert (Hnd1 : List.NoDup (keys (agents st1))).
  { change (agents st1) with (agents st). rewrite Hag. exact Hnd. }
  rewrite <- (blocking_setup w 1 n2 st st1 Hs1) in Hb.
  destruct (round_leaves w 1 st1 [(n1, a1)] n2 a2 [(n3, a3)] interrupt Hag Hnd1 Hcls
              (stays_setup w 1 _ st st1 Hs1 Hst) Hb eq_refl) as (E1 & E2 & _ & E4).
  specialize (E4 eq_refl).
  destruct (all_but_logger_fields _ _ Ha) as (_ & Hc & Hcr & Hl & _ & _ & Hq & _).
  simpl in Hc, Hcr, Hl, Hq.
  destruct E2 as [_ Hr2 _ (reqs & Hreqs & Freqs) (bs & Hbs & Fbs)].
  assert (Hrun3 : is_running st3 = false).
  { destruct (control_fields _ _ Hc) as [Hr _]. simpl in Hr. congruence. }
  rewrite Hloop, (rounds_loop_stopped w (seq 2 m) st3 Hrun3).
  set (st4 := match seq 2 m with [] => st3 | r :: _ => set_current_round r st3 end).
  assert (H4 : is_running st4 = false /\ discussion_log st4 = discussion_log st3 /\
               llm_requests st4 = llm_requests st3 /\
               current_round st4 = Nat.min 2 (S m)).
  { unfold st4. destruct m as [|m']; simpl.
    - repeat split; try assumption. rewrite Hcr, Hr2. reflexivity.
    - repeat split; assumption. }
  destruct H4 as (Hrun4 & Hl4 & Hq4 & Hcr4).
  rewrite Hrun4, Hcr4.
  exists (set_is_running false st4), bs,
         (fst (_execute_discussion_round w 1 st1)), reqs.
  split; [reflexivity |]. split; [reflexivity |]. split; [reflexivity |].
  simpl. rewrite Hl4, Hl, Hbs, Hq4, Hq, Hreqs, E1, <- app_assoc. simpl.
  rewrite !turn_entry_agent.
  repeat split; try reflexivity; assumption.
Qed.

End Scheduler.

(** ** The record of interventions *)

Section Journal.

Variable w : World.













(** *** The rounds of the log *)




End Journal.

(** ** The terminal record, added information and the final summary *)

Section TerminalRecord.


(** In a discussion that runs to its end, [skip_round] is handled and the
    round is cut, but the record has no entry for it. *)
Example skip_round_leaves_no_record :
  let '(result, st') := start_discussion skipping (board true 2 None) in
  handled (logger st') = [Tskip_round] /\
  get_user_interventions result = [] /\
  List.map (fun r => length (contributions r)) (get_discussion_log result) = [1; 3]%nat.
Proof. vm_compute. repeat split. Qed.

(** What [update_context] appends to the messages of an agent is dropped by
    the next [set_shared_history]. *)
Lemma set_shared_history_forgets hist info a :
  messages (set_shared_history hist (update_context info a))
  = messages (set_shared_history hist a).
Proof.
  unfold set_shared_history, update_context. simpl.
  destruct (messages a) as [|m ms]; simpl; [reflexivity |].
  destruct (role m); reflexivity.
Qed.

(** The request of a turn: the agent's system message, the digest taken at
    the start of the round, and the analysis message built from the medical
    record; whatever else the agent's messages held is not in it.  The
    requests after it are those of an intervention at the checkpoint. *)
Lemma turn_request (w : World) round_num hist name a contribs st m0 ms :
  agent_class a = SpecialtyAgent ->
  messages a = m0 :: ms -> role m0 = System -> hist <> [] ->
  exists later,
    llm_requests (snd (fst (agent_turn w round_num hist name a contribs st)))
    = llm_requests st
      ++ mkLLMRequest (AnalysisCall round_num name)
           (ChatPrompt
              (m0 :: hist
               ++ [mkMessage User
                     (analysis_message (specialty a) (medical_record (medical_context st))
                        (_format_discussion_history_for_prompt hist)
                        (nl ++ analysis_prompt name))]))
         :: later.
Proof.
  intros Hc Hm Hr Hh. unfold agent_turn, analyze_clinical_case.
  assert (Hs : set_shared_history hist a = set_messages (m0 :: hist) a).
  { unfold set_shared_history. rewrite Hm, Hr. reflexivity. }
  rewrite Hs. simpl. rewrite Hc.
  destruct hist as [|h hist]; [congruence |]. simpl.
  unfold set_shared_history, chat. simpl. rewrite Hr. simpl.
  destruct (invoke w (AnalysisCall round_num name)) as [text | e]; simpl.
  - match goal with |- context [_get_blocking_user_intervention w round_num name ?s] =>
      destruct (_get_blocking_user_intervention w round_num name s) as [d|];
      [destruct (handle_evolves w round_num name d s) as [_ _ _ (reqs & Hq & _) _];
       destruct (_handle_user_intervention w round_num name d s) as [leave st3];
       simpl in Hq |- *; exists reqs; rewrite Hq, <- app_assoc; reflexivity
      | exists []; reflexivity] end.
  - match goal with |- context [_get_blocking_user_intervention w round_num name ?s] =>
      destruct (_get_blocking_user_intervention w round_num name s) as [d|];
      [destruct (handle_evolves w round_num name d s) as [_ _ _ (reqs & Hq & _) _];
       destruct (_handle_user_intervention w round_num name d s) as [leave st3];
       simpl in Hq |- *; exists reqs; rewrite Hq, <- app_assoc; reflexivity
      | exists []; reflexivity] end.
Qed.

(** C7 on the code.  The operator adds a finding at the last checkpoint of
    round 1.  The intervention is handled and recorded, the finding is stored
    in the medical context, and after round 1 every agent holds it in its
    messages; yet none of the requests of the two-round discussion contains
    it, neither the three of round 2 nor the final decision, while each of
    them contains the medical record. *)
Theorem added_information_reaches_no_prompt :
  (let '(_, st1) := start_discussion informing (board true 1 None) in
   agents_know new_finding st1 = true) /\
  (let '(result, st') := start_discussion informing (board true 2 (Some decision_maker)) in
   get_user_interventions result
   = [mkInterventionRecord Tadd_information (add_information new_finding)] /\
   additional_info (medical_context st') = [new_finding] /\
   List.map call (llm_requests st')
   = [AnalysisCall 1 (py "cardiology"); AnalysisCall 1 (py "neurology");
      AnalysisCall 1 (py "radiology"); AnalysisCall 2 (py "cardiology");
      AnalysisCall 2 (py "neurology"); AnalysisCall 2 (py "radiology"); DecisionCall] /\
   forallb (fun q => negb (mentions new_finding q)) (llm_requests st') = true /\
   forallb (mentions (medical_record case_context)) (llm_requests st') = true).
Proof. vm_compute. repeat split. Qed.

(** The final summary falls back to the local concatenation only when there
    is no decision agent; a failure of the decision request comes back as
    the summary itself. *)
Lemma final_summary_cases (w : World) (st : Engine) :
  (decision_agent st = None ->
   fst (_generate_final_summary w st)
   = BackupSummary (backup_text (backup_contributions (discussion_log st)))
       (backup_contributions (discussion_log st)) (current_round st)
       (length (backup_contributions (discussion_log st)))) /\
  (forall a e, decision_agent st = Some a -> invoke w DecisionCall = Failure e ->
     fst (_generate_final_summary w st) = FullSummary (DecisionFailed e)) /\
  (forall a text, decision_agent st = Some a -> invoke w DecisionCall = Reply text ->
     fst (_generate_final_summary w st) = FullSummary (DecisionOk text)).
Proof.
  unfold _generate_final_summary, make_final_decision, chat_without_history. simpl.
  split; [intros ->; reflexivity |].
  split; intros a x -> ->; reflexivity.
Qed.

(** C8 on the code.  The decision agent exists and its request fails: the
    returned record carries the failed decision as its clinical summary and
    no backup summary is produced; without a decision agent the same
    discussion returns the local concatenation. *)
Theorem failed_decision_is_the_summary :
  (let '(result, st') :=
     start_discussion (unattended [DecisionCall]) (board false 1 (Some decision_maker)) in
   (exists record,
      result = Completed record /\
      clinical_summary record
      = SummaryDecision (DecisionFailed (py "API调用失败: timeout"))) /\
   logger st' = [LogFinalSummary]) /\
  (let '(result, st') := start_discussion (unattended [DecisionCall]) (board false 1 None) in
   (exists record,
      result = Completed record /\
      clinical_summary record
      = SummaryText (backup_text (backup_contributions (result_discussion_log record)))) /\
   logger st' = [LogFinalSummary; LogBackupSummary]).
Proof.
  split.
  - vm_compute. split; [eexists; split; reflexivity | reflexivity].
  - vm_compute. split; [eexists; split; reflexivity | reflexivity].
Qed.

End TerminalRecord.

(** ** Added information and the requests to the model *)

Section AddedInformation.

Variables w1 w2 : World.
Hypothesis Hw : same_but_information w1 w2.

Lemma view_fields st1 st2 :
  view st1 = view st2 ->
  interface st1 = interface st2 /\ is_running st1 = is_running st2 /\
  current_round st1 = current_round st2 /\ max_rounds st1 = max_rounds st2 /\
  skip_remaining_agents st1 = skip_remaining_agents st2 /\
  user_participation st1 = user_participation st2 /\
  discussion_log st1 = discussion_log st2 /\
  decision_agent st1 = decision_agent st2 /\
  shared_discussion_history st1 = shared_discussion_history st2 /\
  llm_requests st1 = llm_requests st2 /\
  medical_record (medical_context st1) = medical_record (medical_context st2) /\
  mc_question (medical_context st1) = mc_question (medical_context st2) /\
  status (medical_context st1) = status (medical_context st2) /\
  List.map (fun kv => (fst kv, voice (snd kv))) (agents st1)
  = List.map (fun kv => (fst kv, voice (snd kv))) (agents st2).
Proof. unfold view. intros [= H1 H2 H3 H4 H5 H6 H7 H8 H9 H10 H11 H12 H13 H14]. tauto. Qed.

Ltac open_view H :=
  apply view_fields in H; simpl in H;
  destruct H as (?Vi & ?Vrun & ?Vround & ?Vmax & ?Vskip & ?Vpart & ?Vlog & ?Vdec & ?Vhist
                 & ?Vreq & ?Vrec & ?Vq & ?Vstatus & ?Vagents).

Ltac close_view := unfold view; simpl; congruence.

Lemma invoke_same id : invoke w1 id = invoke w2 id.
Proof. apply Hw. Qed.

Lemma set_shared_history_voice hist a1 a2 :
  voice a1 = voice a2 -> set_shared_history hist a1 = set_shared_history hist a2.
Proof.
  unfold voice, static, system_head, set_shared_history, set_messages.
  intros [= Hc Hn Hs Hi Hh]. rewrite Hc, Hn, Hs, Hi.
  destruct (messages a1) as [|m1 ms1], (messages a2) as [|m2 ms2];
    try destruct (role m1) eqn:R1; try destruct (role m2) eqn:R2;
    try discriminate; try reflexivity.
  injection Hh as ->. reflexivity.
Qed.

Lemma voice_update_context info a : voice (update_context info a) = voice a.
Proof.
  unfold voice, system_head, update_context. simpl.
  destruct (messages a); reflexivity.
Qed.

Lemma voices_get st1 st2 name :
  view st1 = view st2 ->
  option_map voice (dict_get name (agents st1)) = option_map voice (dict_get name (agents st2)).
Proof.
  intros V. open_view V. rewrite <- !(dict_get_map voice). rewrite Vagents. reflexivity.
Qed.

Lemma voices_keys st1 st2 : view st1 = view st2 -> keys (agents st1) = keys (agents st2).
Proof.
  intros V. open_view V.
  apply (f_equal (List.map fst)) in Vagents. rewrite !List.map_map in Vagents. exact Vagents.
Qed.

Lemma dict_set_voices name a (d : list (pystr * Agent)) :
  List.map (fun kv => (fst kv, voice (snd kv))) (dict_set name a d)
  = dict_set name (voice a) (List.map (fun kv => (fst kv, voice (snd kv))) d).
Proof.
  induction d as [|[k v] d IH]; simpl; [reflexivity |].
  destruct (str_eqb name k); simpl; [reflexivity | f_equal; exact IH].
Qed.

Lemma respond_same id q ctx record a1 a2 :
  voice a1 = voice a2 ->
  respond_to_user_question w1 id q ctx record a1
  = respond_to_user_question w2 id q ctx record a2.
Proof.
  unfold voice, static. intros [= Hc _ _ Hi _].
  unfold respond_to_user_question. rewrite Hc, Hi, invoke_same. reflexivity.
Qed.

Lemma broadcast_loop_same round_num after q names :
  forall acc st1 st2,
    view st1 = view st2 ->
    fst (broadcast_loop w1 round_num after q names acc st1)
    = fst (broadcast_loop w2 round_num after q names acc st2) /\
    view (snd (broadcast_loop w1 round_num after q names acc st1))
    = view (snd (broadcast_loop w2 round_num after q names acc st2)).
Proof.
  induction names as [|name rest IH]; intros acc st1 st2 V; simpl; [split; [reflexivity | exact V] |].
  pose proof (voices_get st1 st2 name V) as Hv.
  destruct (dict_get name (agents st1)) as [a1|], (dict_get name (agents st2)) as [a2|];
    try discriminate; [| apply IH, V].
  assert (Hvv : voice a1 = voice a2) by (simpl in Hv; congruence).
  clear Hv. rename Hvv into Hv.
  assert (Hctx : _get_current_discussion_context (discussion_log st1)
                 = _get_current_discussion_context (discussion_log st2)).
  { open_view V. congruence. }
  assert (Hrec : medical_record (medical_context st1) = medical_record (medical_context st2)).
  { open_view V. congruence. }
  rewrite Hctx, Hrec, (respond_same _ q _ _ a1 a2 Hv).
  destruct (respond_to_user_question w2 _ q _ _ a2) as [[[text | e] | e] reqs].
  - apply IH. open_view V. close_view.
  - apply IH. open_view V. close_view.
  - simpl. split; [reflexivity |]. open_view V. close_view.
Qed.

(** Steps that the view does not see. *)
Lemma view_record d st : view (snd (record_intervention d st)) = view st.
Proof. reflexivity. Qed.

Lemma view_each_update info st : view (each_agent (update_context info) st) = view st.
Proof.
  unfold view, each_agent. simpl. rewrite List.map_map. simpl.
  f_equal. apply List.map_ext. intros [k a]. simpl.
  rewrite voice_update_context. reflexivity.
Qed.

Lemma view_update_medical_context info st : view (_update_medical_context info st) = view st.
Proof. unfold _update_medical_context. rewrite view_each_update. reflexivity. Qed.

(** Handling added information changes nothing in the view. *)
Lemma handle_information round_num after info st :
  fst (_handle_user_intervention w1 round_num after (add_information info) st) = false /\
  view (snd (_handle_user_intervention w1 round_num after (add_information info) st))
  = view st.
Proof.
  unfold _handle_user_intervention. cbv zeta.
  destruct (truthy info); (split; [reflexivity |]).
  - rewrite view_record, view_each_update, view_update_medical_context. reflexivity.
  - reflexivity.
Qed.

(** The same intervention handled from two engines with the same view. *)
Lemma handle_same round_num after d st1 st2 :
  view st1 = view st2 ->
  fst (_handle_user_intervention w1 round_num after d st1)
  = fst (_handle_user_intervention w2 round_num after d st2) /\
  view (snd (_handle_user_intervention w1 round_num after d st1))
  = view (snd (_handle_user_intervention w2 round_num after d st2)).
Proof.
  intros V. unfold _handle_user_intervention.
  set (s1 := log_event (LogHandling (get_type d)) st1).
  set (s2 := log_event (LogHandling (get_type d)) st2).
  assert (V0 : view s1 = view s2) by (open_view V; close_view).
  clearbody s1 s2. clear V.
  assert (Hctx : _get_current_discussion_context (discussion_log s1)
                 = _get_current_discussion_context (discussion_log s2)).
  { open_view V0. congruence. }
  assert (Hrec : medical_record (medical_context s1) = medical_record (medical_context s2)).
  { open_view V0. congruence. }
  destruct d as [target q | q | info | |].
  - pose proof (voices_get s1 s2 target V0) as Hv.
    destruct (truthy target && truthy q).
    + destruct (dict_get target (agents s1)) as [a1|], (dict_get target (agents s2)) as [a2|];
        try discriminate; [| split; [reflexivity | open_view V0; close_view]].
      assert (Hvv : voice a1 = voice a2) by (simpl in Hv; congruence).
      clear Hv. rename Hvv into Hv.
      rewrite Hctx, Hrec, (respond_same _ q _ _ a1 a2 Hv).
      destruct (respond_to_user_question w2 _ q _ _ a2) as [[ans | e] reqs]; simpl;
        (split; [reflexivity | open_view V0; close_view]).
    + split; [reflexivity | open_view V0; close_view].
  - destruct (truthy q); [| split; [reflexivity | open_view V0; close_view]].
    rewrite (voices_keys s1 s2 V0).
    destruct (broadcast_loop_same round_num after q (keys (agents s2)) [] s1 s2 V0)
      as [Hf Hv].
    destruct (broadcast_loop w1 round_num after q (keys (agents s2)) [] s1) as [o1 t1],
             (broadcast_loop w2 round_num after q (keys (agents s2)) [] s2) as [o2 t2].
    simpl in Hf, Hv. subst o2.
    assert (Hlen : length (discussion_log s1) = length (discussion_log s2)).
    { open_view V0. congruence. }
    rewrite Hlen.
    destruct o1 as [contribs | e]; simpl;
      (split; [reflexivity | open_view Hv; close_view]).
  - destruct (truthy info).
    + split; [reflexivity |].
      rewrite !view_record, !view_each_update, !view_update_medical_context. exact V0.
    + split; [reflexivity | open_view V0; close_view].
  - split; [reflexivity | open_view V0; close_view].
  - split; [reflexivity | open_view V0; close_view].
Qed.

Lemma analyze_same id text hist sp a :
  analyze_clinical_case w1 id text hist sp a = analyze_clinical_case w2 id text hist sp a.
Proof. unfold analyze_clinical_case, chat. rewrite invoke_same. reflexivity. Qed.

Lemma view_put_agent name a st1 st2 :
  view st1 = view st2 -> view (put_agent name a st1) = view (put_agent name a st2).
Proof.
  intros V. open_view V. unfold view. simpl. rewrite !dict_set_voices, Vagents. congruence.
Qed.

Lemma view_add_requests reqs st1 st2 :
  view st1 = view st2 -> view (add_requests reqs st1) = view (add_requests reqs st2).
Proof. intros V. open_view V. close_view. Qed.

Lemma view_add_to_shared_history name text st1 st2 :
  view st1 = view st2 ->
  view (_add_to_shared_history name text st1) = view (_add_to_shared_history name text st2).
Proof. intros V. open_view V. close_view. Qed.

Lemma view_participation st1 st2 :
  view st1 = view st2 -> user_participation st1 = user_participation st2.
Proof. intros V. open_view V. exact Vpart. Qed.

(** One turn in the two worlds. *)
Lemma agent_turn_same round_num hist name a1 a2 contribs st1 st2 :
  view st1 = view st2 -> voice a1 = voice a2 ->
  fst (fst (agent_turn w1 round_num hist name a1 contribs st1))
  = fst (fst (agent_turn w2 round_num hist name a2 contribs st2)) /\
  snd (agent_turn w1 round_num hist name a1 contribs st1)
  = snd (agent_turn w2 round_num hist name a2 contribs st2) /\
  view (snd (fst (agent_turn w1 round_num hist name a1 contribs st1)))
  = view (snd (fst (agent_turn w2 round_num hist name a2 contribs st2))).
Proof.
  intros V Hv. unfold agent_turn.
  rewrite (set_shared_history_voice hist a1 a2 Hv).
  assert (Hrec : medical_record (medical_context st1) = medical_record (medical_context st2)).
  { open_view V. congruence. }
  rewrite Hrec, analyze_same.
  destruct (analyze_clinical_case w2 _ _ hist _ _) as [[[result | e] a'] reqs].
  - match goal with
    |- context [_get_blocking_user_intervention w1 round_num name ?s1] =>
      match goal with
      |- context [_get_blocking_user_intervention w2 round_num name ?s2] =>
        assert (V2 : view s1 = view s2)
          by (apply view_add_to_shared_history, view_add_requests, view_put_agent, V);
        generalize dependent s1; generalize dependent s2
      end
    end.
    intros s2 s1 V2.
    unfold _get_blocking_user_intervention.
    rewrite (view_participation s1 s2 V2).
    destruct (negb (user_participation s2)); [repeat split; exact V2 |].
    destruct Hw as (_ & _ & Hop).
    destruct (Hop round_num name) as [Heq | (info & H1 & H2)].
    + rewrite Heq. destruct (operator w2 round_num name) as [d|]; [| repeat split; exact V2].
      destruct (handle_same round_num name d s1 s2 V2) as [Hf Hview].
      destruct (_handle_user_intervention w1 round_num name d s1) as [l1 t1],
               (_handle_user_intervention w2 round_num name d s2) as [l2 t2].
      simpl in Hf, Hview |- *. subst l2. repeat split. exact Hview.
    + rewrite H1, H2.
      destruct (handle_information round_num name info s1) as [Hf Hview].
      destruct (_handle_user_intervention w1 round_num name (add_information info) s1)
        as [l1 t1].
      simpl in Hf, Hview |- *. subst l1. repeat split. congruence.
  - simpl. repeat split.
    pose proof (view_add_requests reqs _ _ (view_put_agent name a' st1 st2 V)) as V2.
    open_view V2. close_view.
Qed.

Lemma agents_loop_same round_num hist names :
  forall contribs st1 st2,
    view st1 = view st2 ->
    fst (agents_loop w1 round_num hist names contribs st1)
    = fst (agents_loop w2 round_num hist names contribs st2) /\
    view (snd (agents_loop w1 round_num hist names contribs st1))
    = view (snd (agents_loop w2 round_num hist names contribs st2)).
Proof.
  induction names as [|name rest IH]; intros contribs st1 st2 V; simpl;
    [split; [reflexivity | exact V] |].
  assert (Hk : skip_remaining_agents st1 = skip_remaining_agents st2).
  { open_view V. exact Vskip. }
  rewrite Hk. destruct (skip_remaining_agents st2).
  { split; [reflexivity |]. open_view V. close_view. }
  pose proof (voices_get st1 st2 name V) as Hv.
  destruct (dict_get name (agents st1)) as [a1|], (dict_get name (agents st2)) as [a2|];
    try discriminate; [| apply IH, V].
  assert (Hvv : voice a1 = voice a2) by (simpl in Hv; congruence).
  destruct (agent_turn_same round_num hist name a1 a2 contribs st1 st2 V Hvv)
    as (Hc & Hl & Hview).
  destruct (agent_turn w1 round_num hist name a1 contribs st1) as [[c1 t1] l1],
           (agent_turn w2 round_num hist name a2 contribs st2) as [[c2 t2] l2].
  simpl in Hc, Hl, Hview. subst c2 l2.
  destruct l1; [split; [reflexivity | exact Hview] | apply IH, Hview].
Qed.

Lemma round_same round_num st1 st2 :
  view st1 = view st2 ->
  fst (_execute_discussion_round w1 round_num st1)
  = fst (_execute_discussion_round w2 round_num st2) /\
  view (snd (_execute_discussion_round w1 round_num st1))
  = view (snd (_execute_discussion_round w2 round_num st2)).
Proof.
  intros V. unfold _execute_discussion_round.
  set (s1 := set_skip_remaining_agents false st1).
  set (s2 := set_skip_remaining_agents false st2).
  assert (V0 : view s1 = view s2) by (open_view V; close_view).
  clearbody s1 s2.
  assert (Hh : _get_current_discussion_context (discussion_log s1)
               = _get_current_discussion_context (discussion_log s2)).
  { pose proof V0 as V0'. open_view V0'. congruence. }
  rewrite Hh, (voices_keys s1 s2 V0).
  destruct (agents_loop_same round_num
              (_get_current_discussion_context (discussion_log s2))
              (keys (agents s2)) [] s1 s2 V0) as [Hc Hview].
  destruct (agents_loop w1 round_num _ (keys (agents s2)) [] s1) as [c1 t1],
           (agents_loop w2 round_num _ (keys (agents s2)) [] s2) as [c2 t2].
  simpl in Hc, Hview |- *. subst c2. split; [reflexivity | exact Hview].
Qed.

Lemma check_same st1 st2 :
  view st1 = view st2 ->
  fst (_check_user_intervention st1) = fst (_check_user_intervention st2) /\
  view (snd (_check_user_intervention st1)) = view (snd (_check_user_intervention st2)).
Proof.
  intros V. unfold _check_user_intervention.
  pose proof V as V'. open_view V'. rewrite Vpart, Vi.
  destruct (negb (user_participation st2)); [split; [reflexivity | exact V] |].
  destruct (has_user_input (interface st2)); simpl; (split; [reflexivity | exact V]).
Qed.

Lemma rounds_loop_same rs :
  forall st1 st2,
    view st1 = view st2 ->
    fst (rounds_loop w1 rs st1) = fst (rounds_loop w2 rs st2) /\
    view (snd (rounds_loop w1 rs st1)) = view (snd (rounds_loop w2 rs st2)).
Proof.
  induction rs as [|r rs IH]; intros st1 st2 V; simpl; [split; [reflexivity | exact V] |].
  assert (Hrun : is_running st1 = is_running st2) by (pose proof V as V'; open_view V'; exact Vrun).
  rewrite Hrun. destruct (is_running st2); simpl.
  - assert (V0 : view (set_current_round r st1) = view (set_current_round r st2)).
    { pose proof V as V'. open_view V'. close_view. }
    destruct (round_same r _ _ V0) as [Hr Hview].
    destruct (_execute_discussion_round w1 r (set_current_round r st1)) as [r1 t1],
             (_execute_discussion_round w2 r (set_current_round r st2)) as [r2 t2].
    simpl in Hr, Hview. subst r2.
    assert (V1 : view (set_discussion_log (discussion_log t1 ++ [r1]) t1)
                 = view (set_discussion_log (discussion_log t2 ++ [r1]) t2)).
    { open_view Hview. close_view. }
    destruct (check_same _ _ V1) as [Hb Hv2].
    destruct (_check_user_intervention (set_discussion_log (discussion_log t1 ++ [r1]) t1))
      as [b1 u1],
      (_check_user_intervention (set_discussion_log (discussion_log t2 ++ [r1]) t2))
      as [b2 u2].
    simpl in Hb, Hv2. subst b2.
    destruct b1; [split; [reflexivity | exact Hv2] | apply IH, Hv2].
  - split; [reflexivity |]. pose proof V as V'. open_view V'. close_view.
Qed.

Lemma decision_same log mc1 mc2 a :
  medical_record mc1 = medical_record mc2 ->
  mc_question mc1 = mc_question mc2 ->
  make_final_decision w1 log mc1 a = make_final_decision w2 log mc2 a.
Proof.
  intros H1 H2. destruct Hw as (Hi & Hd & _).
  unfold make_final_decision, _build_decision_message, chat_without_history.
  rewrite H1, H2, Hd, Hi. reflexivity.
Qed.

Lemma final_summary_same st1 st2 :
  view st1 = view st2 ->
  fst (_generate_final_summary w1 st1) = fst (_generate_final_summary w2 st2) /\
  view (snd (_generate_final_summary w1 st1)) = view (snd (_generate_final_summary w2 st2)).
Proof.
  intros V. unfold _generate_final_summary. cbv zeta.
  assert (Vt : view (log_event LogFinalSummary st1) = view (log_event LogFinalSummary st2)).
  { pose proof V as V'. open_view V'. close_view. }
  set (t1 := log_event LogFinalSummary st1) in *.
  set (t2 := log_event LogFinalSummary st2) in *.
  clearbody t1 t2. pose proof Vt as V'. open_view V'. rewrite Vdec.
  destruct (decision_agent t2) as [a|] eqn:Hdec.
  - rewrite Vlog, (decision_same (discussion_log t2) _ (medical_context t2) a Vrec Vq).
    destruct (make_final_decision w2 (discussion_log t2) (medical_context t2) a) as [d reqs].
    cbn [fst snd]. split; [reflexivity | close_view].
  - unfold _generate_backup_summary. cbv zeta. cbn [fst snd]. rewrite Vlog, Vround.
    split; [reflexivity | close_view].
Qed.

(** For every world and every engine: replacing interventions that add
    information by no intervention changes neither the requests sent to the
    model, nor the log, nor the result (its recorded interventions apart). *)
Lemma added_information_changes_nothing (st : Engine) :
  outcome_of (fst (start_discussion w1 st)) = outcome_of (fst (start_discussion w2 st)) /\
  llm_requests (snd (start_discussion w1 st)) = llm_requests (snd (start_discussion w2 st)) /\
  discussion_log (snd (start_discussion w1 st))
  = discussion_log (snd (start_discussion w2 st)).
Proof.
  unfold start_discussion.
  set (st0 := set_current_round 0 (set_is_running true st)).
  destruct (rounds_loop_same (seq 1 (max_rounds st0)) st0 st0 eq_refl) as [Ho V].
  destruct (rounds_loop w1 (seq 1 (max_rounds st0)) st0) as [o1 t1],
           (rounds_loop w2 (seq 1 (max_rounds st0)) st0) as [o2 t2].
  simpl in Ho, V. subst o2.
  destruct o1 as [[] | e].
  - pose proof V as V'. open_view V'. rewrite Vrun.
    destruct (is_running t2).
    + destruct (final_summary_same t1 t2 V) as [Hs Hv].
      destruct (_generate_final_summary w1 t1) as [s1 u1],
               (_generate_final_summary w2 t2) as [s2 u2].
      simpl in Hs, Hv. subst s2. open_view Hv. simpl.
      repeat split; congruence.
    + simpl. repeat split; congruence.
  - pose proof V as V'. open_view V'. simpl. repeat split; congruence.
Qed.

End AddedInformation.

(** ** The theorems at work *)

Section Instances.

Lemma names_distinct (a b c : string) :
  str_eqb (py a) (py b) = false -> str_eqb (py a) (py c) = false ->
  str_eqb (py b) (py c) = false ->
  List.NoDup [py a; py b; py c].
Proof.
  intros Hab Hac Hbc.
  assert (Hneq : forall x y : pystr, str_eqb x y = false -> x <> y).
  { intros x y H ->. rewrite str_eqb_refl in H. discriminate. }
  apply List.NoDup_cons.
  { intros [H | [H | []]]; [exact (Hneq _ _ Hab (eq_sym H)) | exact (Hneq _ _ Hac (eq_sym H))]. }
  apply List.NoDup_cons.
  { intros [H | []]. exact (Hneq _ _ Hbc (eq_sym H)). }
  apply List.NoDup_cons; [intros [] | apply List.NoDup_nil].
Qed.

Lemma board_distinct :
  List.NoDup [py "cardiology"; py "neurology"; py "radiology"].
Proof. apply names_distinct; reflexivity. Qed.


(** The session store of the instances has a timeout of one hour. *)
Lemma one_session_float_exact : float_exact one_session.
Proof. reflexivity. Qed.

(** The boundary of the lease, one microsecond on either side of the hour. *)
Lemma validate_session_boundary :
  float_exact one_session /\
  accepts 3599999999 "s1" one_session = true /\
  accepts 3600000001 "s1" one_session = false.
Proof.
  pose proof (validate_session_sliding_expiration 3599999999 "s1" one_session
                one_session_float_exact) as (_ & Hin & _).
  pose proof (validate_session_sliding_expiration 3600000001 "s1" one_session
                one_session_float_exact) as (_ & Hout & _).
  split; [exact one_session_float_exact |]. split.
  - apply (Hin (Session.mkSessionData "s1" "alice" 0 0 [] [] []) 1);
      [reflexivity | lia | reflexivity].
  - apply (Hout (Session.mkSessionData "s1" "alice" 0 0 [] [] []) 1);
      [reflexivity | lia | reflexivity].
Defined.


Lemma expired_session_is_removed :
  Session.get_session_data "s1" (after_validate 3600000001 "s1" one_session) = None.
Proof.
  apply (validate_session_expired_removes 3600000001 "s1" one_session
           (Session.mkSessionData "s1" "alice" 0 0 [] [] []) one_session_float_exact);
    [reflexivity |].
  unfold timeout_us, inactivity. simpl. lia.
Defined.


Lemma stays_at_cardiology (w : World) (participation : bool) :
  operator w 1 (py "cardiology") = None ->
  stays w (board participation 2 (Some decision_maker)) 1 [py "cardiology"].
Proof.
  intros Hop name d s [<- | []] _ _ Hb.
  unfold _get_blocking_user_intervention in Hb. rewrite Hop in Hb.
  destruct (negb _); discriminate.
Qed.

(** The operator terminates round 1 of 2 after the second specialist: the
    result reports 2 as the rounds completed, while the log holds round 1
    alone, with the entries of the first two specialists. *)
Lemma interrupt_after_second_of_three_run :
  exists st',
    start_discussion terminating (board true 2 (Some decision_maker))
    = (Interrupted 2, st') /\
    is_running st' = false /\
    normal_rounds (discussion_log st') = [1%nat] /\
    List.map (fun r => List.map agent (contributions r)) (discussion_log st')
    = [[py "cardiology"; py "neurology"]].
Proof.
  destruct (interrupt_after_second_of_three terminating
              (board true 2 (Some decision_maker))
              (py "cardiology") (snd (specialist "cardiology"))
              (py "neurology") (snd (specialist "neurology"))
              (py "radiology") (snd (specialist "radiology"))
              eq_refl board_distinct eq_refl (le_S 1 1 (le_n 1))
              (stays_at_cardiology terminating true eq_refl) eq_refl)
    as (st' & bs & round1 & reqs & H1 & _ & H3 & _).
  exists st'. split; [exact H1 |]. split; [exact H3 |].
  assert (E : st' = snd (start_discussion terminating (board true 2 (Some decision_maker))))
    by (rewrite H1; reflexivity).
  rewrite E. split; vm_compute; reflexivity.
Defined.





End Instances.

(** ** The session store: sweep, life cycle and payloads *)

Section SessionLifecycle.
Import Session SessionStore.

Implicit Types (h : SessionHandler) (d : SessionData) (sid uid : string) (now : datetime).

Lemma accepts_live now sid h d :
  active_sessions h !! sid = Some d ->
  (accepts now sid h = true <-> inactivity now d <= timeout_us h).
Proof.
  intros E. unfold accepts, validate_session. rewrite E.
  destruct (timed_out now d h) eqn:T; simpl.
  - apply timed_out_true in T. split; [discriminate | lia].
  - apply timed_out_false in T. split; [intros _; exact T | reflexivity].
Qed.

Lemma accepts_unknown now sid h :
  active_sessions h !! sid = None -> accepts now sid h = false.
Proof. intros E. unfold accepts. rewrite (validate_unknown _ _ _ E). reflexivity. Qed.

Lemma handler_eq h1 h2 :
  session_timeout h1 = session_timeout h2 -> active_sessions h1 = active_sessions h2 ->
  h1 = h2.
Proof. destruct h1, h2. simpl. intros -> ->. reflexivity. Qed.

Lemma cleanup_lookup now sid h :
  active_sessions (_cleanup_expired_sessions now h) !! sid
  = match active_sessions h !! sid with
    | Some d => if timed_out now d h then None else Some d
    | None => None
    end.
Proof.
  unfold _cleanup_expired_sessions. simpl.
  destruct (active_sessions h !! sid) as [d|] eqn:E.
  - destruct (timed_out now d h) eqn:T.
    + apply map_lookup_filter_None. right. intros d' E' HP. simpl in HP.
      rewrite E in E'. injection E' as <-. congruence.
    + apply map_lookup_filter_Some. split; [exact E | exact T].
  - apply map_lookup_filter_None. left. exact E.
Qed.

(** X1.  One sweep of the cleanup thread removes the sessions whose inactivity
    exceeds the timeout and no other; a session that stays is not touched
    (its lease is not extended); what stays is accepted by
    [validate_session] at the time of the sweep; a second sweep at that time
    changes nothing.
    The timeout is one for which the comparison of the microseconds is
    that of the code ([float_exact]). *)
Theorem cleanup_removes_exactly_expired now h :
  float_exact h ->
  session_timeout (_cleanup_expired_sessions now h) = session_timeout h /\
  (forall sid,
     get_session_data sid (_cleanup_expired_sessions now h)
     = match get_session_data sid h with
       | Some d => if timed_out now d h then None else Some d
       | None => None
       end) /\
  (forall sid d,
     get_session_data sid h = Some d ->
     (get_session_data sid (_cleanup_expired_sessions now h) = None
      <-> timeout_us h < inactivity now d) /\
     (get_session_data sid (_cleanup_expired_sessions now h) = Some d
      <-> inactivity now d <= timeout_us h)) /\
  (forall sid,
     is_Some (get_session_data sid (_cleanup_expired_sessions now h)) ->
     accepts now sid (_cleanup_expired_sessions now h) = true) /\
  _cleanup_expired_sessions now (_cleanup_expired_sessions now h)
  = _cleanup_expired_sessions now h.
Proof.
  intros _. split; [reflexivity |]. split; [intros sid; apply cleanup_lookup |].
  split; [| split].
  - intros sid d E. unfold get_session_data in *. rewrite cleanup_lookup, E.
    destruct (timed_out now d h) eqn:T.
    + apply timed_out_true in T. split; split; try reflexivity; try discriminate;
        try (intros _; exact T); lia.
    + apply timed_out_false in T. split; split; try reflexivity; try discriminate;
        try (intros _; exact T); lia.
  - intros sid [d E]. unfold get_session_data in E.
    apply (accepts_live now sid _ d E).
    rewrite cleanup_lookup in E.
    destruct (active_sessions h !! sid) as [d0|]; [| discriminate].
    destruct (timed_out now d0 h) eqn:T; [discriminate |].
    injection E as <-. apply timed_out_false in T. exact T.
  - apply handler_eq; [reflexivity |]. apply map_eq. intros sid.
    rewrite cleanup_lookup.
    destruct (active_sessions (_cleanup_expired_sessions now h) !! sid) as [d|] eqn:E;
      [| reflexivity].
    rewrite cleanup_lookup in E.
    destruct (active_sessions h !! sid) as [d0|]; [| discriminate].
    destruct (timed_out now d0 h) eqn:T; [discriminate |].
    injection E as <-.
    change (timed_out now d0 (_cleanup_expired_sessions now h)) with (timed_out now d0 h).
    rewrite T. reflexivity.
Qed.

(** X2.  A sweep cannot be observed through [validate_session]: at any later
    time the answer, and the session stored afterwards, are what they would
    be had the sweep not happened. *)
Theorem cleanup_invisible_to_validate now now' sid h :
  now <= now' ->
  fst (validate_session now' sid (_cleanup_expired_sessions now h))
  = fst (validate_session now' sid h) /\
  get_session_data sid (after_validate now' sid (_cleanup_expired_sessions now h))
  = get_session_data sid (after_validate now' sid h).
Proof.
  intros Hle. unfold after_validate, get_session_data.
  destruct (active_sessions h !! sid) as [d|] eqn:E.
  - destruct (timed_out now d h) eqn:T.
    + assert (Hx : timeout_us h < inactivity now' d).
      { apply timed_out_true in T. unfold inactivity in *. lia. }
      assert (E' : active_sessions (_cleanup_expired_sessions now h) !! sid = None)
        by (rewrite cleanup_lookup, E, T; reflexivity).
      rewrite (validate_expired now' sid h d E Hx), (validate_unknown now' sid _ E').
      cbn [fst snd active_sessions]. rewrite E', lookup_delete_eq. split; reflexivity.
    + assert (E' : active_sessions (_cleanup_expired_sessions now h) !! sid = Some d)
        by (rewrite cleanup_lookup, E, T; reflexivity).
      unfold validate_session. rewrite E, E'.
      change (timed_out now' d (_cleanup_expired_sessions now h)) with (timed_out now' d h).
      destruct (timed_out now' d h); cbn [fst snd active_sessions].
      * rewrite !lookup_delete_eq. split; reflexivity.
      * rewrite !lookup_insert_eq. split; reflexivity.
  - assert (E' : active_sessions (_cleanup_expired_sessions now h) !! sid = None)
      by (rewrite cleanup_lookup, E; reflexivity).
    rewrite (validate_unknown now' sid h E), (validate_unknown now' sid _ E').
    cbn [fst snd]. rewrite E, E'. split; reflexivity.
Qed.

(** X3.  [update_session_activity] makes no timeout test: it succeeds on every
    stored session, expired or not, and restarts its lease, so that a session
    which [validate_session] would have dropped is accepted again.
    The timeout is one for which the comparison of the microseconds is
    that of the code ([float_exact]). *)
Theorem update_session_activity_restarts_lease now sid h :
  float_exact h ->
  (forall d,
     active_sessions h !! sid = Some d ->
     fst (update_session_activity now sid h) = true /\
     get_session_data sid (snd (update_session_activity now sid h))
     = Some (set_last_activity now d) /\
     (forall now', accepts now' sid (snd (update_session_activity now sid h)) = true
                   <-> now' - now <= timeout_us h) /\
     (forall sid', sid' <> sid ->
        get_session_data sid' (snd (update_session_activity now sid h))
        = get_session_data sid' h)) /\
  (active_sessions h !! sid = None -> update_session_activity now sid h = (false, h)).
Proof.
  intros _. unfold update_session_activity. split.
  - intros d E. rewrite E. simpl. unfold get_session_data. simpl.
    split; [reflexivity |]. split; [apply lookup_insert_eq |]. split.
    + intros now'.
      rewrite (accepts_live now' sid _ (set_last_activity now d));
        [reflexivity | apply lookup_insert_eq].
    + intros sid' Hne. apply lookup_insert_ne. congruence.
  - intros E. rewrite E. reflexivity.
Qed.

(** X4.  A created session is stored under its identifier with both time stamps
    at the creation time and empty payloads, replacing whatever the
    identifier held; the other sessions are untouched; it is listed among
    the sessions of its user and accepted until its inactivity exceeds the
    timeout.
    The timeout is one for which the comparison of the microseconds is
    that of the code ([float_exact]). *)
Theorem create_session_then_validate sid now uid prefs h :
  float_exact h ->
  fst (create_session sid now uid prefs h) = sid /\
  get_session_data sid (snd (create_session sid now uid prefs h))
  = Some (mkSessionData sid uid now now [] [] prefs) /\
  (forall sid', sid' <> sid ->
     get_session_data sid' (snd (create_session sid now uid prefs h))
     = get_session_data sid' h) /\
  (forall now', accepts now' sid (snd (create_session sid now uid prefs h)) = true
                <-> now' - now <= timeout_us h) /\
  In sid (get_user_sessions uid (snd (create_session sid now uid prefs h))).
Proof.
  intros _. unfold create_session, get_session_data. simpl.
  split; [reflexivity |]. split; [apply lookup_insert_eq |]. split; [| split].
  - intros sid' Hne. apply lookup_insert_ne. congruence.
  - intros now'.
    rewrite (accepts_live now' sid _ (mkSessionData sid uid now now [] [] prefs));
      [reflexivity | apply lookup_insert_eq].
  - unfold get_user_sessions. simpl.
    apply in_map_iff. exists (sid, mkSessionData sid uid now now [] [] prefs).
    split; [reflexivity |]. apply filter_In. split.
    + apply list_elem_of_In, elem_of_map_to_list, lookup_insert_eq.
    + simpl. apply String.eqb_refl.
Qed.

(** X5.  [destroy_session] succeeds exactly on a stored session; afterwards the
    identifier is unknown, whatever the lease was: a second call fails and
    [validate_session] rejects; the other sessions are untouched. *)
Theorem destroy_session_forgets sid h :
  (fst (destroy_session sid h) = true <-> is_Some (get_session_data sid h)) /\
  get_session_data sid (snd (destroy_session sid h)) = None /\
  (forall sid', sid' <> sid ->
     get_session_data sid' (snd (destroy_session sid h)) = get_session_data sid' h) /\
  destroy_session sid (snd (destroy_session sid h)) = (false, snd (destroy_session sid h)) /\
  (forall now,
     validate_session now sid (snd (destroy_session sid h))
     = ((false, None), snd (destroy_session sid h))).
Proof.
  unfold destroy_session, get_session_data.
  destruct (active_sessions h !! sid) as [d|] eqn:E; simpl.
  - split; [split; [intros _; eexists; reflexivity | reflexivity] |].
    split; [apply lookup_delete_eq |]. split; [| split].
    + intros sid' Hne. apply lookup_delete_ne. congruence.
    + rewrite lookup_delete_eq. reflexivity.
    + intros now. apply validate_unknown. simpl. apply lookup_delete_eq.
  - split; [split; [discriminate | intros [x Hx]; discriminate] |].
    split; [exact E |]. split; [reflexivity |]. split.
    + rewrite E. reflexivity.
    + intros now. apply validate_unknown, E.
Qed.

(** *** Payloads *)

Lemma payload_get_set_eq k v (l : list (string * string)) :
  payload_get k (payload_set k v l) = Some v.
Proof.
  induction l as [|[k' v'] l IH]; simpl.
  - rewrite String.eqb_refl. reflexivity.
  - destruct (String.eqb k k') eqn:Ek; simpl; rewrite Ek; [reflexivity | exact IH].
Qed.

Lemma payload_get_set_ne k k' v (l : list (string * string)) :
  k' <> k -> payload_get k' (payload_set k v l) = payload_get k' l.
Proof.
  intros Hne. induction l as [|[k0 v0] l IH]; simpl.
  - destruct (String.eqb k' k) eqn:Ek; [apply String.eqb_eq in Ek; contradiction | reflexivity].
  - destruct (String.eqb k k0) eqn:Ek; simpl.
    + apply String.eqb_eq in Ek. subst k0.
      destruct (String.eqb k' k) eqn:Ek'; [apply String.eqb_eq in Ek'; contradiction |].
      reflexivity.
    + rewrite IH. reflexivity.
Qed.

Lemma payload_set_keys k v (l : list (string * string)) :
  exists more,
    List.map fst (payload_set k v l) = List.map fst l ++ more /\
    (payload_get k l = None -> more = [k]) /\
    (is_Some (payload_get k l) -> more = []).
Proof.
  induction l as [|[k0 v0] l IH]; simpl.
  - exists [k]. split; [reflexivity |]. split; [reflexivity | intros [x Hx]; discriminate].
  - destruct (String.eqb k k0) eqn:Ek; simpl.
    + exists []. rewrite app_nil_r. split; [reflexivity |].
      split; [discriminate | reflexivity].
    + destruct IH as (more & H1 & H2 & H3). exists more.
      split; [rewrite H1; reflexivity | split; assumption].
Qed.

Lemma payload_update_get k (other l : list (string * string)) :
  payload_get k (payload_update l other)
  = match payload_get k (rev other) with
    | Some v => Some v
    | None => payload_get k l
    end.
Proof.
  unfold payload_update. revert l.
  induction other as [|[k0 v0] other IH] using rev_ind; intros l; [reflexivity |].
  rewrite fold_left_app, rev_app_distr. simpl.
  destruct (String.eqb k k0) eqn:Ek.
  - apply String.eqb_eq in Ek. subst k0. apply payload_get_set_eq.
  - rewrite payload_get_set_ne; [apply IH |].
    intros ->. rewrite String.eqb_refl in Ek. discriminate.
Qed.

Lemma payload_update_keys (other l : list (string * string)) :
  exists more, List.map fst (payload_update l other) = List.map fst l ++ more.
Proof.
  unfold payload_update. revert l.
  induction other as [|[k0 v0] other IH]; intros l; simpl.
  - exists []. rewrite app_nil_r. reflexivity.
  - destruct (IH (payload_set k0 v0 l)) as (more & H).
    destruct (payload_set_keys k0 v0 l) as (m0 & H0 & _).
    exists (m0 ++ more). rewrite H, H0, app_assoc. reflexivity.
Qed.

Lemma payload_del_fresh k v (l : list (string * string)) :
  payload_get k l = None -> payload_del k (payload_set k v l) = l.
Proof.
  induction l as [|[k0 v0] l IH]; simpl; intros Hn.
  - rewrite String.eqb_refl. reflexivity.
  - destruct (String.eqb k k0) eqn:Ek; [discriminate |]. simpl. rewrite Ek, IH; auto.
Qed.

Lemma payload_get_none_keys k (l : list (string * string)) :
  payload_get k l = None <-> ~ In k (List.map fst l).
Proof.
  induction l as [|[k0 v0] l IH]; simpl; [tauto |].
  destruct (String.eqb k k0) eqn:Ek.
  - apply String.eqb_eq in Ek. subst k0. split; [discriminate | intros H; exfalso; auto].
  - rewrite IH. split; [| tauto].
    intros H [-> | Hin]; [rewrite String.eqb_refl in Ek; discriminate | auto].
Qed.

Lemma payload_del_get k (l : list (string * string)) :
  List.NoDup (List.map fst l) -> payload_get k (payload_del k l) = None.
Proof.
  induction l as [|[k0 v0] l IH]; simpl; intros Hnd; [reflexivity |].
  apply NoDup_cons_iff in Hnd as [Hx Hnd].
  destruct (String.eqb k k0) eqn:Ek.
  - apply String.eqb_eq in Ek. subst k0. apply payload_get_none_keys, Hx.
  - simpl. rewrite Ek. apply IH, Hnd.
Qed.

Lemma payload_set_nodup k v (l : list (string * string)) :
  List.NoDup (List.map fst l) -> List.NoDup (List.map fst (payload_set k v l)).
Proof.
  intros Hnd. destruct (payload_set_keys k v l) as (more & H1 & H2 & H3). rewrite H1.
  destruct (payload_get k l) as [x|] eqn:E.
  - rewrite (H3 (ex_intro _ x eq_refl)), app_nil_r. exact Hnd.
  - rewrite (H2 eq_refl). apply payload_get_none_keys in E.
    revert Hnd E. generalize (List.map fst l). intros ks.
    induction ks as [|k0 ks IH]; simpl; intros Hnd E.
    + apply List.NoDup_cons; [intros [] | exact Hnd].
    + apply NoDup_cons_iff in Hnd as [Hx Hnd]. apply List.NoDup_cons.
      * intros Hin. apply in_app_or in Hin as [Hin | [<- | []]]; [auto | apply E; auto].
      * apply IH; [exact Hnd | intros Hin; apply E; auto].
Qed.

Lemma validated_live now sid h d :
  active_sessions h !! sid = Some d ->
  inactivity now d <= timeout_us h ->
  validated now sid h = (Some (set_last_activity now d), store sid (set_last_activity now d) h).
Proof.
  intros E Hle. unfold validated. rewrite (validate_live now sid h d E Hle). reflexivity.
Qed.

Lemma validated_dead now sid h :
  accepts now sid h = false ->
  validated now sid h = (None, after_validate now sid h) /\
  get_session_data sid (after_validate now sid h) = None.
Proof.
  unfold accepts, after_validate, validated, validate_session, get_session_data.
  destruct (active_sessions h !! sid) as [d|] eqn:E; simpl.
  - destruct (timed_out now d h); simpl; [| discriminate].
    intros _. split; [reflexivity | apply lookup_delete_eq].
  - intros _. split; [reflexivity | exact E].
Qed.

Lemma store_lookup sid d h : active_sessions (store sid d h) !! sid = Some d.
Proof. apply lookup_insert_eq. Qed.

Lemma store_store sid d d' h : store sid d' (store sid d h) = store sid d' h.
Proof. unfold store. simpl. f_equal. apply insert_insert_eq. Qed.

(** X6.  On a session that [validate_session] rejects, unknown or expired, every
    accessor fails ([False], or the empty dictionary for the two readers)
    and leaves the store as [validate_session] leaves it: an expired session
    is deleted by the attempt. *)
Theorem accessors_reject_dead_sessions now sid h name entry new_data :
  accepts now sid h = false ->
  add_custom_agent now sid name entry h = (false, after_validate now sid h) /\
  get_custom_agents now sid h = ([], after_validate now sid h) /\
  remove_custom_agent now sid name h = (false, after_validate now sid h) /\
  update_discussion_data now sid new_data h = (false, after_validate now sid h) /\
  get_discussion_data now sid h = ([], after_validate now sid h) /\
  clear_discussion_data now sid h = (false, after_validate now sid h) /\
  get_session_data sid (after_validate now sid h) = None.
Proof.
  intros Hdead. destruct (validated_dead now sid h Hdead) as [Hv Hgone].
  unfold add_custom_agent, get_custom_agents, remove_custom_agent, update_discussion_data,
    get_discussion_data, clear_discussion_data.
  rewrite Hv. repeat split; exact Hgone.
Qed.

(** X7.  On a live session [update_discussion_data] merges the new entries into
    the stored dictionary: read back with [get_discussion_data] within the
    lease, every key holds its new value when the update names it (the last
    one given) and its old value otherwise, and the old keys keep their
    places; the read itself extends the lease and leaves the other fields
    alone; after [clear_discussion_data] the dictionary read is empty. *)
Theorem discussion_data_update_then_get t1 t2 t3 sid new_data h d :
  active_sessions h !! sid = Some d ->
  inactivity t1 d <= timeout_us h ->
  t2 - t1 <= timeout_us h ->
  t3 - t2 <= timeout_us h ->
  let h1 := snd (update_discussion_data t1 sid new_data h) in
  fst (update_discussion_data t1 sid new_data h) = true /\
  (forall k,
     payload_get k (fst (get_discussion_data t2 sid h1))
     = match payload_get k (rev new_data) with
       | Some v => Some v
       | None => payload_get k (discussion_data d)
       end) /\
  (exists more,
     List.map fst (fst (get_discussion_data t2 sid h1))
     = List.map fst (discussion_data d) ++ more) /\
  get_session_data sid (snd (get_discussion_data t2 sid h1))
  = Some (set_last_activity t2
            (set_discussion_data (payload_update (discussion_data d) new_data) d)) /\
  fst (clear_discussion_data t2 sid h1) = true /\
  fst (get_discussion_data t3 sid (snd (clear_discussion_data t2 sid h1))) = [].
Proof.
  intros E H1 H2 H3. simpl.
  unfold update_discussion_data. rewrite (validated_live t1 sid h d E H1). simpl.
  set (d1 := set_discussion_data (payload_update (discussion_data d) new_data)
               (set_last_activity t1 d)).
  set (h1 := store sid d1 (store sid (set_last_activity t1 d) h)).
  assert (E1 : active_sessions h1 !! sid = Some d1) by apply store_lookup.
  assert (L1 : inactivity t2 d1 <= timeout_us h1) by exact H2.
  unfold get_discussion_data, clear_discussion_data.
  rewrite (validated_live t2 sid h1 d1 E1 L1). simpl.
  split; [reflexivity |]. split; [intros k; apply payload_update_get |].
  split; [apply payload_update_keys |].
  split; [unfold get_session_data; rewrite store_lookup; reflexivity |].
  split; [reflexivity |].
  set (d2 := set_discussion_data [] (set_last_activity t2 d1)).
  set (h2 := store sid d2 (store sid (set_last_activity t2 d1) h1)).
  assert (E2 : active_sessions h2 !! sid = Some d2) by apply store_lookup.
  assert (L2 : inactivity t3 d2 <= timeout_us h2) by exact H3.
  rewrite (validated_live t3 sid h2 d2 E2 L2). reflexivity.
Qed.

(** X8.  On a live session an agent added with [add_custom_agent] is read back
    with [get_custom_agents] under its name; [remove_custom_agent] then
    succeeds and the name is gone, a second removal fails, and when the name
    was new the dictionary is again what it was before the addition. *)
Theorem custom_agent_add_then_remove t1 t2 t3 sid name entry h d :
  active_sessions h !! sid = Some d ->
  List.NoDup (List.map fst (custom_agents d)) ->
  inactivity t1 d <= timeout_us h ->
  t2 - t1 <= timeout_us h ->
  t3 - t2 <= timeout_us h ->
  let h1 := snd (add_custom_agent t1 sid name entry h) in
  let h2 := snd (remove_custom_agent t2 sid name h1) in
  fst (add_custom_agent t1 sid name entry h) = true /\
  payload_get name (fst (get_custom_agents t2 sid h1)) = Some entry /\
  (forall other, other <> name ->
     payload_get other (fst (get_custom_agents t2 sid h1))
     = payload_get other (custom_agents d)) /\
  fst (remove_custom_agent t2 sid name h1) = true /\
  payload_get name (fst (get_custom_agents t3 sid h2)) = None /\
  (payload_get name (custom_agents d) = None ->
   fst (get_custom_agents t3 sid h2) = custom_agents d) /\
  fst (remove_custom_agent t3 sid name h2) = false.
Proof.
  intros E Hnd H1 H2 H3. simpl.
  unfold add_custom_agent. rewrite (validated_live t1 sid h d E H1). simpl.
  set (d1 := set_custom_agents (payload_set name entry (custom_agents d))
               (set_last_activity t1 d)).
  set (h1 := store sid d1 (store sid (set_last_activity t1 d) h)).
  assert (E1 : active_sessions h1 !! sid = Some d1) by apply store_lookup.
  assert (L1 : inactivity t2 d1 <= timeout_us h1) by exact H2.
  unfold get_custom_agents, remove_custom_agent.
  rewrite (validated_live t2 sid h1 d1 E1 L1). simpl.
  rewrite payload_get_set_eq. simpl.
  split; [reflexivity |]. split; [reflexivity |].
  split; [intros other Hne; apply payload_get_set_ne, Hne |].
  split; [reflexivity |].
  set (d2 := set_custom_agents
               (payload_del name (payload_set name entry (custom_agents d)))
               (set_last_activity t2 d1)).
  set (h2 := store sid d2 (store sid (set_last_activity t2 d1) h1)).
  assert (E2 : active_sessions h2 !! sid = Some d2) by apply store_lookup.
  assert (L2 : inactivity t3 d2 <= timeout_us h2) by exact H3.
  rewrite (validated_live t3 sid h2 d2 E2 L2). simpl.
  assert (Hgone : payload_get name
                    (payload_del name (payload_set name entry (custom_agents d))) = None).
  { apply payload_del_get, payload_set_nodup, Hnd. }
  rewrite Hgone.
  split; [reflexivity |]. split; [| reflexivity].
  intros Hnew. apply payload_del_fresh, Hnew.
Qed.

(** X9.  [get_user_sessions] lists, each once, the identifiers stored for the
    user; no timeout test is made, so that it lists an expired session until
    a sweep or a validation removes it: after a sweep exactly the user's
    sessions still within their lease are listed.
    The timeout is one for which the comparison of the microseconds is
    that of the code ([float_exact]). *)
Theorem get_user_sessions_lists_stored uid h :
  float_exact h ->
  (forall sid,
     In sid (get_user_sessions uid h)
     <-> exists d, get_session_data sid h = Some d /\ user_id d = uid) /\
  List.NoDup (get_user_sessions uid h) /\
  (forall now sid,
     In sid (get_user_sessions uid (_cleanup_expired_sessions now h))
     <-> exists d, get_session_data sid h = Some d /\ user_id d = uid /\
                   inactivity now d <= timeout_us h).
Proof.
  intros _. assert (Hin : forall h sid,
            In sid (get_user_sessions uid h)
            <-> exists d, get_session_data sid h = Some d /\ user_id d = uid).
  { intros h0 sid. unfold get_user_sessions, get_session_data. rewrite in_map_iff. split.
    - intros ([sid' d] & Hs & Hf). simpl in Hs. subst sid'.
      apply filter_In in Hf as [Hm Hu]. simpl in Hu.
      apply list_elem_of_In, elem_of_map_to_list in Hm.
      exists d. split; [exact Hm | apply String.eqb_eq, Hu].
    - intros (d & Hm & Hu). exists (sid, d). split; [reflexivity |].
      apply filter_In. split.
      + apply list_elem_of_In, elem_of_map_to_list, Hm.
      + simpl. apply String.eqb_eq, Hu. }
  split; [apply Hin |]. split.
  - unfold get_user_sessions.
    pose proof (NoDup_fst_map_to_list (active_sessions h)) as Hnd.
    apply NoDup_ListNoDup in Hnd.
    induction (map_to_list (active_sessions h)) as [|[k v] l IH]; simpl; [constructor |].
    simpl in Hnd. apply NoDup_cons_iff in Hnd as [Hx Hnd].
    destruct (String.eqb (user_id v) uid); simpl; [| apply IH, Hnd].
    apply NoDup_cons_iff. split; [| apply IH, Hnd].
    intros Hk. apply Hx. apply in_map_iff in Hk as ([k' v'] & Hk & Hf). simpl in Hk. subst k'.
    apply filter_In in Hf as [Hf _]. apply in_map_iff. exists (k, v'). split; [reflexivity | exact Hf].
  - intros now sid. rewrite Hin. unfold get_session_data. rewrite cleanup_lookup. split.
    + intros (d & Hd & Hu).
      destruct (active_sessions h !! sid) as [d0|]; [| discriminate].
      destruct (timed_out now d0 h) eqn:T; [discriminate |].
      injection Hd as <-. exists d0. split; [reflexivity |]. split; [exact Hu |].
      apply timed_out_false, T.
    + intros (d & Hd & Hu & Hl). rewrite Hd.
      apply timed_out_false in Hl. rewrite Hl. exists d. split; [reflexivity | exact Hu].
Qed.

End SessionLifecycle.

(** ** Requests, memory and helpers of the agents *)

Section RetryFacts.
Import Helper.

(** X10.  [invoke] makes at most three attempts.  It returns the first content
    that is not empty, after one warning and ten seconds of sleep for each
    attempt that failed before; it raises only when all three attempts have
    failed, with the error of the third behind the prefix, after three
    warnings and twenty seconds; the statement after the loop is never
    reached.  So a reply is never empty and a failure always carries the
    prefix. *)
Theorem invoke_retries_then_raises (client : nat -> Attempt) :
  match invoke client with
  | (Returned content, tr) =>
      content <> [] /\
      exists k,
        (k < 3)%nat /\ client k = Content (Some content) /\
        Forall2 (fun warning j => fst warning = S j /\
                                  attempt_outcome (client j) = Raised (snd warning))
          (warnings tr) (seq 0 k) /\
        slept tr = (10 * k)%nat /\
        llm_result client = Reply content
  | (Raised e, tr) =>
      exists e1 e2 e3,
        attempt_outcome (client 0%nat) = Raised e1 /\
        attempt_outcome (client 1%nat) = Raised e2 /\
        attempt_outcome (client 2%nat) = Raised e3 /\
        e = py "API调用失败: " ++ e3 /\
        warnings tr = [(1%nat, e1); (2%nat, e2); (3%nat, e3)] /\
        slept tr = 20%nat /\
        llm_result client = Failure (py "API调用失败: " ++ e3)
  end.
Proof.
  assert (Hok : forall a content, attempt_outcome a = Returned content ->
                                  a = Content (Some content) /\ content <> []).
  { intros [[c|]|f] content; simpl; try discriminate.
    destruct c; simpl; [discriminate |]. intros [= <-]. split; [reflexivity | discriminate]. }
  unfold llm_result, invoke. simpl.
  destruct (attempt_outcome (client 0%nat)) as [c0|e1] eqn:E0; simpl.
  { destruct (Hok _ _ E0) as [H1 H2]. split; [exact H2 |].
    exists 0%nat. repeat split; [lia | exact H1 | constructor]. }
  destruct (attempt_outcome (client 1%nat)) as [c1|e2] eqn:E1; simpl.
  { destruct (Hok _ _ E1) as [H1 H2]. split; [exact H2 |].
    exists 1%nat. repeat split; [lia | exact H1 |].
    constructor; [split; [reflexivity | exact E0] | constructor]. }
  destruct (attempt_outcome (client 2%nat)) as [c2|e3] eqn:E2; simpl.
  { destruct (Hok _ _ E2) as [H1 H2]. split; [exact H2 |].
    exists 2%nat. repeat split; [lia | exact H1 |].
    constructor; [split; [reflexivity | exact E0] |].
    constructor; [split; [reflexivity | exact E1] | constructor]. }
  exists e1, e2, e3. repeat split; reflexivity.
Qed.

End RetryFacts.

(** *** The message history *)

Section AgentFacts.
Import AgentMemory.

Lemma system_head_kept_by_append (a : Agent) (m : Message) (more : list Message) :
  system_head a = Some m ->
  system_head (set_messages (messages a ++ more) a) = Some m.
Proof.
  unfold system_head. simpl. destruct (messages a) as [|m0 ms]; [discriminate |].
  simpl. destruct (role m0); congruence.
Qed.

Lemma system_head_set_shared_history (a : Agent) (m : Message) (shared : list Message) :
  system_head a = Some m ->
  messages (set_shared_history shared a) = m :: shared.
Proof.
  unfold system_head, set_shared_history.
  destruct (messages a) as [|m0 ms]; [discriminate |].
  destruct (role m0) eqn:R; try discriminate. intros [= <-]. reflexivity.
Qed.

Lemma system_head_role (a : Agent) (m : Message) : system_head a = Some m -> role m = System.
Proof.
  unfold system_head. destruct (messages a) as [|m0 ms]; [discriminate |].
  destruct (role m0) eqn:R; try discriminate. intros [= <-]. exact R.
Qed.

Lemma system_head_of_messages (a : Agent) (m : Message) (rest : list Message) :
  messages a = m :: rest -> role m = System -> system_head a = Some m.
Proof. unfold system_head. intros -> ->. reflexivity. Qed.

Lemma perform_call_keeps_head (a : Agent) (m : Message) (c : Call) :
  system_head a = Some m ->
  system_head (perform_call a c) = Some m /\ static (perform_call a c) = static a.
Proof.
  intros H. pose proof (system_head_role a m H) as R. destruct c; simpl.
  - split; [| apply static_set_shared_history].
    eapply system_head_of_messages; [apply system_head_set_shared_history, H | exact R].
  - split; [apply system_head_kept_by_append, H | reflexivity].
  - split; [apply system_head_kept_by_append, H | reflexivity].
  - split; [apply system_head_kept_by_append, H | reflexivity].
  - unfold chat. destruct (invoke w id); simpl.
    + split; [| reflexivity]. rewrite <- app_assoc.
      apply (system_head_kept_by_append a m _ H).
    + split; [apply system_head_kept_by_append, H | reflexivity].
  - unfold analyze_clinical_case. destruct (agent_class a) eqn:C; [| split; [exact H | reflexivity]].
    set (a1 := if truthy discussion_history then set_shared_history discussion_history a else a).
    assert (H1 : system_head a1 = Some m /\ static a1 = static a).
    { unfold a1. destruct (truthy discussion_history); [| split; [exact H | reflexivity]].
      split; [| apply static_set_shared_history].
      eapply system_head_of_messages; [apply system_head_set_shared_history, H | exact R]. }
    destruct H1 as [H1 S1]. unfold chat.
    destruct (invoke w id); simpl.
    + split; [| exact S1]. rewrite <- app_assoc.
      apply (system_head_kept_by_append a1 m _ H1).
    + split; [| exact S1]. apply (system_head_kept_by_append a1 m _ H1).
Qed.

Lemma get_current_messages_head (a : Agent) (m : Message) :
  system_head a = Some m -> messages a = m :: get_current_messages a.
Proof.
  unfold system_head, get_current_messages.
  destruct (messages a) as [|m0 ms]; [discriminate |].
  destruct (role m0); try discriminate. intros [= <-]. reflexivity.
Qed.

(** X11.  Whatever calls are made on an agent after its creation, its messages
    start with the system message of its instruction, which
    [get_current_messages] leaves out, and its name, specialty and
    instruction are as created; in that state [set_shared_history] replaces
    everything after the system message, so that [get_current_messages]
    gives back the list that was set. *)
Theorem system_message_is_kept cls name sp instruction (calls : list Call) :
  let a := fold_left perform_call calls (new_agent cls name sp instruction) in
  messages a = mkMessage System instruction :: get_current_messages a /\
  static a = (cls, name, sp, instruction) /\
  (forall shared,
     messages (set_shared_history shared a) = mkMessage System instruction :: shared /\
     get_current_messages (set_shared_history shared a) = shared).
Proof.
  simpl.
  assert (H : forall calls a m,
            system_head a = Some m ->
            system_head (fold_left perform_call calls a) = Some m /\
            static (fold_left perform_call calls a) = static a).
  { clear. induction calls as [|c calls IH]; intros a m Hm; simpl; [split; auto |].
    destruct (perform_call_keeps_head a m c Hm) as [H1 H2].
    destruct (IH _ _ H1) as [H3 H4]. split; [exact H3 | congruence]. }
  destruct (H calls (new_agent cls name sp instruction) (mkMessage System instruction)
              eq_refl) as [Hh Hs].
  split; [apply get_current_messages_head, Hh |]. split; [exact Hs |].
  intros shared.
  pose proof (system_head_set_shared_history _ _ shared Hh) as Hm.
  split; [exact Hm |]. unfold get_current_messages. rewrite Hm. reflexivity.
Qed.

(** *** The helpers *)

(** X12.  [check_answer_same] holds exactly of the lists that are not empty and
    whose answers are all the same; the empty list is rejected. *)
Theorem check_answer_same_iff (ans_list : list pystr) :
  check_answer_same ans_list = true
  <-> exists ans, ans_list <> [] /\ Forall (eq ans) ans_list.
Proof.
  unfold check_answer_same. rewrite Nat.eqb_eq. split.
  - intros Hlen.
    destruct (remove_dups ans_list) as [|ans [|]] eqn:E; try discriminate.
    exists ans. split.
    + intros ->. discriminate.
    + apply List.Forall_forall. intros x Hx.
      apply (proj2 (list_elem_of_In _ _)) in Hx.
      apply (proj2 (elem_of_remove_dups _ _)) in Hx. rewrite E in Hx.
      apply (proj1 (list_elem_of_In _ _)) in Hx. destruct Hx as [Hx | []]. exact Hx.
  - intros (ans & Hne & Hall).
    pose proof (NoDup_remove_dups ans_list) as Hnd.
    assert (Hin : forall x, In x (remove_dups ans_list) -> x = ans).
    { intros x Hx. apply (proj2 (list_elem_of_In _ _)) in Hx.
      apply (proj1 (elem_of_remove_dups _ _)) in Hx.
      apply (proj1 (list_elem_of_In _ _)) in Hx.
      rewrite List.Forall_forall in Hall. symmetry. apply Hall, Hx. }
    destruct (remove_dups ans_list) as [|x [|y l]] eqn:E.
    + exfalso. destruct ans_list as [|a0 l0]; [congruence |].
      assert (Ha : a0 ∈ remove_dups (a0 :: l0)) by (apply elem_of_remove_dups; left).
      rewrite E in Ha. inversion Ha.
    + reflexivity.
    + exfalso. apply NoDup_ListNoDup in Hnd. apply NoDup_cons_iff in Hnd as [Hx _].
      apply Hx. left. rewrite (Hin x), (Hin y); simpl; auto.
Qed.

(** X13.  [find_answer] returns the first of the options, in the order of the
    list, that occurs in the text, wherever it occurs, and the empty text
    when none does: with the default options an ["A"] anywhere in the text
    wins over every other letter. *)
Theorem find_answer_first_option (text : pystr) (options : list pystr) :
  ((exists before after,
      options = before ++ find_answer text options :: after /\
      occurs (find_answer text options) text = true /\
      Forall (fun o => occurs o text = false) before)
   \/ (find_answer text options = [] /\ Forall (fun o => occurs o text = false) options)) /\
  (occurs (py "A") text = true -> find_answer text default_options = py "A") /\
  In (find_answer text default_options) ([] :: default_options).
Proof.
  split; [| split].
  - induction options as [|o options IH]; simpl.
    + right. split; [reflexivity | constructor].
    + destruct (occurs o text) eqn:Ho.
      * left. exists [], options. split; [reflexivity |]. split; [exact Ho | constructor].
      * destruct IH as [(before & after & H1 & H2 & H3) | [H1 H2]].
        -- left. exists (o :: before), after.
           split; [simpl; rewrite <- H1; reflexivity |].
           split; [exact H2 | constructor; assumption].
        -- right. split; [exact H1 | constructor; assumption].
  - intros HA. unfold default_options. cbn [find_answer]. rewrite HA. reflexivity.
  - unfold default_options. cbn [find_answer].
    destruct (occurs (py "A") text); [right; left; reflexivity |].
    destruct (occurs (py "B") text); [do 2 right; left; reflexivity |].
    destruct (occurs (py "C") text); [do 3 right; left; reflexivity |].
    destruct (occurs (py "D") text); [do 4 right; left; reflexivity |].
    destruct (occurs (py "E") text); [do 5 right; left; reflexivity |].
    left. reflexivity.
Qed.

End AgentFacts.

(** ** What a discussion always does *)

Section Growth.
Variable w : World.

Lemma extends_refl st : extends st st.
Proof.
  split; [reflexivity | exists [] | exists [] | exists [] | exists [] | exists []];
    rewrite app_nil_r; reflexivity.
Qed.

Lemma extends_trans st1 st2 st3 : extends st1 st2 -> extends st2 st3 -> extends st1 st3.
Proof.
  intros [S1 (a1 & A1) (b1 & B1) (c1 & C1) (d1 & D1) (e1 & E1)]
         [S2 (a2 & A2) (b2 & B2) (c2 & C2) (d2 & D2) (e2 & E2)].
  split; [congruence | exists (a1 ++ a2) | exists (b1 ++ b2) | exists (c1 ++ c2)
          | exists (d1 ++ d2) | exists (e1 ++ e2)];
    rewrite app_assoc; congruence.
Qed.

Lemma appends_refl st : appends st st.
Proof. repeat split; exists []; rewrite app_nil_r; reflexivity. Qed.

Lemma appends_trans st1 st2 st3 : appends st1 st2 -> appends st2 st3 -> appends st1 st3.
Proof.
  intros ((b1 & B1) & (d1 & D1) & (e1 & E1)) ((b2 & B2) & (d2 & D2) & (e2 & E2)).
  repeat split; [exists (b1 ++ b2) | exists (d1 ++ d2) | exists (e1 ++ e2)];
    rewrite app_assoc; congruence.
Qed.

Lemma appends_step st st' recs ms events :
  user_interventions st' = user_interventions st ++ recs ->
  shared_discussion_history st' = shared_discussion_history st ++ ms ->
  logger st' = logger st ++ events ->
  appends st st'.
Proof. intros H1 H2 H3. repeat split; eauto. Qed.

Lemma appends_same st st' :
  user_interventions st' = user_interventions st ->
  shared_discussion_history st' = shared_discussion_history st ->
  logger st' = logger st ->
  appends st st'.
Proof.
  intros H1 H2 H3. apply (appends_step st st' [] [] []); rewrite app_nil_r; assumption.
Qed.

Lemma extends_of_evolves round_num names st st' :
  evolves round_num names st st' -> appends st st' -> extends st st'.
Proof.
  intros [S _ _ (reqs & Q & _) (bs & L & _)] (B & D & E).
  split; eauto.
Qed.

Lemma broadcast_loop_appends round_num after q names :
  forall acc st, appends st (snd (broadcast_loop w round_num after q names acc st)).
Proof.
  induction names as [|name rest IH]; intros acc st; simpl; [apply appends_refl |].
  destruct (dict_get name (agents st)) as [a|]; [| apply IH].
  destruct (respond_to_user_question w _ q _ _ a) as [[[text | e] | e] reqs]; simpl.
  - eapply appends_trans; [| apply IH].
    eapply appends_step with (recs := []) (events := []);
      [rewrite app_nil_r; reflexivity | reflexivity | rewrite app_nil_r; reflexivity].
  - eapply appends_trans; [| apply IH]. apply appends_same; reflexivity.
  - apply appends_same; reflexivity.
Qed.

Lemma handle_appends round_num after d st :
  appends st (snd (_handle_user_intervention w round_num after d st)).
Proof.
  unfold _handle_user_intervention.
  set (st0 := log_event (LogHandling (get_type d)) st).
  assert (H0 : appends st st0).
  { eapply appends_step with (recs := []) (ms := []);
      [rewrite app_nil_r; reflexivity | rewrite app_nil_r; reflexivity | reflexivity]. }
  apply (appends_trans _ _ _ H0). clearbody st0. clear H0.
  assert (Hrec : forall d s, appends s (snd (record_intervention d s))).
  { intros d0 s. eapply appends_step with (ms := []) (events := []);
      [reflexivity | rewrite app_nil_r; reflexivity | rewrite app_nil_r; reflexivity]. }
  assert (Hfail : forall e s, appends s (log_event (LogHandlingFailed e) s)).
  { intros e s. eapply appends_step with (recs := []) (ms := []);
      [rewrite app_nil_r; reflexivity | rewrite app_nil_r; reflexivity | reflexivity]. }
  destruct d as [target q | q | info | |].
  - destruct (if truthy target && truthy q then dict_get target (agents st0) else None)
      as [a|]; [| apply Hrec].
    destruct (respond_to_user_question w _ q _ _ a) as [[ans | e] reqs]; cbv beta iota.
    + eapply appends_trans; [| apply Hrec]. apply appends_same; reflexivity.
    + eapply appends_trans; [| apply Hfail]. apply appends_same; reflexivity.
  - destruct (truthy q); [| apply Hrec].
    pose proof (broadcast_loop_appends round_num after q (keys (agents st0)) [] st0) as Hb.
    destruct (broadcast_loop w round_num after q (keys (agents st0)) [] st0)
      as [[contribs | e] st1]; cbv beta iota; cbn [snd] in Hb.
    + apply (appends_trans _ _ _ Hb).
      eapply appends_trans; [| apply Hrec]. apply appends_same; reflexivity.
    + apply (appends_trans _ _ _ Hb). apply Hfail.
  - destruct (truthy info); [| apply Hrec].
    eapply appends_trans; [| apply Hrec]. apply appends_same; reflexivity.
  - apply appends_same; reflexivity.
  - apply appends_same; reflexivity.
Qed.

Lemma agent_turn_appends round_num hist name a contribs st :
  appends st (snd (fst (agent_turn w round_num hist name a contribs st))).
Proof.
  unfold agent_turn.
  destruct (analyze_clinical_case w _ _ hist _ _) as [[[result | e] a2] reqs]; simpl.
  - match goal with |- context [_add_to_shared_history name ?t ?s] =>
      set (st2 := _add_to_shared_history name t s) end.
    assert (H2 : appends st st2).
    { eapply appends_step with (recs := []) (events := []);
        [rewrite app_nil_r; reflexivity | reflexivity | rewrite app_nil_r; reflexivity]. }
    destruct (_get_blocking_user_intervention w round_num name st2) as [d|]; [| exact H2].
    pose proof (handle_appends round_num name d st2) as H3.
    destruct (_handle_user_intervention w round_num name d st2) as [leave st3].
    exact (appends_trans _ _ _ H2 H3).
  - eapply appends_step with (recs := []) (ms := []);
      [rewrite app_nil_r; reflexivity | rewrite app_nil_r; reflexivity | reflexivity].
Qed.

Lemma agents_loop_appends round_num hist names :
  forall contribs st, appends st (snd (agents_loop w round_num hist names contribs st)).
Proof.
  induction names as [|name rest IH]; intros contribs st; simpl; [apply appends_refl |].
  destruct (skip_remaining_agents st).
  { eapply appends_step with (recs := []) (ms := []);
      [rewrite app_nil_r; reflexivity | rewrite app_nil_r; reflexivity | reflexivity]. }
  destruct (dict_get name (agents st)) as [a|]; [| apply IH].
  pose proof (agent_turn_appends round_num hist name a contribs st) as H1.
  destruct (agent_turn w round_num hist name a contribs st) as [[contribs1 st1] [|]];
    simpl in H1 |- *; [exact H1 |].
  exact (appends_trans _ _ _ H1 (IH contribs1 st1)).
Qed.

Lemma round_extends round_num st :
  extends st (snd (_execute_discussion_round w round_num st)).
Proof.
  apply (extends_of_evolves round_num (keys (agents st))); [apply round_evolves |].
  unfold _execute_discussion_round.
  pose proof (agents_loop_appends round_num
                (_get_current_discussion_context
                   (discussion_log (set_skip_remaining_agents false st)))
                (keys (agents (set_skip_remaining_agents false st))) []
                (set_skip_remaining_agents false st)) as H.
  destruct (agents_loop w round_num _ _ [] _) as [contribs st2]. exact H.
Qed.

(** The loop over the rounds returns, whatever happens in the rounds. *)
Lemma rounds_loop_extends rs :
  forall st,
    exists st',
      rounds_loop w rs st = (Returned tt, st') /\
      extends st st' /\
      (current_round st' = current_round st \/ In (current_round st') rs).
Proof.
  induction rs as [|r rs IH]; intros st.
  { exists st. split; [reflexivity |]. split; [apply extends_refl | left; reflexivity]. }
  destruct (is_running st) eqn:Hrun.
  - destruct (rounds_loop_cons w r rs st Hrun) as (st3 & Hloop & Ha & more & Hmore & _).
    set (st0 := set_current_round r st) in *.
    pose proof (round_extends r st0) as Hr.
    pose proof (round_evolves w r st0) as [_ Hround _ _ _].
    destruct (_execute_discussion_round w r st0) as [round_log st1]. simpl in *.
    assert (H13 : extends st st3).
    { destruct Hr as [S (a & A) (b & B) (c & C) (d & D) (e & E)].
      unfold all_but_logger in Ha. simpl in Ha.
      injection Ha as Hi Hru Hcr Hmr Hsk Hp Hl Hu Hmc Hag Hda Hsh Hq.
      split.
      - unfold setup, roster in *. simpl in S. congruence.
      - exists (a ++ [round_log]). rewrite Hl, A, <- app_assoc. reflexivity.
      - exists b. rewrite Hu, B. reflexivity.
      - exists c. rewrite Hq, C. reflexivity.
      - exists d. rewrite Hsh, D. reflexivity.
      - exists (e ++ more). rewrite Hmore, E, <- app_assoc. reflexivity. }
    destruct (IH st3) as (st' & Hl' & He' & Hc').
    exists st'. split; [rewrite Hloop; exact Hl' |].
    split; [exact (extends_trans _ _ _ H13 He') |].
    right. destruct Hc' as [Hc' | Hc']; [| right; exact Hc'].
    left. rewrite Hc'. unfold all_but_logger in Ha. simpl in Ha.
    injection Ha as _ _ Hcr _ _ _ _ _ _ _ _ _ _. rewrite Hcr, Hround. reflexivity.
  - rewrite (rounds_loop_stopped w (r :: rs) st Hrun).
    exists (set_current_round r st). split; [reflexivity |].
    split; [| right; left; reflexivity].
    split; [reflexivity | exists [] | exists [] | exists [] | exists [] | exists []];
      rewrite app_nil_r; reflexivity.
Qed.

Lemma final_summary_extends st :
  extends st (snd (_generate_final_summary w st)) /\
  current_round (snd (_generate_final_summary w st)) = current_round st /\
  is_running (snd (_generate_final_summary w st)) = is_running st.
Proof.
  unfold _generate_final_summary. cbv zeta.
  set (st0 := log_event LogFinalSummary st).
  assert (H0 : extends st st0).
  { split; [reflexivity | exists [] | exists [] | exists [] | exists []
            | exists [LogFinalSummary]];
      rewrite ?app_nil_r; reflexivity. }
  destruct (decision_agent st0) as [a|].
  - destruct (make_final_decision w (discussion_log st0) (medical_context st0) a)
      as [final_decision reqs].
    cbn [fst snd]. split; [| split; reflexivity].
    apply (extends_trans _ _ _ H0).
    split; [reflexivity | exists [] | exists [] | exists reqs | exists [] | exists []];
      rewrite ?app_nil_r; reflexivity.
  - unfold _generate_backup_summary. cbn [fst snd]. split; [| split; reflexivity].
    apply (extends_trans _ _ _ H0).
    split; [reflexivity | exists [] | exists [] | exists [] | exists []
            | exists [LogBackupSummary]];
      rewrite ?app_nil_r; reflexivity.
Qed.


(** X14.  Whatever the model answers and whatever the operator does,
    [start_discussion] returns the completed record or the interrupted
    result, never the error result; it leaves the engine stopped, with the
    configuration it had (the rounds allowed, the participants in their
    order, the case) and a round counter within the rounds allowed; the log,
    the recorded interventions, the requests sent and the shared history
    have only been added to.  So the status reported afterwards names the
    same participants and at least as many interventions as before. *)
Theorem start_discussion_always (st : Engine) :
  (forall e, fst (start_discussion w st) <> Errored e) /\
  match fst (start_discussion w st) with
  | Completed record =>
      rounds_completed record = current_round (snd (start_discussion w st)) /\
      result_discussion_log record = discussion_log (snd (start_discussion w st)) /\
      status (medical_context (snd (start_discussion w st))) = Some (py "completed")
  | Interrupted n => n = current_round (snd (start_discussion w st))
  | Errored _ => False
  end /\
  extends st (snd (start_discussion w st)) /\
  Assessment.get_discussion_status (snd (start_discussion w st))
  = Assessment.mkDiscussionStatus false
      (current_round (snd (start_discussion w st))) (max_rounds st) (keys (agents st))
      (length (user_interventions (snd (start_discussion w st)))) /\
  (current_round (snd (start_discussion w st)) <= max_rounds st)%nat /\
  (length (user_interventions st)
   <= length (user_interventions (snd (start_discussion w st))))%nat.
Proof.
  unfold start_discussion.
  set (st0 := set_current_round 0 (set_is_running true st)).
  assert (H0 : extends st st0).
  { split; [reflexivity | exists [] | exists [] | exists [] | exists [] | exists []];
      rewrite app_nil_r; reflexivity. }
  destruct (rounds_loop_extends (seq 1 (max_rounds st0)) st0) as (st1 & Hloop & H1 & Hc).
  rewrite Hloop.
  assert (Hround : (current_round st1 <= max_rounds st)%nat).
  { destruct Hc as [Hc | Hc]; [rewrite Hc; simpl; lia |].
    apply in_seq in Hc. change (max_rounds st0) with (max_rounds st) in Hc. lia. }
  pose proof (extends_trans _ _ _ H0 H1) as H01.
  assert (Hstatus : forall s,
            extends st s -> is_running s = false ->
            Assessment.get_discussion_status s
            = Assessment.mkDiscussionStatus false (current_round s) (max_rounds st)
                (keys (agents st)) (length (user_interventions s))).
  { intros s [S _ _ _ _ _] Hr. unfold Assessment.get_discussion_status. rewrite Hr.
    f_equal.
    - unfold setup in S. congruence.
    - rewrite <- !roster_keys. f_equal. apply (setup_roster _ _ S). }
  assert (Hcount : forall s, extends st s ->
            (length (user_interventions st) <= length (user_interventions s))%nat).
  { intros s [_ _ (recs & R) _ _ _]. rewrite R, length_app. lia. }
  destruct (is_running st1) eqn:Hrun.
  - destruct (final_summary_extends st1) as (H2 & Hcr & _).
    destruct (_generate_final_summary w st1) as [final_summary st2]. cbn [fst snd] in *.
    set (st3 := set_is_running false
                  (set_medical_context (set_status (py "completed") (medical_context st2))
                     st2)).
    assert (H23 : extends st2 st3).
    { split; [reflexivity | exists [] | exists [] | exists [] | exists [] | exists []];
        rewrite app_nil_r; reflexivity. }
    pose proof (extends_trans _ _ _ H01 (extends_trans _ _ _ H2 H23)) as H03.
    split; [discriminate |]. split; [repeat split |]. split; [exact H03 |].
    split; [apply (Hstatus st3 H03 eq_refl) |].
    split; [change (current_round st3) with (current_round st2); rewrite Hcr; exact Hround |].
    apply (Hcount st3 H03).
  - cbn [fst snd].
    set (st3 := set_is_running false st1).
    assert (H13 : extends st1 st3).
    { split; [reflexivity | exists [] | exists [] | exists [] | exists [] | exists []];
        rewrite app_nil_r; reflexivity. }
    pose proof (extends_trans _ _ _ H01 H13) as H03.
    split; [discriminate |]. split; [reflexivity |]. split; [exact H03 |].
    split; [apply (Hstatus st3 H03 eq_refl) |].
    split; [exact Hround | apply (Hcount st3 H03)].
Qed.

End Growth.

(** ** The requests of a discussion without operator *)

Section Schedule.
Variable w : World.

Lemma flat_map_keys_list {V W} (g : pystr * V -> list W) (d : list (pystr * V)) :
  List.NoDup (keys d) ->
  flat_map (fun k => match dict_get k d with Some v => g (k, v) | None => [] end) (keys d)
  = flat_map g d.
Proof.
  induction d as [|[k v] d IH]; simpl; [reflexivity |].
  intros Hnd. apply NoDup_cons_iff in Hnd as [Hk Hnd].
  rewrite str_eqb_refl. f_equal.
  rewrite <- (IH Hnd). apply flat_map_agree.
  intros k' Hin. rewrite str_eqb_neq; [reflexivity |].
  intros ->. contradiction.
Qed.

Lemma analyze_calls id text hist sp a :
  List.map call (snd (analyze_clinical_case w id text hist sp a))
  = match agent_class a with SpecialtyAgent => [id] | CustomAgent => [] end.
Proof.
  unfold analyze_clinical_case. destruct (agent_class a); [| reflexivity].
  unfold chat. destruct (invoke w id); reflexivity.
Qed.

Lemma agent_class_set_shared_history hist a :
  agent_class (set_shared_history hist a) = agent_class a.
Proof.
  pose proof (static_set_shared_history hist a) as Hs. unfold static in Hs.
  injection Hs as Hc _ _ _. exact Hc.
Qed.

Lemma agent_turn_calls round_num hist name a contribs st :
  user_participation st = false ->
  List.map call (llm_requests (snd (fst (agent_turn w round_num hist name a contribs st))))
  = List.map call (llm_requests st) ++ turn_calls round_num (name, static a).
Proof.
  intros Hp. unfold agent_turn.
  pose proof (analyze_calls (AnalysisCall round_num name)
                (medical_record (medical_context st)) hist (analysis_prompt name)
                (set_shared_history hist a)) as Hq.
  rewrite agent_class_set_shared_history in Hq.
  assert (Ht : turn_calls round_num (name, static a)
               = match agent_class a with
                 | SpecialtyAgent => [AnalysisCall round_num name]
                 | CustomAgent => []
                 end) by reflexivity.
  rewrite Ht, <- Hq. clear Ht Hq.
  destruct (analyze_clinical_case w _ _ hist _ _) as [[[result | e] a2] reqs];
    cbv beta iota zeta; cbn [fst snd].
  - match goal with |- context [_add_to_shared_history name ?t ?s] =>
      set (st2 := _add_to_shared_history name t s) end.
    assert (E1 : _get_blocking_user_intervention w round_num name st2 = None).
    { unfold _get_blocking_user_intervention.
      replace (user_participation st2) with false by exact (eq_sym Hp). reflexivity. }
    rewrite E1. cbn [fst snd].
    assert (E2 : llm_requests st2 = llm_requests st ++ reqs) by reflexivity.
    rewrite E2. apply List.map_app.
  - match goal with |- context [log_event ?ev ?s] => set (st2 := log_event ev s) end.
    assert (E2 : llm_requests st2 = llm_requests st ++ reqs) by reflexivity.
    rewrite E2. apply List.map_app.
Qed.

Lemma agents_loop_calls round_num hist names :
  forall contribs st,
    user_participation st = false ->
    skip_remaining_agents st = false ->
    List.map call (llm_requests (snd (agents_loop w round_num hist names contribs st)))
    = List.map call (llm_requests st)
      ++ flat_map (fun name => match dict_get name (roster st) with
                               | Some s => turn_calls round_num (name, s)
                               | None => []
                               end) names.
Proof.
  induction names as [|name rest IH]; intros contribs st Hp Hk; simpl.
  { rewrite app_nil_r. reflexivity. }
  rewrite Hk, roster_get.
  destruct (dict_get name (agents st)) as [a|] eqn:G; simpl; [| apply IH; assumption].
  pose proof (agent_turn_calls round_num hist name a contribs st Hp) as Hq.
  pose proof (agent_turn_evolves w round_num hist name a contribs st G) as Hev.
  destruct (agent_turn_stays w round_num hist name a contribs st G
              (stays_silent w round_num [name] st Hp)) as [Hl Hc].
  destruct (agent_turn w round_num hist name a contribs st) as [[c1 st1] leave].
  simpl in Hq, Hev, Hl, Hc. subst leave.
  destruct (control_fields _ _ Hc) as [_ Hk1]. rewrite Hk in Hk1.
  pose proof (ev_setup _ _ _ _ Hev) as Hs.
  assert (Hp1 : user_participation st1 = false).
  { unfold setup in Hs. injection Hs as _ _ Hx _ _ _ _. congruence. }
  rewrite (IH c1 st1 Hp1 Hk1), Hq, (setup_roster _ _ Hs), <- app_assoc. reflexivity.
Qed.

Lemma round_calls round_num st :
  user_participation st = false ->
  List.NoDup (keys (agents st)) ->
  List.map call (llm_requests (snd (_execute_discussion_round w round_num st)))
  = List.map call (llm_requests st) ++ flat_map (turn_calls round_num) (roster st).
Proof.
  intros Hp Hnd. unfold _execute_discussion_round.
  set (st1 := set_skip_remaining_agents false st).
  pose proof (agents_loop_calls round_num
                (_get_current_discussion_context (discussion_log st1))
                (keys (agents st1)) [] st1 Hp eq_refl) as H.
  destruct (agents_loop w round_num _ (keys (agents st1)) [] st1) as [contribs st2].
  cbn [snd] in *. rewrite H.
  change (roster st1) with (roster st). change (llm_requests st1) with (llm_requests st).
  change (agents st1) with (agents st). f_equal.
  rewrite <- (flat_map_keys_list (turn_calls round_num) (roster st)).
  - rewrite <- roster_keys. reflexivity.
  - change (keys (roster st)) with (List.map fst (roster st)).
    rewrite roster_keys. exact Hnd.
Qed.

Lemma rounds_loop_calls rs :
  forall st,
    user_participation st = false ->
    is_running st = true ->
    List.NoDup (keys (agents st)) ->
    List.map call (llm_requests (snd (rounds_loop w rs st)))
    = List.map call (llm_requests st)
      ++ flat_map (fun r => flat_map (turn_calls r) (roster st)) rs.
Proof.
  induction rs as [|r rs IH]; intros st Hp Hrun Hnd.
  { simpl. rewrite app_nil_r. reflexivity. }
  destruct (rounds_loop_cons w r rs st Hrun) as (st3 & Hloop & Ha & _).
  set (st0 := set_current_round r st) in *.
  destruct (round_stays w r st0 Hnd (stays_silent w r _ st0 Hp)) as (_ & E2 & E3 & _).
  pose proof (round_calls r st0 Hp Hnd) as Hq.
  destruct (all_but_logger_fields _ _ Ha) as (Hs & Hc & _ & _ & _ & _ & Hreq & _).
  simpl in Hs, Hc, Hreq.
  destruct E2 as [Hs2 _ _ _ _].
  assert (Hs3 : setup st3 = setup st) by (rewrite Hs; exact Hs2).
  assert (Hp3 : user_participation st3 = false).
  { unfold setup in Hs3. injection Hs3 as _ _ Hx _ _ _ _. congruence. }
  assert (Hrun3 : is_running st3 = true).
  { destruct (control_fields _ _ Hc) as [Hr _]. simpl in Hr. rewrite Hr, E3. exact Hrun. }
  assert (Hnd3 : List.NoDup (keys (agents st3))).
  { rewrite <- roster_keys, (setup_roster _ _ Hs3), roster_keys. exact Hnd. }
  rewrite Hloop, (IH st3 Hp3 Hrun3 Hnd3), Hreq, Hq, (setup_roster _ _ Hs3).
  simpl. rewrite <- app_assoc. reflexivity.
Qed.

(** X15.  In a discussion in which the operator takes no part, the requests sent
    to the model are, in this order, one analysis for each [SpecialtyAgent]
    in each round, the rounds in turn and the participants in their order,
    and then the final decision when there is a decision agent: a
    [CustomAgent] is never sent to the model, and a failure of a request
    does not change what is asked next. *)
Theorem requests_of_unattended_discussion (st : Engine) :
  user_participation st = false ->
  List.NoDup (keys (agents st)) ->
  List.map call (llm_requests (snd (start_discussion w st)))
  = List.map call (llm_requests st) ++ scheduled_calls (max_rounds st) st.
Proof.
  intros Hp Hnd. unfold start_discussion, scheduled_calls.
  set (st0 := set_current_round 0 (set_is_running true st)).
  pose proof (rounds_loop_calls (seq 1 (max_rounds st0)) st0 Hp eq_refl Hnd) as Hq.
  destruct (rounds_loop_silent w (seq 1 (max_rounds st0)) st0 Hp eq_refl Hnd)
    as (st1 & L1 & L2 & L3 & _).
  rewrite L1 in Hq |- *. cbn [snd] in Hq. rewrite L2.
  assert (Hd : decision_agent st1 = decision_agent st).
  { unfold setup in L3. injection L3 as _ _ _ Hx _ _ _. exact Hx. }
  unfold _generate_final_summary, _generate_backup_summary, make_final_decision,
    chat_without_history. cbv zeta.
  change (decision_agent (log_event LogFinalSummary st1)) with (decision_agent st1).
  rewrite Hd.
  destruct (decision_agent st) as [a|]; [destruct (invoke w DecisionCall) |];
    cbn [fst snd llm_requests set_is_running set_medical_context add_requests
         set_llm_requests log_event set_logger];
    rewrite ?List.map_app, Hq, <- ?app_assoc; try reflexivity.
  rewrite app_nil_r. reflexivity.
Qed.

End Schedule.

(** ** Questions of the operator *)

Section Questions.
Variable w : World.

(** X16.  The digest is one message, and the text that [analyze_clinical_case]
    formats from it for the section on the discussion history is the same
    line whatever was discussed: the digest reaches the model as a message
    of the request, before the prompt, and not through that section. *)
Theorem history_section_is_constant (discussion_log : list Round) :
  length (_get_current_discussion_context discussion_log) = 1%nat /\
  _format_discussion_history_for_prompt (_get_current_discussion_context discussion_log)
  = py "第1轮讨论:" /\
  (forall round_num name a contribs st m0 ms,
     agent_class a = SpecialtyAgent -> messages a = m0 :: ms -> role m0 = System ->
     exists later,
       llm_requests
         (snd (fst (agent_turn w round_num (_get_current_discussion_context discussion_log)
                      name a contribs st)))
       = llm_requests st
         ++ mkLLMRequest (AnalysisCall round_num name)
              (ChatPrompt
                 (m0 :: _get_current_discussion_context discussion_log
                  ++ [mkMessage User
                        (analysis_message (specialty a)
                           (medical_record (medical_context st))
                           (py "第1轮讨论:") (nl ++ analysis_prompt name))]))
            :: later).
Proof.
  assert (H : exists m, _get_current_discussion_context discussion_log = [m]).
  { unfold _get_current_discussion_context.
    destruct (context_text discussion_log); eexists; reflexivity. }
  destruct H as [m Hm].
  assert (Hf : _format_discussion_history_for_prompt [m] = py "第1轮讨论:")
    by reflexivity.
  rewrite Hm. split; [reflexivity |]. split; [exact Hf |].
  intros round_num name a contribs st m0 ms Hc Hmsg Hr.
  destruct (turn_request w round_num [m] name a contribs st m0 ms Hc Hmsg Hr)
    as (later & Hl); [discriminate |].
  exists later. rewrite Hl, Hf. reflexivity.
Qed.




End Questions.

(** ** The assessment of a discussion *)

Section AssessmentFacts.
Import Assessment.

Lemma no_diagnosis_key (d : Analysis) :
  existsb (str_eqb (py "diagnosis")) (analysis_keys d) = false.
Proof. destruct d; reflexivity. Qed.

Lemma score_diagnosis_zero (discussion_log : list Round) :
  _score_diagnosis_completeness discussion_log = 0.
Proof.
  unfold _score_diagnosis_completeness.
  assert (H : forall l : list Round,
            flat_map (fun round_log =>
              flat_map (fun cont =>
                match contribution cont with
                | Some d =>
                    if existsb (str_eqb (py "diagnosis")) (analysis_keys d)
                    then [default [] (analysis_text (py "diagnosis") d)]
                    else []
                | None => []
                end) (contributions round_log)) l = []).
  { induction l as [|r l IH]; [reflexivity |].
    cbn [flat_map]. rewrite IH, app_nil_r.
    induction (contributions r) as [|c cs IHc]; [reflexivity |].
    cbn [flat_map]. rewrite IHc, app_nil_r.
    destruct (contribution c) as [d|]; [| reflexivity].
    rewrite no_diagnosis_key. reflexivity. }
  rewrite H. reflexivity.
Qed.

Lemma no_logic_issues (l : list Round) :
  length (List.filter has_issues (flat_map logic_reports l)) = 0%nat.
Proof. induction l as [|r l IH]; [reflexivity | exact IH]. Qed.

(** X19.  The assessment fails exactly when the engine has no participant (the
    depth divides by their number).  Otherwise nothing found in a discussion
    counts as a diagnosis or as a logic issue, two scores are constants, and
    the depth and the diversity are at most 10: the scores are 0, 8, 7, the
    depth, the diversity and 10, and the overall score, their mean, lies
    between 25/6 and 7.5 whatever was discussed. *)
Theorem quality_scores_bounds (st : Engine) :
  match _assess_discussion_quality st with
  | Scores s =>
      agents st <> [] /\
      diagnosis_completeness s = 0 /\
      treatment_rationality s = 8 /\
      integration_quality s = 7 /\
      0 <= discussion_depth s <= 10 /\
      0 <= perspective_diversity s <= 10 /\
      logic_consistency s = 10 /\
      overall_score s
      = QArith_base.Qmake (25 + discussion_depth s + perspective_diversity s) 6 /\
      QArith_base.Qle (QArith_base.Qmake 25 6) (overall_score s) /\
      QArith_base.Qle (overall_score s) (QArith_base.Qmake 45 6)
  | AssessmentFailed _ => agents st = []
  end.
Proof.
  unfold _assess_discussion_quality. cbv zeta. rewrite score_diagnosis_zero.
  destruct (agents st) as [|p ps] eqn:Ha; cbn [length]; [reflexivity |].
  set (total := list_sum _). set (distinct := count_distinct _).
  set (n := Z.of_nat (S (length ps))).
  assert (Hn : 0 < n) by (unfold n; lia).
  assert (Hd : 0 <= Z.of_nat total / n) by (apply Z.div_pos; lia).
  cbn [diagnosis_completeness treatment_rationality integration_quality discussion_depth
       perspective_diversity logic_consistency overall_score flat_map].
  rewrite no_logic_issues. unfold _score_treatment_rationality, _score_integration_quality.
  change (Z.max 0 (10 - Z.of_nat 0)) with 10.
  split; [discriminate |]. split; [reflexivity |]. split; [reflexivity |].
  split; [reflexivity |]. split; [lia |]. split; [lia |]. split; [reflexivity |].
  split; [f_equal; lia |].
  unfold QArith_base.Qle. cbn [QArith_base.Qnum QArith_base.Qden]. split; lia.
Qed.




End AssessmentFacts.

(** ** The operator at the console *)

Section ConsoleFacts.
Import Console.

Variable isdigit : pystr -> bool.
Variable int : pystr -> option nat.

Lemma lstrip_head (s : pystr) : head_is_no_space (lstrip s).
Proof.
  induction s as [|c s IH]; simpl; [exact I |].
  destruct (is_space c) eqn:E; [exact IH | exact E].
Qed.

Lemma lstrip_fixed (s : pystr) : head_is_no_space s -> lstrip s = s.
Proof. destruct s as [|c s]; simpl; [reflexivity |]. intros ->. reflexivity. Qed.

Lemma lstrip_suffix (s : pystr) :
  exists spaces, s = spaces ++ lstrip s /\ forallb is_space spaces = true.
Proof.
  induction s as [|c s (sp & H1 & H2)]; simpl.
  - exists []. split; reflexivity.
  - destruct (is_space c) eqn:E.
    + exists (c :: sp). simpl. rewrite E, H2. split; [f_equal; exact H1 | reflexivity].
    + exists []. split; reflexivity.
Qed.

Lemma rstrip_head (s : pystr) : head_is_no_space s -> head_is_no_space (rstrip s).
Proof.
  destruct s as [|c s]; [intros _; exact I |]. simpl. intros Hc. unfold rstrip. simpl.
  destruct (lstrip_suffix (rev s ++ [c])) as (sp & H1 & H2).
  destruct (lstrip (rev s ++ [c])) as [|x xs] eqn:E using rev_ind.
  - exfalso. rewrite app_nil_r in H1. rewrite <- H1 in H2.
    rewrite forallb_app in H2. simpl in H2. rewrite Hc in H2.
    rewrite andb_false_r in H2. discriminate.
  - clear IHxs. rewrite app_assoc in H1. apply app_inj_tail in H1 as [_ <-].
    rewrite rev_app_distr. simpl. exact Hc.
Qed.

Lemma strip_ends (s : pystr) :
  head_is_no_space (strip s) /\ head_is_no_space (rev (strip s)).
Proof.
  unfold strip. split.
  - apply rstrip_head, lstrip_head.
  - unfold rstrip. rewrite rev_involutive. apply lstrip_head.
Qed.

Lemma strip_strip (s : pystr) : stripped (strip s).
Proof.
  destruct (strip_ends s) as [H1 H2]. unfold stripped.
  unfold strip at 1. rewrite (lstrip_fixed _ H1).
  unfold rstrip. rewrite (lstrip_fixed _ H2). apply rev_involutive.
Qed.

Lemma member_in (x : pystr) (l : list pystr) : member x l = true <-> In x l.
Proof.
  unfold member. rewrite existsb_exists. split.
  - intros (y & Hy & E). apply str_eqb_eq in E. subst. exact Hy.
  - intros H. exists x. split; [exact H | apply str_eqb_refl].
Qed.

Lemma truthy_true {A} (l : list A) : truthy l = true -> l <> [].
Proof. destruct l; [discriminate | discriminate]. Qed.

Lemma choose_target_among (names : list pystr) (current : option pystr)
    (agent_choice target : pystr) :
  (forall c, current = Some c -> c = [] \/ In c names) ->
  choose_target isdigit int names current agent_choice = Some (Some target) ->
  In target names.
Proof.
  intros Hcur. unfold choose_target.
  assert (Hname : (if member agent_choice names then Some agent_choice
                   else match names with
                        | [] => None
                        | first :: _ =>
                            match current with
                            | Some c => if truthy c then Some c else Some first
                            | None => Some first
                            end
                        end) = Some target -> In target names).
  { destruct (member agent_choice names) eqn:M.
    - intros [= <-]. apply member_in, M.
    - destruct names as [|first rest]; [discriminate |].
      destruct current as [c|]; [| intros [= <-]; left; reflexivity].
      destruct (truthy c) eqn:T; intros [= <-]; [| left; reflexivity].
      destruct (Hcur c eq_refl) as [-> | Hin]; [discriminate | exact Hin]. }
  destruct (isdigit agent_choice); [| intros [= H]; exact (Hname H)].
  destruct (int agent_choice) as [n|]; [| discriminate].
  destruct ((1 <=? n) && (n <=? length names))%nat.
  - intros [= H]. eapply nth_error_In, H.
  - intros [= H]. exact (Hname H).
Qed.

Lemma details_well_formed (names : list pystr) (choice : pystr) (current : option pystr)
    (console : list pystr) (d : Intervention) :
  (forall c, current = Some c -> c = [] \/ In c names) ->
  fst (_get_intervention_details isdigit int names choice current console) = Some d ->
  well_formed names d.
Proof.
  intros Hcur. unfold _get_intervention_details.
  destruct (str_eqb choice (py "1")).
  { destruct console as [|line console1]; [discriminate |]. cbn [input].
    destruct (choose_target isdigit int names current (strip line)) as [[target|]|] eqn:Ht;
      [| discriminate | discriminate].
    destruct (truthy target) eqn:T; cbn [negb]; [| discriminate].
    destruct console1 as [|line2 console2]; [discriminate |]. cbn [input].
    destruct (truthy (strip line2)) eqn:T2; cbn [negb fst]; [| discriminate].
    intros [= <-]. cbn [well_formed].
    split; [exact (choose_target_among names current _ target Hcur Ht) |].
    split; [apply truthy_true, T |]. split; [apply truthy_true, T2 | apply strip_strip]. }
  destruct (str_eqb choice (py "2")).
  { destruct console as [|line console1]; [discriminate |]. cbn [input].
    destruct (truthy (strip line)) eqn:T; cbn [negb fst]; [| discriminate].
    intros [= <-]. split; [apply truthy_true, T | apply strip_strip]. }
  destruct (str_eqb choice (py "3")).
  { destruct console as [|line console1]; [discriminate |]. cbn [input].
    destruct (truthy (strip line)) eqn:T; cbn [negb fst]; [| discriminate].
    intros [= <-]. split; [apply truthy_true, T | apply strip_strip]. }
  destruct (str_eqb choice (py "4")); [intros [= <-]; exact I |].
  destruct (str_eqb choice (py "5")); [intros [= <-]; exact I | discriminate].
Qed.

(** X21.  Whatever is typed at the console, and whatever [isdigit] and [int] make
    of it, an intervention that [_get_blocking_user_intervention] returns
    can be handled as it stands: its texts are stripped and not empty, and a
    question to one participant names a participant of the discussion (the
    one chosen by number or by name, else the current one), which the
    handler therefore finds.  It is returned only when the operator takes
    part. *)
Theorem console_interventions_are_well_formed (st : Engine) (current : option pystr)
    (console : list pystr) (d : Intervention) :
  (forall c, current = Some c -> c = [] \/ In c (keys (agents st))) ->
  fst (_get_blocking_user_intervention isdigit int st current console) = Some d ->
  user_participation st = true /\
  well_formed (keys (agents st)) d /\
  (forall target q, d = question_to_agent target q ->
     truthy target && truthy q = true /\ is_Some (dict_get target (agents st))).
Proof.
  intros Hcur. unfold _get_blocking_user_intervention.
  destruct (user_participation st); cbn [negb]; [| discriminate].
  intros H. split; [reflexivity |].
  assert (Hw : well_formed (keys (agents st)) d).
  { revert H. induction console as [|line rest IH]; [discriminate |]. cbn [ask].
    destruct (truthy (strip line)); cbn [negb]; [| discriminate].
    destruct (member (strip line) [py "1"; py "2"; py "3"; py "4"; py "5"]); [| exact IH].
    apply details_well_formed, Hcur. }
  split; [exact Hw |].
  intros target q ->. destruct Hw as (Hin & Ht & Hq & _). split.
  - destruct target; [congruence |]. destruct q; [congruence |]. reflexivity.
  - destruct (dict_get_in target (agents st) Hin) as [a G]. exists a. exact G.
Qed.

(** X22.  The dialogue of a checkpoint.  When the operator takes no part nothing
    is read.  Otherwise lines are read until one is empty or one of the five
    choices: the lines before it are skipped, whatever they are; an empty
    line, or the end of the input, means no intervention; the choices 4 and 5
    give [skip_round] and [interrupt] at once; the choices 2 and 3 read one
    more line, and give nothing when it is empty. *)
Theorem console_dialogue (st : Engine) (current : option pystr) :
  (user_participation st = false ->
   forall console,
     _get_blocking_user_intervention isdigit int st current console = (None, console)) /\
  (user_participation st = true ->
   (forall skipped console,
      Forall not_a_choice skipped ->
      _get_blocking_user_intervention isdigit int st current (skipped ++ console)
      = _get_blocking_user_intervention isdigit int st current console) /\
   _get_blocking_user_intervention isdigit int st current [] = (None, []) /\
   (forall line console,
      strip line = [] ->
      _get_blocking_user_intervention isdigit int st current (line :: console)
      = (None, console)) /\
   (forall line console,
      strip line = py "4" ->
      _get_blocking_user_intervention isdigit int st current (line :: console)
      = (Some skip_round, console)) /\
   (forall line console,
      strip line = py "5" ->
      _get_blocking_user_intervention isdigit int st current (line :: console)
      = (Some interrupt, console)) /\
   (forall line text console,
      strip line = py "2" ->
      _get_blocking_user_intervention isdigit int st current (line :: text :: console)
      = (if truthy (strip text) then Some (broadcast_question (strip text)) else None,
         console)) /\
   (forall line text console,
      strip line = py "3" ->
      _get_blocking_user_intervention isdigit int st current (line :: text :: console)
      = (if truthy (strip text) then Some (add_information (strip text)) else None,
         console))).
Proof.
  unfold _get_blocking_user_intervention. split.
  - intros ->. reflexivity.
  - intros ->. cbn [negb].
    split; [| split; [reflexivity |]].
    + intros skipped console F. induction F as [|line skipped [H1 H2] F IH]; [reflexivity |].
      cbn [app ask]. rewrite H2.
      destruct (strip line) eqn:E; [congruence |]. cbn [truthy negb]. exact IH.
    + split; [intros line console E; cbn [ask]; rewrite E; reflexivity |].
      split; [intros line console E; cbn [ask]; rewrite E; reflexivity |].
      split; [intros line console E; cbn [ask]; rewrite E; reflexivity |].
      split; intros line text console E; cbn [ask]; rewrite E;
        destruct (truthy (strip text)) eqn:T;
        (transitivity
           (_get_intervention_details isdigit int (keys (agents st)) (strip line) current
              (text :: console)); [rewrite E; reflexivity |]);
        unfold _get_intervention_details; rewrite E;
        match goal with |- context [str_eqb ?a ?b] =>
          change (str_eqb a b) with false || change (str_eqb a b) with true end;
        cbv beta iota; cbn [input]; rewrite T; reflexivity.
Qed.

End ConsoleFacts.

(** ** The words of a response *)

Section WordFacts.

Lemma split_go_word (word cur rest : pystr) :
  forallb (fun c => negb (is_space c)) word = true ->
  split_go cur (word ++ rest) = split_go (cur ++ word) rest.
Proof.
  revert cur. induction word as [|c word IH]; intros cur H; simpl.
  - rewrite app_nil_r. reflexivity.
  - simpl in H. apply andb_prop in H as [Hc H].
    destruct (is_space c); [discriminate |].
    rewrite (IH _ H), <- app_assoc. reflexivity.
Qed.

Lemma split_go_words (s cur : pystr) :
  forallb (fun c => negb (is_space c)) cur = true ->
  Forall is_word (split_go cur s).
Proof.
  revert cur. induction s as [|c s IH]; intros cur H; simpl.
  - destruct cur; [constructor |]. constructor; [| constructor]. split; [discriminate | exact H].
  - destruct (is_space c) eqn:E.
    + destruct cur; [apply IH; reflexivity |].
      constructor; [split; [discriminate | exact H] | apply IH; reflexivity].
    + apply IH. rewrite forallb_app, H. simpl. rewrite E. reflexivity.
Qed.

Lemma split_words (s : pystr) : Forall is_word (split s).
Proof. apply split_go_words. reflexivity. Qed.

Lemma split_join (words : list pystr) :
  Forall is_word words -> split (join (py " ") words) = words.
Proof.
  unfold split. induction words as [|word words IH]; intros F; [reflexivity |].
  apply List.Forall_cons_iff in F as [[Hne Hw] F].
  destruct words as [|word2 words].
  - simpl. rewrite <- (app_nil_r word) at 1. rewrite (split_go_word _ _ _ Hw). simpl.
    destruct word; [congruence | reflexivity].
  - change (join (py " ") (word :: word2 :: words))
      with (word ++ py " " ++ join (py " ") (word2 :: words)).
    rewrite (split_go_word _ _ _ Hw). cbn [app].
    change (py " " ++ join (py " ") (word2 :: words))
      with (32%N :: join (py " ") (word2 :: words)).
    cbn [split_go]. change (is_space 32%N) with true. cbv iota.
    destruct word; [congruence |]. rewrite (IH F). reflexivity.
Qed.

Lemma join_snoc (sep : pystr) (words : list pystr) (word more : pystr) :
  join sep (words ++ [word]) ++ more = join sep (words ++ [word ++ more]).
Proof.
  induction words as [|x words IH]; [reflexivity |].
  destruct words as [|y words].
  - simpl. rewrite <- !app_assoc. reflexivity.
  - change (join sep ((x :: y :: words) ++ [word]))
      with (x ++ sep ++ join sep ((y :: words) ++ [word])).
    change (join sep ((x :: y :: words) ++ [word ++ more]))
      with (x ++ sep ++ join sep ((y :: words) ++ [word ++ more])).
    rewrite <- IH, <- !app_assoc. reflexivity.
Qed.

Lemma in_first_n {A} (n : nat) (l : list A) (x : A) : In x (first_n n l) -> In x l.
Proof.
  unfold first_n. intros H. rewrite <- (firstn_skipn n l). apply in_or_app. left. exact H.
Qed.

Lemma in_last_n {A} (n : nat) (l : list A) (x : A) : In x (last_n n l) -> In x l.
Proof.
  unfold last_n. intros H. rewrite <- (firstn_skipn (length l - n) l).
  apply in_or_app. right. exact H.
Qed.

Lemma concise_long (response : pystr) :
  (400 < length (split response))%nat ->
  exists words word,
    first_n 50 (split response) ++ last_n 50 (split response) = words ++ [word] /\
    length words = 99%nat /\
    _make_response_concise response
    = join (py " ") (words ++ [word ++ py "...[内容已精简]"]) /\
    split (_make_response_concise response) = words ++ [word ++ py "...[内容已精简]"].
Proof.
  intros Hlong.
  pose proof (split_words response) as F.
  set (ws := split response) in *.
  assert (Hlen : length (first_n 50 ws ++ last_n 50 ws) = 100%nat).
  { unfold first_n, last_n. rewrite length_app, length_firstn, length_skipn. lia. }
  assert (Fw : Forall is_word (first_n 50 ws ++ last_n 50 ws)).
  { apply Forall_app. split.
    - apply List.Forall_forall. intros x Hx. rewrite List.Forall_forall in F.
      apply F. eapply in_first_n, Hx.
    - apply List.Forall_forall. intros x Hx. rewrite List.Forall_forall in F.
      apply F. eapply in_last_n, Hx. }
  destruct (first_n 50 ws ++ last_n 50 ws) as [|x xs] eqn:E using rev_ind;
    [discriminate |].
  clear IHxs. exists xs, x. split; [reflexivity |].
  rewrite length_app in Hlen. simpl in Hlen. split; [lia |].
  assert (Hc : _make_response_concise response
               = join (py " ") (xs ++ [x ++ py "...[内容已精简]"])).
  { unfold _make_response_concise. fold ws.
    destruct (length ws <=? 400)%nat eqn:L; [apply Nat.leb_le in L; lia |].
    rewrite E. apply join_snoc. }
  split; [exact Hc |]. rewrite Hc. apply split_join.
  apply Forall_app in Fw as [F1 F2]. apply Forall_app. split; [exact F1 |].
  apply List.Forall_cons_iff in F2 as [[Hne Hx] _].
  constructor; [| constructor]. split.
  - destruct x; [congruence | discriminate].
  - rewrite forallb_app, Hx. reflexivity.
Qed.

(** X23.  [_make_response_concise] leaves a response of at most 400 words as it
    is; of a longer one it keeps the first 50 and the last 50 words, joined
    by single spaces, with the marker glued to the last word, so that the
    result has exactly 100 words, begins with the first 50 words of the
    response, and is left as it is when the function is applied again. *)
Theorem make_response_concise_idempotent (response : pystr) :
  ((length (split response) <= 400)%nat ->
   _make_response_concise response = response) /\
  ((400 < length (split response))%nat ->
   length (split (_make_response_concise response)) = 100%nat /\
   firstn 50 (split (_make_response_concise response)) = firstn 50 (split response)) /\
  _make_response_concise (_make_response_concise response)
  = _make_response_concise response.
Proof.
  assert (Hshort : forall r, (length (split r) <= 400)%nat -> _make_response_concise r = r).
  { intros r H. unfold _make_response_concise. apply Nat.leb_le in H. rewrite H. reflexivity. }
  assert (Hlong : (400 < length (split response))%nat ->
            length (split (_make_response_concise response)) = 100%nat /\
            firstn 50 (split (_make_response_concise response))
            = firstn 50 (split response)).
  { intros H. destruct (concise_long response H) as (words & word & E & Hl & _ & Hs).
    rewrite Hs. split; [rewrite length_app; simpl; lia |].
    rewrite firstn_app, Hl. change (50 - 99)%nat with 0%nat. cbn [firstn].
    rewrite app_nil_r.
    assert (H50 : firstn 50 (first_n 50 (split response) ++ last_n 50 (split response))
                  = firstn 50 (split response)).
    { unfold first_n. rewrite firstn_app, length_firstn.
      replace (50 - Nat.min 50 (length (split response)))%nat with 0%nat by lia.
      cbn [firstn]. rewrite app_nil_r. rewrite firstn_firstn. reflexivity. }
    rewrite E, firstn_app, Hl in H50. change (50 - 99)%nat with 0%nat in H50.
    cbn [firstn] in H50. rewrite app_nil_r in H50. exact H50. }
  split; [apply Hshort |]. split; [exact Hlong |].
  destruct (Nat.le_gt_cases (length (split response)) 400) as [H | H].
  - rewrite (Hshort response H). apply Hshort, H.
  - apply Hshort. destruct (Hlong H) as [Hl _]. rewrite Hl. lia.
Qed.

End WordFacts.

(** ** What an agent remembers, and what reaches the decision *)

Section Memory.
Variable w : World.

Lemma dict_get_set_eq {V} (k : pystr) (v v0 : V) (d : list (pystr * V)) :
  dict_get k d = Some v0 -> dict_get k (dict_set k v d) = Some v.
Proof.
  induction d as [|[k' v'] d IH]; simpl; [discriminate |].
  destruct (str_eqb k k') eqn:E; simpl; rewrite E; [reflexivity | exact IH].
Qed.

Lemma dict_get_set_ne {V} (k k0 : pystr) (v : V) (d : list (pystr * V)) :
  k0 <> k -> dict_get k0 (dict_set k v d) = dict_get k0 d.
Proof.
  intros Hne. induction d as [|[k' v'] d IH]; simpl.
  - rewrite str_eqb_neq by exact Hne. reflexivity.
  - destruct (str_eqb k k') eqn:E; simpl.
    + apply str_eqb_eq in E. subst k'. rewrite !str_eqb_neq by exact Hne. reflexivity.
    + rewrite IH. reflexivity.
Qed.

(** X24.  The turn of a [SpecialtyAgent] at a checkpoint where the operator does
    nothing: whatever the agent's messages were, afterwards they are its
    system message, the digest of the round, the prompt of the turn and,
    when the model answered, the answer.  Nothing of an earlier round, and
    nothing that [update_context] had added, is kept; the other agents are
    not touched. *)
Theorem turn_resets_the_history round_num hist name a contribs st m0 :
  agent_class a = SpecialtyAgent ->
  system_head a = Some m0 ->
  dict_get name (agents st) = Some a ->
  _get_blocking_user_intervention w round_num name st = None ->
  let st' := snd (fst (agent_turn w round_num hist name a contribs st)) in
  let prompt :=
    mkMessage User
      (analysis_message (specialty a) (medical_record (medical_context st))
         (_format_discussion_history_for_prompt hist) (nl ++ analysis_prompt name)) in
  (exists a',
     dict_get name (agents st') = Some a' /\
     static a' = static a /\
     messages a'
     = m0 :: hist ++ [prompt]
       ++ match invoke w (AnalysisCall round_num name) with
          | Reply text => [mkMessage Assistant text]
          | Failure _ => []
          end) /\
  (forall other, other <> name -> dict_get other (agents st') = dict_get other (agents st)).
Proof.
  intros Hc Hh G Hb. cbv zeta.
  pose proof (system_head_set_shared_history a m0 hist Hh) as Hm.
  pose proof (system_head_role a m0 Hh) as Hr.
  unfold agent_turn, analyze_clinical_case.
  rewrite agent_class_set_shared_history, Hc.
  assert (Hagain : (if truthy hist
                    then set_shared_history hist (set_shared_history hist a)
                    else set_shared_history hist a) = set_shared_history hist a).
  { destruct (truthy hist); [| reflexivity].
    unfold set_shared_history at 1. rewrite Hm, Hr.
    unfold set_shared_history. unfold system_head in Hh.
    destruct (messages a) as [|m ms]; [discriminate |].
    destruct (role m); try discriminate. injection Hh as <-. reflexivity. }
  rewrite Hagain.
  assert (Hsp : specialty (set_shared_history hist a) = specialty a).
  { pose proof (static_set_shared_history hist a) as Hs. unfold static in Hs.
    injection Hs as _ _ Hx _. exact Hx. }
  rewrite Hsp. unfold chat. rewrite Hm.
  destruct (invoke w (AnalysisCall round_num name)) as [text | e];
    cbv beta iota zeta; cbn [fst snd];
    match goal with |- context [_add_to_shared_history name ?t ?s] =>
      set (st2 := _add_to_shared_history name t s) end;
    assert (E1 : _get_blocking_user_intervention w round_num name st2 = None) by exact Hb;
    rewrite E1; cbn [fst snd]; subst st2;
    cbn [agents _add_to_shared_history set_shared_discussion_history add_requests
         set_llm_requests put_agent set_agents];
    (split;
     [ eexists; split; [apply (dict_get_set_eq _ _ a), G |];
       split; [apply static_set_shared_history |];
       cbn [messages set_messages]; rewrite ?app_nil_r, <- ?app_assoc; reflexivity
     | intros other Hne; apply dict_get_set_ne, Hne ]).
Qed.





End Memory.

(** ** What stops a discussion *)

Section Halting.
Variable w : World.

Lemma halting_refl st : is_running st = true -> halting st st.
Proof. intros H. exists []. rewrite app_nil_r, H. split; [reflexivity | intros []]. Qed.

Lemma halting_trans st1 st2 st3 :
  halting st1 st2 -> is_running st2 = true -> halting st2 st3 -> halting st1 st3.
Proof.
  intros (t1 & L1 & R1) Hrun (t2 & L2 & R2). rewrite Hrun in R1.
  exists (t1 ++ t2). split; [rewrite L2, L1, app_assoc; reflexivity |].
  destruct (is_running st3).
  - intros Hin. apply in_app_or in Hin. tauto.
  - destruct R2 as (before & -> & Hb). exists (t1 ++ before).
    split; [rewrite app_assoc; reflexivity |].
    intros Hin. apply in_app_or in Hin. tauto.
Qed.

Lemma halting_same st st1 st2 :
  halting st st1 ->
  handled (logger st2) = handled (logger st1) ->
  is_running st2 = is_running st1 ->
  halting st st2.
Proof. intros (ts & L & R) Hl Hr. exists ts. rewrite Hl, Hr. split; assumption. Qed.

Lemma handle_handled round_num after d st :
  handled (logger (snd (_handle_user_intervention w round_num after d st)))
  = handled (logger st) ++ [get_type d].
Proof.
  unfold _handle_user_intervention.
  set (st0 := log_event (LogHandling (get_type d)) st).
  assert (H0 : handled (logger st0) = handled (logger st) ++ [get_type d]).
  { unfold st0, log_event. cbn [logger set_logger]. rewrite handled_app. reflexivity. }
  destruct d as [target q | q | info | |].
  - destruct (if truthy target && truthy q then dict_get target (agents st0) else None)
      as [a|]; [| exact H0].
    destruct (respond_to_user_question w _ q _ _ a) as [[ans | e] reqs]; cbv beta iota;
      [exact H0 |].
    cbn [snd log_event logger set_logger add_requests set_llm_requests].
    rewrite handled_app. cbn [handled flat_map]. rewrite app_nil_r. exact H0.
  - destruct (truthy q); [| exact H0].
    destruct (broadcast_loop_answers w round_num after q (keys (agents st0)) [] st0)
      as [Hu _].
    destruct (broadcast_loop w round_num after q (keys (agents st0)) [] st0)
      as [[contribs | e] st1]; cbv beta iota; cbn [snd] in Hu;
      unfold untouched_by_answers in Hu;
      injection Hu as U1 U2 U3 U4 U5 U6 U7 U8 U9 U10 U11 Hg.
    + cbn [snd record_intervention logger set_user_interventions set_discussion_log].
      rewrite Hg. exact H0.
    + cbn [snd log_event logger set_logger]. rewrite handled_app, Hg.
      cbn [handled flat_map]. rewrite app_nil_r. exact H0.
  - destruct (truthy info); exact H0.
  - exact H0.
  - exact H0.
Qed.

Lemma agent_turn_halting round_num hist name a contribs st :
  is_running st = true ->
  halting st (snd (fst (agent_turn w round_num hist name a contribs st))) /\
  (is_running (snd (fst (agent_turn w round_num hist name a contribs st))) = false ->
   snd (agent_turn w round_num hist name a contribs st) = true).
Proof.
  intros Hrun. unfold agent_turn.
  destruct (analyze_clinical_case w _ _ hist _ _) as [[[result | e] a2] reqs];
    cbv beta iota zeta.
  - match goal with |- context [_add_to_shared_history name ?t ?s] =>
      set (st2 := _add_to_shared_history name t s) end.
    assert (H2 : halting st st2).
    { apply (halting_same st st st2); [apply halting_refl, Hrun | reflexivity | reflexivity]. }
    assert (Hrun2 : is_running st2 = true) by exact Hrun.
    destruct (_get_blocking_user_intervention w round_num name st2) as [d|];
      [| cbn [fst snd]; split; [exact H2 | congruence]].
    pose proof (handle_handled round_num name d st2) as Hh.
    destruct (leaves_round d) eqn:Hd.
    + destruct d; try discriminate.
      * rewrite handle_skip_round in *. cbn [fst snd] in *. split; [| reflexivity].
        apply (halting_trans _ _ _ H2 Hrun2). exists [Tskip_round].
        split; [exact Hh |].
        change (is_running (set_skip_remaining_agents true
                              (log_event (LogHandling Tskip_round) st2)))
          with (is_running st2).
        rewrite Hrun2. intros [Hx | []]. discriminate.
      * rewrite handle_interrupt in *. cbn [fst snd] in *. split; [| reflexivity].
        apply (halting_trans _ _ _ H2 Hrun2). exists [Tinterrupt].
        split; [exact Hh |]. cbn [is_running set_is_running].
        exists []. split; [reflexivity | intros []].
    + destruct (handle_stays w round_num name d st2 Hd) as [Hf Hc].
      destruct (_handle_user_intervention w round_num name d st2) as [leave st3].
      cbn [fst snd] in *. subst leave.
      assert (Hrun3 : is_running st3 = true).
      { unfold control in Hc. injection Hc as -> _. exact Hrun2. }
      split; [| congruence].
      apply (halting_trans _ _ _ H2 Hrun2). exists [get_type d].
      split; [exact Hh |]. rewrite Hrun3. intros [Hx | []].
      destruct d; discriminate.
  - cbn [fst snd]. split.
    + apply (halting_same st st); [apply halting_refl, Hrun | | reflexivity].
      cbn [log_event logger set_logger add_requests set_llm_requests put_agent set_agents].
      rewrite handled_app. cbn [handled flat_map]. rewrite app_nil_r. reflexivity.
    + cbn [log_event is_running set_logger add_requests set_llm_requests put_agent
           set_agents]. congruence.
Qed.

Lemma agents_loop_halting round_num hist names :
  forall contribs st,
    is_running st = true ->
    halting st (snd (agents_loop w round_num hist names contribs st)).
Proof.
  induction names as [|name rest IH]; intros contribs st Hrun; cbn [agents_loop];
    [apply halting_refl, Hrun |].
  destruct (skip_remaining_agents st).
  { cbn [snd]. apply (halting_same st st); [apply halting_refl, Hrun | | reflexivity].
    cbn [log_event logger set_logger]. rewrite handled_app. cbn [handled flat_map].
    rewrite app_nil_r. reflexivity. }
  destruct (dict_get name (agents st)) as [a|]; [| apply IH, Hrun].
  destruct (agent_turn_halting round_num hist name a contribs st Hrun) as [H1 H2].
  destruct (agent_turn w round_num hist name a contribs st) as [[contribs1 st1] leave].
  cbn [fst snd] in *. destruct leave; [exact H1 |].
  destruct (is_running st1) eqn:Hrun1; [| specialize (H2 eq_refl); discriminate].
  exact (halting_trans _ _ _ H1 Hrun1 (IH contribs1 st1 Hrun1)).
Qed.

Lemma round_halting round_num st :
  is_running st = true ->
  halting st (snd (_execute_discussion_round w round_num st)).
Proof.
  intros Hrun. unfold _execute_discussion_round.
  set (st1 := set_skip_remaining_agents false st).
  pose proof (agents_loop_halting round_num
                (_get_current_discussion_context (discussion_log st1))
                (keys (agents st1)) [] st1 Hrun) as H.
  destruct (agents_loop w round_num _ (keys (agents st1)) [] st1) as [contribs st2].
  exact H.
Qed.

Lemma rounds_loop_halting rs :
  forall st, is_running st = true -> halting st (snd (rounds_loop w rs st)).
Proof.
  induction rs as [|r rs IH]; intros st Hrun; [apply halting_refl, Hrun |].
  destruct (rounds_loop_cons w r rs st Hrun) as (st3 & Hloop & Ha & more & Hmore & Hnone).
  pose proof (round_halting r (set_current_round r st) Hrun) as Hr.
  destruct (_execute_discussion_round w r (set_current_round r st)) as [round_log st1].
  cbn [fst snd] in *.
  assert (H3 : halting st st3).
  { apply (halting_same st st1); [exact Hr | |].
    - rewrite Hmore, handled_app, Hnone, app_nil_r. reflexivity.
    - unfold all_but_logger in Ha. cbn [is_running set_discussion_log] in Ha.
      injection Ha as _ Hx _ _ _ _ _ _ _ _ _ _ _. exact Hx. }
  rewrite Hloop. destruct (is_running st3) eqn:Hrun3.
  - exact (halting_trans _ _ _ H3 Hrun3 (IH st3 Hrun3)).
  - rewrite (rounds_loop_stopped w rs st3 Hrun3). cbn [snd].
    apply (halting_same st st3); [exact H3 | |]; destruct rs; reflexivity.
Qed.

(** X26.  A discussion is interrupted exactly when an [interrupt] is handled at a
    checkpoint, and that intervention is then the last one handled; it is
    completed exactly when none is handled, however many other
    interventions, [skip_round] among them, are. *)
Theorem interrupt_is_the_last_handled (st : Engine) :
  exists ts,
    handled (logger (snd (start_discussion w st))) = handled (logger st) ++ ts /\
    match fst (start_discussion w st) with
    | Completed _ => ~ In Tinterrupt ts
    | Interrupted _ => exists before, ts = before ++ [Tinterrupt] /\ ~ In Tinterrupt before
    | Errored _ => False
    end.
Proof.
  unfold start_discussion.
  set (st0 := set_current_round 0 (set_is_running true st)).
  destruct (rounds_loop_extends w (seq 1 (max_rounds st0)) st0) as (st1 & Hloop & _ & _).
  pose proof (rounds_loop_halting (seq 1 (max_rounds st0)) st0 eq_refl) as (ts & L & R).
  rewrite Hloop in *. cbn [snd] in L, R.
  change (logger st0) with (logger st) in L.
  exists ts. destruct (is_running st1) eqn:Hrun.
  - destruct (final_summary_frame w st1) as (_ & _ & _ & _ & Hh).
    destruct (_generate_final_summary w st1) as [final_summary st2]. cbn [fst snd] in *.
    split; [| exact R].
    transitivity (handled (logger st2)); [reflexivity |]. rewrite Hh. exact L.
  - cbn [fst snd]. split; [exact L | exact R].
Qed.

End Halting.

(** ** The interventions of a discussion and the result *)

Section Ledger.
Variable w : World.













End Ledger.

(** ** More instances *)

Section SessionInstances.
Import Session SessionStore.

(** A cleanup at the first second does not change what a validation much
    later finds. *)
Lemma cleanup_invisible_to_validate_run :
  fst (validate_session 3600000001 "s1" (_cleanup_expired_sessions 1000000 one_session))
  = fst (validate_session 3600000001 "s1" one_session).
Proof.
  apply (cleanup_invisible_to_validate 1000000 3600000001 "s1" one_session). lia.
Defined.

(** One microsecond after the hour every accessor rejects the session. *)
Lemma accessors_reject_dead_sessions_run :
  accepts 3600000001 "s1" one_session = false /\
  fst (add_custom_agent 3600000001 "s1" "helper" "entry" one_session) = false /\
  fst (get_discussion_data 3600000001 "s1" one_session) = [].
Proof.
  assert (H : accepts 3600000001 "s1" one_session = false) by (vm_compute; reflexivity).
  destruct (accessors_reject_dead_sessions 3600000001 "s1" one_session "helper" "entry"
              [("topic", "chest pain")] H) as (H1 & _ & _ & _ & H5 & _).
  split; [exact H |]. split; [rewrite H1 | rewrite H5]; reflexivity.
Defined.

(** A sweep one microsecond after the hour removes the session; one at the
    hour keeps it. *)
Lemma cleanup_removes_exactly_expired_run :
  get_session_data "s1" (_cleanup_expired_sessions 3600000001 one_session) = None /\
  get_session_data "s1" (_cleanup_expired_sessions 3600000000 one_session)
  = Some (mkSessionData "s1" "alice" 0 0 [] [] []).
Proof.
  destruct (cleanup_removes_exactly_expired 3600000001 one_session one_session_float_exact)
    as (_ & _ & H1 & _).
  destruct (cleanup_removes_exactly_expired 3600000000 one_session one_session_float_exact)
    as (_ & _ & H2 & _).
  split.
  - apply (H1 "s1" (mkSessionData "s1" "alice" 0 0 [] [] []) eq_refl).
    unfold timeout_us, inactivity. simpl. lia.
  - apply (H2 "s1" (mkSessionData "s1" "alice" 0 0 [] [] []) eq_refl).
    unfold timeout_us, inactivity. simpl. lia.
Defined.

(** The session expired long ago is live again after an update of its
    activity. *)
Lemma update_session_activity_restarts_lease_run :
  accepts 9000000000 "s1" one_session = false /\
  accepts 9000000001 "s1" (snd (update_session_activity 9000000000 "s1" one_session))
  = true.
Proof.
  split; [vm_compute; reflexivity |].
  destruct (update_session_activity_restarts_lease 9000000000 "s1" one_session
              one_session_float_exact) as [H _].
  destruct (H (mkSessionData "s1" "alice" 0 0 [] [] []) eq_refl) as (_ & _ & Hacc & _).
  apply Hacc. unfold timeout_us. simpl. lia.
Defined.

Lemma create_session_then_validate_run :
  accepts 3600000005 "s2" (snd (create_session "s2" 5 "bob" [] one_session)) = true /\
  In "s2"%string (get_user_sessions "bob" (snd (create_session "s2" 5 "bob" [] one_session))).
Proof.
  destruct (create_session_then_validate "s2" 5 "bob" [] one_session
              one_session_float_exact) as (_ & _ & _ & Hacc & Hin).
  split; [| exact Hin]. apply Hacc. unfold timeout_us. simpl. lia.
Defined.

Lemma get_user_sessions_lists_stored_run :
  In "s1"%string (get_user_sessions "alice" one_session) /\
  ~ In "s1"%string
      (get_user_sessions "alice" (_cleanup_expired_sessions 3600000001 one_session)).
Proof.
  destruct (get_user_sessions_lists_stored "alice" one_session one_session_float_exact)
    as (H1 & _ & H3).
  split.
  - apply H1. exists (mkSessionData "s1" "alice" 0 0 [] [] []). split; reflexivity.
  - intros Hin. destruct (proj1 (H3 3600000001 "s1"%string) Hin) as (d & Hd & _ & Hle).
    vm_compute in Hd. injection Hd as <-.
    unfold timeout_us, inactivity in Hle. simpl in Hle. lia.
Defined.

Lemma discussion_data_update_then_get_run :
  payload_get "topic"
    (fst (get_discussion_data 2000000 "s1"
            (snd (update_discussion_data 1000000 "s1"
                    [("topic", "chest pain"); ("topic", "dyspnoea")] one_session))))
  = Some "dyspnoea".
Proof.
  destruct (discussion_data_update_then_get 1000000 2000000 3000000 "s1"
              [("topic", "chest pain"); ("topic", "dyspnoea")] one_session
              (mkSessionData "s1" "alice" 0 0 [] [] []))
    as (_ & H & _);
    [reflexivity | unfold inactivity, timeout_us; simpl; lia
     | unfold timeout_us; simpl; lia | unfold timeout_us; simpl; lia |].
  rewrite (H "topic"). reflexivity.
Defined.

Lemma custom_agent_add_then_remove_run :
  payload_get "helper"
    (fst (get_custom_agents 2000000 "s1"
            (snd (add_custom_agent 1000000 "s1" "helper" "entry" one_session))))
  = Some "entry" /\
  fst (remove_custom_agent 3000000 "s1" "helper"
         (snd (remove_custom_agent 2000000 "s1" "helper"
                 (snd (add_custom_agent 1000000 "s1" "helper" "entry" one_session)))))
  = false.
Proof.
  destruct (custom_agent_add_then_remove 1000000 2000000 3000000 "s1" "helper" "entry"
              one_session (mkSessionData "s1" "alice" 0 0 [] [] []))
    as (_ & H2 & _ & _ & _ & _ & H7);
    [reflexivity | apply List.NoDup_nil | unfold inactivity, timeout_us; simpl; lia
     | unfold timeout_us; simpl; lia | unfold timeout_us; simpl; lia |].
  split; [exact H2 | exact H7].
Defined.

End SessionInstances.

Section EngineInstances.



(** Two rounds of three specialists and the decision: seven requests. *)
Lemma requests_of_unattended_discussion_run :
  List.map call
    (llm_requests
       (snd (start_discussion (unattended []) (board false 2 (Some decision_maker)))))
  = scheduled_calls 2 (board false 2 (Some decision_maker)).
Proof.
  apply (requests_of_unattended_discussion (unattended [])
           (board false 2 (Some decision_maker)) eq_refl board_distinct).
Defined.




(** The turn of the first specialist leaves the second as it was. *)
Lemma turn_resets_the_history_run :
  dict_get (py "neurology")
    (agents
       (snd (fst (agent_turn (unattended []) 1
                    (_get_current_discussion_context [])
                    (py "cardiology") (snd (specialist "cardiology")) []
                    (board false 2 None)))))
  = dict_get (py "neurology") (agents (board false 2 None)).
Proof.
  apply (turn_resets_the_history (unattended []) 1 (_get_current_discussion_context [])
           (py "cardiology") (snd (specialist "cardiology")) [] (board false 2 None)
           (mkMessage System (py "You are a consultant."))
           eq_refl eq_refl eq_refl eq_refl).
  intros H. apply (f_equal (@length N)) in H. vm_compute in H. discriminate.
Defined.

End EngineInstances.

Section ConsoleInstances.
Import Console.

(** The operator chooses a question to all and types it, with blanks around
    both lines; the texts are never taken for numbers here. *)
Lemma console_interventions_are_well_formed_run :
  well_formed (keys (agents (board true 2 None)))
    (broadcast_question (py "Any allergy?")).
Proof.
  apply (console_interventions_are_well_formed (fun _ => false) (fun _ => None)
           (board true 2 None) None [py " 2 "; py "  Any allergy? "]
           (broadcast_question (py "Any allergy?"))).
  - intros c H. discriminate.
  - vm_compute. reflexivity.
Defined.

End ConsoleInstances.
